(** * RTO compliance checker: decision engine and provider failover router

    A shallow embedding of [src/compliance/complianceChecker.js] and of
    [src/ai/modelRouter.js], followed by the properties of the
    specification that concern them.

    Conventions of the embedding.
    - A JavaScript string is a [string] whose characters are code units
      below 256.
    - A JavaScript number is an exact rational ([Q]).  The source
      computes in double precision, which is exact on whole and half
      numbers of moderate size ([halves]); a property that states the
      exact value of a computation on weights is stated for such
      numbers, and one that states an order or a bound holds in double
      precision as well, since rounding keeps the order.
    - A JavaScript object used as a dictionary is a [gmap string _],
      which holds its own properties.  Where the source indexes an
      object by a severity, a text that the rule file or the AI
      response supplies, the names that every object inherits
      ([Js.inheritedNames]) are told apart: reading one of them gives a
      function, not a number.
    - Console output does not influence control flow; of the logger
      calls only the warnings are recorded. *)

From Stdlib Require Import ZArith QArith Qround Qminmax Ascii String.
From stdpp Require Import gmap strings list pretty.

Local Open Scope string_scope.

(** ** JavaScript primitives used by the source *)

Module Js.

(** Truthiness of a string: only the empty string is falsy. *)
Definition truthy (s : string) : bool :=
  match s with
  | EmptyString => false
  | String _ _ => true
  end.

(** [a || b] on strings. *)
Definition or_else (a b : string) : string :=
  if truthy a then a else b.

(** [a || b] where [a] may be [undefined]. *)
Definition opt_or_else (a : option string) (b : string) : string :=
  match a with
  | Some s => or_else s b
  | None => b
  end.

(** Truthiness of an optional string-valued property. *)
Definition opt_truthy (a : option string) : bool :=
  match a with
  | Some s => truthy s
  | None => false
  end.

(** [x || d] on numbers, where [x] may be [undefined]: zero is falsy. *)
Definition num_or_else (x : option Q) (d : Q) : Q :=
  match x with
  | Some q => if Qeq_bool q 0 then d else q
  | None => d
  end.

(** [Math.round]: the nearest integer, halves going up. *)
Definition Math_round (x : Q) : Z := Qfloor (x + (1 # 2)).

(** The class [\s] on code units below 256: tab, line feed, vertical
    tab, form feed, carriage return, space and no-break space. *)
Definition isSpace (c : ascii) : bool :=
  let n := nat_of_ascii c in
  ((9 <=? n)%nat && (n <=? 13)%nat) || (n =? 32)%nat || (n =? 160)%nat.

(** [s.split(/\s+/)], scanning left to right: [piece] is the piece
    being read and [inSep] tells whether the previous code unit was
    white space.  A separator at either end leaves an empty piece
    there, and the empty string splits into one empty piece. *)
Fixpoint split_scan (s : string) (piece : string) (inSep : bool)
  : list string :=
  match s with
  | EmptyString => [piece]
  | String c rest =>
      if isSpace c then
        if inSep then split_scan rest piece true
        else piece :: split_scan rest EmptyString true
      else split_scan rest (piece +:+ String c EmptyString) false
  end.

Definition split_whitespace (s : string) : list string :=
  split_scan s EmptyString false.

(** [s.substring(0, n)]. *)
Definition prefix (n : nat) (s : string) : string := substring 0 n s.

(** [s.repeat(n)]. *)
Fixpoint repeat_string (s : string) (n : nat) : string :=
  match n with
  | O => EmptyString
  | S k => s +:+ repeat_string s k
  end.

(** [s.toLowerCase()] on code units below 256: the letters A to Z and
    the accented capitals 192 to 222, the multiplication sign 215
    apart, move up by 32. *)
Definition lowerChar (c : ascii) : ascii :=
  let n := nat_of_ascii c in
  if ((65 <=? n)%nat && (n <=? 90)%nat)
     || ((192 <=? n)%nat && (n <=? 222)%nat && negb (n =? 215)%nat)
  then ascii_of_nat (n + 32)
  else c.

Fixpoint toLowerCase (s : string) : string :=
  match s with
  | EmptyString => EmptyString
  | String c rest => String (lowerChar c) (toLowerCase rest)
  end.

(** [s.includes(sub)]. *)
Fixpoint includes (s sub : string) : bool :=
  String.prefix sub s
  || match s with
     | EmptyString => false
     | String _ rest => includes rest sub
     end.

(** [s.replace('_', ' ')]: a string pattern replaces its first
    occurrence only. *)
Fixpoint replace_underscore (s : string) : string :=
  match s with
  | EmptyString => EmptyString
  | String c rest =>
      if Ascii.eqb c "_"%char then String " "%char rest
      else String c (replace_underscore rest)
  end.

(** A string between double quotes. *)
Definition quoted (s : string) : string :=
  String (ascii_of_nat 34) EmptyString +:+ s
    +:+ String (ascii_of_nat 34) EmptyString.

(** A property key: [obj[undefined]] reads the property named
    undefined. *)
Definition key_of (name : option string) : string :=
  match name with
  | Some s => s
  | None => "undefined"
  end.

(** [a || b] on optional strings, keeping the value for later tests. *)
Definition opt_or (a b : option string) : option string :=
  if opt_truthy a then a else b.

(** [[...new Set(l)]]: the first occurrence of each string is kept. *)
Fixpoint uniq_scan (seen : list string) (l : list string) : list string :=
  match l with
  | [] => []
  | x :: rest =>
      if existsb (String.eqb x) seen then uniq_scan seen rest
      else x :: uniq_scan (x :: seen) rest
  end.

Definition uniq (l : list string) : list string := uniq_scan [] l.

(** The property names that every object inherits from
    [Object.prototype]. *)
Definition inheritedNames : list string :=
  ["constructor"; "__defineGetter__"; "__defineSetter__"; "hasOwnProperty";
   "__lookupGetter__"; "__lookupSetter__"; "isPrototypeOf";
   "propertyIsEnumerable"; "toString"; "valueOf"; "__proto__";
   "toLocaleString"].

Definition inheritedName (key : string) : bool :=
  existsb (String.eqb key) inheritedNames.

End Js.

(** ** Data model *)

(** A violation as [performBasicChecks] builds it; [source] is set only
    on the violations taken over from the AI judgment. *)
Record Violation := mkViolation {
  v_id : string;
  category : string;
  severity : string;
  description : string;
  text_found : string;
  location : string;
  recommendation : option string;
  asqa_reference : string;
  source : option string
}.

Record RequiredElement := mkRequiredElement {
  re_id : string;
  re_type : string;
  re_description : string;
  found : bool;
  re_location : option string;
  re_asqa_reference : string
}.

Record PassedRule := mkPassedRule {
  pr_id : string;
  pr_category : string;
  pr_type : string;
  pr_description : string;
  pr_status : string;
  pr_message : string;
  pr_location : option string;
  pr_asqa_reference : string
}.

(** The object handled by [combineResults], [calculateComplianceScore]
    and [generateRecommendations]. *)
Record Results := mkResults {
  violations : list Violation;
  required_elements : list RequiredElement;
  passed_rules : list PassedRule
}.

(** [compliance_thresholds.overall_score] of the rule file. *)
Record Thresholds := mkThresholds {
  excellent : Q;
  good : Q;
  acceptable : Q;
  needs_improvement : Q
}.

Inductive Status :=
| PASS
| PASS_WITH_NOTES
| NEEDS_REVIEW
| ACTION_REQUIRED
| FAIL.

(** ** Score and status *)

(** [weights[violation.severity] || 10], for a severity that reads a
    number or nothing from the weights ([readsNumber] below). *)
Definition weight_of (weights : gmap string Q) (v : Violation) : Q :=
  Js.num_or_else (weights !! severity v) 10.

(** The body of the deduction loop: [score -= weight]. *)
Definition deduct (weights : gmap string Q) (score : Q) (v : Violation) : Q :=
  (score - weight_of weights v)%Q.

(** The test guarding the bonus: the list is not empty and every
    element has [found] set. *)
Definition allRequiredFound (res : list RequiredElement) : bool :=
  negb (Nat.eqb (length res) 0) && forallb found res.

Definition calculateComplianceScore
    (weights : gmap string Q) (results : Results) : Z :=
  let score := fold_left (deduct weights) (violations results) 100%Q in
  let score := Qmax 0 score in
  let score :=
    if allRequiredFound (required_elements results)
    then Qmin 100 (score + 5)
    else score in
  Js.Math_round score.

(** The score before the bonus and the rounding. *)
Definition baseScore (weights : gmap string Q) (vs : list Violation) : Q :=
  Qmax 0 (fold_left (deduct weights) vs 100%Q).

(** [score >= t] on numbers. *)
Definition geq (score t : Q) : bool := Qle_bool t score.

Definition determineStatus (thresholds : Thresholds) (score : Q) : Status :=
  if geq score (excellent thresholds) then PASS
  else if geq score (good thresholds) then PASS_WITH_NOTES
  else if geq score (acceptable thresholds) then NEEDS_REVIEW
  else if geq score (needs_improvement thresholds) then ACTION_REQUIRED
  else FAIL.

(** A rule set deducts points: none of its weights is negative. *)
Definition nonnegative (weights : gmap string Q) : Prop :=
  forall sev w, weights !! sev = Some w -> (0 <= w)%Q.

(** The four cut points descend. *)
Definition descending (th : Thresholds) : Prop :=
  (good th < excellent th)%Q
  /\ (acceptable th < good th)%Q
  /\ (needs_improvement th < acceptable th)%Q.

(** The severity of the violation reads a number or nothing from the
    weights: it is a key of the object, or it is no name that every
    object inherits.  For an inherited name that is no key,
    [weights[violation.severity]] is a function; a function is truthy,
    so [|| 10] keeps it, and [score -= weight] leaves NaN. *)
Definition readsNumber (weights : gmap string Q) (v : Violation) : bool :=
  match weights !! severity v with
  | Some _ => true
  | None => negb (Js.inheritedName (severity v))
  end.

(** What [calculateComplianceScore(results)] returns, with the case in
    which it is not a number: [None] stands for NaN, which [Math.max],
    [Math.min] and [Math.round] hand on. *)
Definition computedScore (weights : gmap string Q) (results : Results)
  : option Z :=
  if forallb (readsNumber weights) (violations results)
  then Some (calculateComplianceScore weights results)
  else None.

(** A whole or a half number of moderate size.  Such a number is a
    double, and so is its difference from 100: the subtraction of the
    source is exact on it. *)
Definition halves (W : Q) : Prop :=
  exists n : Z, (W == n # 2)%Q /\ (Z.abs n <= 2 ^ 52)%Z.

(** ** Location estimate *)

Definition wordCount (text : string) (index : nat) : nat :=
  length (Js.split_whitespace (Js.prefix index text)).

Definition estimateLocation (text : string) (index : nat) : string :=
  let wc := wordCount text index in
  if (wc <? 50)%nat then "beginning"
  else if (wc <? 200)%nat then "middle"
  else "end".

(** The white-space delimited tokens of a string: the non-empty pieces
    of its split. *)
Definition wordsOf (s : string) : list string :=
  filter (fun p => Js.truthy p = true) (Js.split_whitespace s).

(** The number of tokens in front of a match that starts at [index]. *)
Definition tokensBefore (text : string) (index : nat) : nat :=
  length (wordsOf (Js.prefix index text)).

(** A text of [n] one-letter words, each followed by a space, and then
    the phrase of a forbidden claim. *)
Definition words_then_claim (n : nat) : string :=
  Js.repeat_string "w " n +:+ "guaranteed job".


(** ** Errors *)

(** A thrown [Error] object, identified by its message. *)
Inductive exn := Error (message : string).

Definition message_of (e : exn) : string :=
  match e with Error m => m end.

(** The outcome of a call that may throw. *)
Inductive Outcome (A : Type) :=
| Threw (e : exn)
| Returned (a : A).

Arguments Threw {A} e.
Arguments Returned {A} a.

(** ** Merging the rule findings with the AI judgment *)

(** The [violations] property of a parsed AI judgment. *)
Inductive AiViolations :=
| NoViolations
    (** absent, [null] or another falsy value *)
| ViolationList (l : list Violation)
    (** an array of violation objects, as the prompt asks for *)
| NotIterable.
    (** a truthy value without an iterator: a number, a plain object *)

(** What [performAIAnalysis] returns. *)
Record AiResults := mkAiResults {
  ai_violations : AiViolations;
  ai_compliance_score : option Q;
  ai_recommendations : list string;
  ai_summary : option string;
  model : string;
  confidence : Q;
  processing_time : nat
}.

(** The test of [some] in [combineResults]. *)
Definition sameFinding (aiViolation existing : Violation) : bool :=
  String.eqb (text_found existing) (text_found aiViolation)
  && String.eqb (category existing) (category aiViolation).

Definition isDuplicate (acc : list Violation) (aiViolation : Violation) : bool :=
  existsb (sameFinding aiViolation) acc.

(** [{...aiViolation, source: 'ai_analysis'}]. *)
Definition tagAI (a : Violation) : Violation :=
  {| v_id := v_id a; category := category a; severity := severity a;
     description := description a; text_found := text_found a;
     location := location a; recommendation := recommendation a;
     asqa_reference := asqa_reference a;
     source := Some "ai_analysis" |}.

(** The body of the loop over the AI violations. *)
Definition mergeViolation (acc : list Violation) (aiViolation : Violation)
  : list Violation :=
  if isDuplicate acc aiViolation then acc else acc ++ [tagAI aiViolation].

Definition mergeViolations (ruleViolations ai : list Violation)
  : list Violation :=
  fold_left mergeViolation ai ruleViolations.

Definition combineResults (basicResults : Results)
    (aiResults : option AiResults) : Outcome Results :=
  match aiResults with
  | None => Returned basicResults
  | Some ai =>
      match ai_violations ai with
      | NoViolations => Returned basicResults
      | ViolationList l =>
          Returned
            {| violations := mergeViolations (violations basicResults) l;
               required_elements := required_elements basicResults;
               passed_rules := passed_rules basicResults |}
      | NotIterable => Threw (Error "aiResults.violations is not iterable")
      end
  end.

(** The AI violations that the merge keeps, in the order of the AI
    response: those matching no finding accumulated before them. *)
Fixpoint novel (acc ai : list Violation) : list Violation :=
  match ai with
  | [] => []
  | a :: rest =>
      if isDuplicate acc a then novel acc rest
      else a :: novel (acc ++ [tagAI a]) rest
  end.

(** ** Rules and content *)

(** A rule of the rule file.  The properties the source tests for
    presence are optional. *)
Record Rule := mkRule {
  r_id : string;
  r_name : string;
  r_category : string;
  r_severity : string;
  r_description : string;
  pattern : option string;
  flags : option string;
  required : bool;
  examples_compliant : option string;
  correction : option string;
  r_asqa_reference : string
}.

Record RuleSet := mkRuleSet {
  critical_violations : list Rule;
  required_terminology : list Rule;
  required_disclaimers : list Rule;
  web_specific_requirements : list Rule;
  severity_weights : gmap string Q;
  overall_score : Thresholds
}.

Record Link := mkLink {
  link_text : string;
  href : string
}.

Record Content := mkContent {
  text : option string;
  links : option (list Link);
  method : option string
}.

(** The regular expression engine of the host, as far as the source
    uses it. *)
Record RegexEngine := mkRegexEngine {
  regex : Type;
  (** [new RegExp(pattern, flags)]; [None] when it throws a syntax error *)
  compile : string -> string -> option regex;
  (** [regex.exec(text)] started with the given [lastIndex]: the matched
      text, [match.index] and the new [lastIndex], or [None] for [null] *)
  exec : regex -> string -> nat -> option (string * nat * nat);
  (** whether [text.match(/pattern/flags)] finds a match, for the
      regular expression literals of the source *)
  search : string -> string -> string -> bool
}.

(** The literal tested for rule [ws_001]: a phone number or an e-mail
    address. *)
Definition contact_pattern : string :=
  "(\d{2,3}[\s-]?\d{3,4}[\s-]?\d{3,4}|[a-zA-Z0-9._%+-]+@[a-zA-Z0-9.-]+\.[a-zA-Z]{2,})".

(** The literal tested for rule [ws_003]; its flag is [i]. *)
Definition fee_pattern : string :=
  "\$\d+|\bfee|\bcost|\bprice|\btuition".

(** An element of the array built by [findMatches]. *)
Record Match := mkMatch {
  m_text : string;
  m_index : nat;
  m_location : string
}.

(** ** Rule evaluation *)

Section RuleEngine.

Variable E : RegexEngine.

(** The [while] loop of [findMatches].  It ends when [exec] returns
    [null]; [fuel] bounds the number of calls of [exec], and [None]
    means that the bound was reached. *)
Fixpoint execLoop (fuel : nat) (re : regex E) (txt : string)
    (lastIndex : nat) (matches : list Match) : option (list Match) :=
  match fuel with
  | O => None
  | S fuel' =>
      match exec E re txt lastIndex with
      | None => Some matches
      | Some (m0, index, lastIndex') =>
          execLoop fuel' re txt lastIndex'
            (matches ++ [mkMatch m0 index (estimateLocation txt index)])
      end
  end.

Definition invalid_pattern_warning (rule : Rule) : string :=
  "Invalid regex pattern for rule " +:+ r_id rule +:+ ":".

(** [findMatches(text, rule)]: the matches and the warnings written
    to the console. *)
Definition findMatches (fuel : nat) (txt : string) (rule : Rule)
  : option (list Match * list string) :=
  if negb (Js.opt_truthy (pattern rule)) || negb (Js.truthy txt)
  then Some ([], [])
  else
    match compile E (Js.key_of (pattern rule))
                    (Js.opt_or_else (flags rule) "gi") with
    | None => Some ([], [invalid_pattern_warning rule])
    | Some re =>
        match execLoop fuel re txt 0 [] with
        | None => None
        | Some matches => Some (matches, [])
        end
    end.

Definition getRuleRecommendation (rule : Rule) : string :=
  if Js.opt_truthy (examples_compliant rule)
  then "Example of compliant text: "
         +:+ String (ascii_of_nat 34) EmptyString
         +:+ Js.key_of (examples_compliant rule)
         +:+ String (ascii_of_nat 34) EmptyString
  else "Remove or revise the violating content to meet ASQA requirements".

(** The arrays filled by [performBasicChecks], with the warnings. *)
Record Acc := mkAcc {
  acc_violations : list Violation;
  acc_required : list RequiredElement;
  acc_passed : list PassedRule;
  acc_warnings : list string
}.

Definition emptyAcc : Acc := mkAcc [] [] [] [].

Definition pushViolations (vs : list Violation) (a : Acc) : Acc :=
  mkAcc (acc_violations a ++ vs) (acc_required a) (acc_passed a)
        (acc_warnings a).

Definition pushRequired (r : RequiredElement) (a : Acc) : Acc :=
  mkAcc (acc_violations a) (acc_required a ++ [r]) (acc_passed a)
        (acc_warnings a).

Definition pushPassed (p : PassedRule) (a : Acc) : Acc :=
  mkAcc (acc_violations a) (acc_required a) (acc_passed a ++ [p])
        (acc_warnings a).

Definition warn (ws : list string) (a : Acc) : Acc :=
  mkAcc (acc_violations a) (acc_required a) (acc_passed a)
        (acc_warnings a ++ ws).

(** The violation built from one match of a rule. *)
Definition matchViolation (rule : Rule) (rec : option string) (m : Match)
  : Violation :=
  {| v_id := r_id rule; category := r_category rule;
     severity := r_severity rule; description := r_description rule;
     text_found := m_text m; location := m_location m;
     recommendation := rec;
     asqa_reference := r_asqa_reference rule; source := None |}.

(** The violation for a required disclaimer or web element that is
    missing; [what] is the head of its description. *)
Definition missingViolation (what : string) (rule : Rule) : Violation :=
  {| v_id := r_id rule; category := r_category rule;
     severity := r_severity rule;
     description := what +:+ r_description rule;
     text_found := ""; location := "entire_page";
     recommendation := Some ("Add: " +:+ r_description rule);
     asqa_reference := r_asqa_reference rule; source := None |}.

Definition passedCritical (rule : Rule) : PassedRule :=
  {| pr_id := r_id rule; pr_category := r_category rule;
     pr_type := "critical_violation";
     pr_description := r_description rule; pr_status := "passed";
     pr_message :=
       "No forbidden " +:+ Js.replace_underscore (r_name rule) +:+ " found";
     pr_location := None;
     pr_asqa_reference := r_asqa_reference rule |}.

Definition passedTerminology (rule : Rule) : PassedRule :=
  {| pr_id := r_id rule; pr_category := r_category rule;
     pr_type := "required_terminology";
     pr_description := r_description rule; pr_status := "passed";
     pr_message :=
       "Correct terminology used - no "
         +:+ Js.replace_underscore (r_name rule) +:+ " violations found";
     pr_location := None;
     pr_asqa_reference := r_asqa_reference rule |}.

Definition disclaimerElement (rule : Rule) : RequiredElement :=
  {| re_id := r_id rule; re_type := "disclaimer";
     re_description := r_description rule; found := true;
     re_location := None;
     re_asqa_reference := r_asqa_reference rule |}.

Definition webElement (rule : Rule) (loc : string) : RequiredElement :=
  {| re_id := r_id rule; re_type := "web_requirement";
     re_description := r_description rule; found := true;
     re_location := Some loc;
     re_asqa_reference := r_asqa_reference rule |}.

Definition passedWeb (rule : Rule) (loc : string) : PassedRule :=
  {| pr_id := r_id rule; pr_category := r_category rule;
     pr_type := "web_requirement";
     pr_description := r_description rule; pr_status := "passed";
     pr_message := "Required web element found: " +:+ r_description rule;
     pr_location := Some loc;
     pr_asqa_reference := r_asqa_reference rule |}.

(** A [for ... of] loop whose body may fail to end. *)
Fixpoint forEach {S A : Type} (body : S -> A -> option S) (l : list A)
    (s : S) : option S :=
  match l with
  | [] => Some s
  | x :: rest =>
      match body s x with
      | None => None
      | Some s' => forEach body rest s'
      end
  end.

(** The body of the loop over [critical_violations]. *)
Definition checkCritical (fuel : nat) (txt : string) (a : Acc) (rule : Rule)
  : option Acc :=
  match findMatches fuel txt rule with
  | None => None
  | Some (matches, ws) =>
      let a := warn ws a in
      Some
        (if (0 <? length matches)%nat
         then pushViolations
                (map (matchViolation rule (Some (getRuleRecommendation rule)))
                     matches) a
         else pushPassed (passedCritical rule) a)
  end.

(** The body of the loop over [required_terminology]. *)
Definition checkTerminology (fuel : nat) (txt : string) (a : Acc)
    (rule : Rule) : option Acc :=
  match findMatches fuel txt rule with
  | None => None
  | Some (matches, ws) =>
      let a := warn ws a in
      Some
        (if (0 <? length matches)%nat
         then pushViolations
                (map (matchViolation rule (correction rule)) matches) a
         else pushPassed (passedTerminology rule) a)
  end.

(** The body of the loop over [required_disclaimers]. *)
Definition checkDisclaimer (fuel : nat) (txt : string) (a : Acc)
    (rule : Rule) : option Acc :=
  match findMatches fuel txt rule with
  | None => None
  | Some (matches, ws) =>
      let a := warn ws a in
      Some
        (if (length matches =? 0)%nat && required rule
         then pushViolations
                [missingViolation "Missing required disclaimer: " rule] a
         else if (0 <? length matches)%nat
         then pushRequired (disclaimerElement rule) a
         else a)
  end.

(** [content.links && content.links.some(p)]. *)
Definition someLink (p : Link -> bool) (content : Content) : bool :=
  match links content with
  | Some ls => existsb p ls
  | None => false
  end.

Definition mentions (word : string) (s : string) : bool :=
  Js.includes (Js.toLowerCase s) word.

(** The [switch] on [rule.id]: the values of [found] and [location]
    after it. *)
Definition webCheck (txt : string) (content : Content) (rule : Rule)
  : bool * string :=
  if String.eqb (r_id rule) "ws_001" then
    if someLink (fun l => mentions "contact" (link_text l)
                          || mentions "contact" (href l)) content
    then (true, "navigation")
    else if search E contact_pattern "" txt then (true, "content")
    else (false, "")
  else if String.eqb (r_id rule) "ws_002" then
    if someLink (fun l => mentions "privacy" (link_text l)
                          && mentions "policy" (link_text l)) content
    then (true, "navigation")
    else (false, "")
  else if String.eqb (r_id rule) "ws_003" then
    if search E fee_pattern "i" txt then (true, "content") else (false, "")
  else if String.eqb (r_id rule) "ws_004" then
    if someLink (fun l => mentions "refund" (link_text l)
                          && mentions "policy" (link_text l)) content
    then (true, "navigation")
    else (false, "")
  else (false, "").

(** The body of the loop over [web_specific_requirements]. *)
Definition checkWeb (txt : string) (content : Content) (a : Acc)
    (rule : Rule) : option Acc :=
  let '(fnd, loc) := webCheck txt content rule in
  Some
    (if negb fnd && required rule
     then pushViolations
            [missingViolation "Missing required web element: " rule] a
     else if fnd
     then pushPassed (passedWeb rule loc) (pushRequired (webElement rule loc) a)
     else a).

(** [performBasicChecks(content, pageType)]: the four loops in the
    order of the source.  The result carries the three arrays (its
    constant [method] property is left out) and the warnings; [None]
    means that a match loop did not end within [fuel] steps. *)
Definition performBasicChecks (fuel : nat) (rules : RuleSet)
    (content : Content) (pageType : string)
  : option (Results * list string) :=
  let txt := Js.opt_or_else (text content) "" in
  a1 ← forEach (checkCritical fuel txt) (critical_violations rules) emptyAcc;
  a2 ← forEach (checkTerminology fuel txt) (required_terminology rules) a1;
  a3 ← forEach (checkDisclaimer fuel txt) (required_disclaimers rules) a2;
  a4 ← forEach (checkWeb txt content) (web_specific_requirements rules) a3;
  Some (mkResults (acc_violations a4) (acc_required a4) (acc_passed a4),
        acc_warnings a4).

End RuleEngine.

(** The arrays of [b] after those of [a]. *)
Definition appendAcc (a b : Acc) : Acc :=
  mkAcc (acc_violations a ++ acc_violations b)
        (acc_required a ++ acc_required b)
        (acc_passed a ++ acc_passed b)
        (acc_warnings a ++ acc_warnings b).

(** An engine under which the match loop ends: every match moves
    [lastIndex] forward and leaves it within the text, as matches of
    at least one code unit do under the flag [g]. *)
Definition progressive (E : RegexEngine) : Prop :=
  forall re txt lastIndex m0 index lastIndex',
    exec E re txt lastIndex = Some (m0, index, lastIndex') ->
    (lastIndex < lastIndex')%nat /\ (lastIndex' <= String.length txt)%nat.

(** A loop body only appends to the arrays: run from any arrays, it
    adds what it adds when run from empty ones. *)
Definition framed {A : Type} (body : Acc -> A -> option Acc) : Prop :=
  forall a x, body a x = appendAcc a <$> body emptyAcc x.

(** Every element in the array of required elements has [found] set. *)
Definition allFound (a : Acc) : Prop :=
  Forall (fun el => found el = true) (acc_required a).

(** What [performBasicChecks] returns for the arrays it has filled. *)
Definition finish (a : Acc) : Results * list string :=
  (mkResults (acc_violations a) (acc_required a) (acc_passed a),
   acc_warnings a).

(** A rule set with one of its lists replaced. *)
Definition withCritical (rs : RuleSet) (l : list Rule) : RuleSet :=
  mkRuleSet l (required_terminology rs) (required_disclaimers rs)
    (web_specific_requirements rs) (severity_weights rs) (overall_score rs).

Definition withTerminology (rs : RuleSet) (l : list Rule) : RuleSet :=
  mkRuleSet (critical_violations rs) l (required_disclaimers rs)
    (web_specific_requirements rs) (severity_weights rs) (overall_score rs).

Definition withDisclaimers (rs : RuleSet) (l : list Rule) : RuleSet :=
  mkRuleSet (critical_violations rs) (required_terminology rs) l
    (web_specific_requirements rs) (severity_weights rs) (overall_score rs).

(** The warnings of [findMatches] for a rule whose pattern does not
    compile: none when the pattern or the text is empty, because the
    pattern is then not compiled at all. *)
Definition badWarnings (txt : string) (bad : Rule) : list string :=
  if negb (Js.opt_truthy (pattern bad)) || negb (Js.truthy txt)
  then [] else [invalid_pattern_warning bad].

(** [l'] is [l] with [extra] put in at some place. *)
Definition insertedInto {A : Type} (extra l l' : list A) : Prop :=
  exists l1 l2, l = (l1 ++ l2)%list /\ l' = (l1 ++ extra ++ l2)%list.

(** The second evaluation differs from the first by the given
    violations, passed rules and warnings, put in at some place. *)
Definition extendedBy (extraV : list Violation) (extraP : list PassedRule)
    (extraW : list string) (r r' : Results * list string) : Prop :=
  insertedInto extraV (violations (fst r)) (violations (fst r'))
  /\ required_elements (fst r') = required_elements (fst r)
  /\ insertedInto extraP (passed_rules (fst r)) (passed_rules (fst r'))
  /\ insertedInto extraW (snd r) (snd r').

(** [generateRecommendations(results, pageType)]. *)
Definition generateRecommendations (results : Results) (pageType : string)
  : list string :=
  let fromViolations :=
    flat_map (fun v => if Js.opt_truthy (recommendation v)
                       then [Js.key_of (recommendation v)] else [])
             (violations results) in
  let forPage :=
    if String.eqb pageType "homepage" then
      ["Ensure RTO number is prominently displayed on homepage";
       "Include clear contact information and privacy policy link"]
    else if String.eqb pageType "course" then
      ["Use " +:+ Js.quoted "unit of competency" +:+ " instead of "
         +:+ Js.quoted "course" +:+ " when referring to unit codes";
       "Include RPL availability information"]
    else [] in
  let urgent :=
    if existsb (fun v => String.eqb (severity v) "critical")
               (violations results)
    then ["Immediate action required: Address all critical violations before ASQA audit"]
    else [] in
  Js.uniq (fromViolations ++ forPage ++ urgent).

(** ** Provider failover router *)

(** The [usage] object of a provider response; providers fill different
    properties of it. *)
Record Usage := mkUsage {
  total_tokens : option N;
  prompt_tokens : option N;
  completion_tokens : option N;
  input_tokens : option N;
  output_tokens : option N
}.

(** What [generateText] resolves to. *)
Record GenResult := mkGenResult {
  res_text : option string;
  res_content : option string;
  res_usage : option Usage;
  res_model : option string
}.

Record Options := mkOptions {
  temperature : option Q;
  maxTokens : option N
}.

(** The capability contract of a provider client.  A request is
    modelled by its outcome for a prompt and options. *)
Record Client := mkClient {
  isConfigured : bool;
  generateText : string -> Options -> Outcome GenResult;
  calculateCost : Usage -> Q
}.

Record RoleConfig := mkRoleConfig {
  primary : option string;
  primary_model : option string;
  fallback : option string;
  fallback_model : option string
}.

Record ModelConfig := mkModelConfig {
  provider : option string;
  model_ref : option string
}.

Record RouterConfig := mkRouterConfig {
  roles : gmap string RoleConfig;
  models : gmap string ModelConfig
}.

(** The parts of a router that [callWithFailover] only reads. *)
Record Router := mkRouter {
  clients : gmap string Client;
  config : RouterConfig
}.

Record Stats := mkStats {
  calls : N;
  tokens : N;
  cost : Q
}.

(** What a call leaves behind, apart from its result. *)
Inductive Event :=
| EvGenerate (clientName : string)
    (** [generateText] was invoked on the client of that name *)
| EvWarn (msg : string).
    (** a warning was logged *)

(** The mutable part of a router, with the trace of the process: the
    requests made to providers and the warnings written to the console,
    by the router and by the checker that shares it. *)
Record RouterState := mkRouterState {
  usageStats : gmap string Stats;
  totalCost : Q;
  trace : list Event
}.

Definition log (ev : Event) (st : RouterState) : RouterState :=
  mkRouterState (usageStats st) (totalCost st) (trace st ++ [ev]).

(** Truthiness of a token count: [undefined], [NaN] (here [None]) and
    zero are falsy. *)
Definition count_truthy (x : option N) : bool :=
  match x with
  | Some n => negb (N.eqb n 0)
  | None => false
  end.

(** [a + b] on token counts; a sum with [undefined] is [NaN]. *)
Definition count_plus (a b : option N) : option N :=
  match a, b with
  | Some x, Some y => Some (x + y)%N
  | _, _ => None
  end.

(** [usage.total_tokens || (usage.prompt_tokens + usage.completion_tokens)
     || (usage.input_tokens + usage.output_tokens) || 0]. *)
Definition usage_tokens (u : Usage) : N :=
  if count_truthy (total_tokens u) then default 0%N (total_tokens u)
  else if count_truthy (count_plus (prompt_tokens u) (completion_tokens u))
  then default 0%N (count_plus (prompt_tokens u) (completion_tokens u))
  else if count_truthy (count_plus (input_tokens u) (output_tokens u))
  then default 0%N (count_plus (input_tokens u) (output_tokens u))
  else 0%N.

Definition trackUsage (R : Router) (clientName : string)
    (usage : option Usage) (st : RouterState) : RouterState :=
  let s0 := default (mkStats 0 0 0) (usageStats st !! clientName) in
  let s1 := mkStats (calls s0 + 1) (tokens s0) (cost s0) in
  match usage with
  | None =>
      mkRouterState (<[clientName := s1]> (usageStats st)) (totalCost st)
                    (trace st)
  | Some u =>
      let s2 := mkStats (calls s1) (tokens s1 + usage_tokens u) (cost s1) in
      match clients R !! clientName with
      | None =>
          mkRouterState (<[clientName := s2]> (usageStats st)) (totalCost st)
                        (trace st)
      | Some client =>
          let c := calculateCost client u in
          mkRouterState
            (<[clientName := mkStats (calls s2) (tokens s2) (cost s2 + c)]>
               (usageStats st))
            (totalCost st + c) (trace st)
      end
  end.

(** [{...result, text: result.text || result.content || ''}]. *)
Definition normalize (result : GenResult) : GenResult :=
  mkGenResult
    (Some (Js.opt_or_else (res_text result)
             (Js.opt_or_else (res_content result) "")))
    (res_content result) (res_usage result) (res_model result).

(** The client name a model key stands for: its provider when the key
    is listed in [config.models], the key itself otherwise. *)
Definition clientNameOf (R : Router) (modelKey : option string)
  : option string :=
  match models (config R) !! Js.key_of modelKey with
  | Some mc => provider mc
  | None => modelKey
  end.

Definition primaryClientName (R : Router) (rc : RoleConfig) : option string :=
  clientNameOf R (Js.opt_or (primary rc) (primary_model rc)).

Definition fallbackClientName (R : Router) (rc : RoleConfig) : option string :=
  let fallbackModel := Js.opt_or (fallback rc) (fallback_model rc) in
  if Js.opt_truthy fallbackModel then clientNameOf R fallbackModel
  else fallbackModel.

(** [getClient(name)]. *)
Definition getClient (R : Router) (name : option string) : option Client :=
  clients R !! Js.key_of name.

(** Whether [client && client.isConfigured()] holds for that name. *)
Definition configured (R : Router) (name : option string) : bool :=
  match getClient R name with
  | Some client => isConfigured client
  | None => false
  end.

Definition NoProviderAvailable (role : string) : exn :=
  Error ("No configured AI models available for role: " +:+ role).

Definition UnknownRole (role : string) : exn :=
  Error ("Unknown role: " +:+ role).

(** The second half of [callWithFailover]: the fallback attempt, which
    no [try] encloses, and the final [throw]. *)
Definition tryFallback (R : Router) (role : string) (name : option string)
    (prompt : string) (options : Options) (st : RouterState)
  : Outcome GenResult * RouterState :=
  if Js.opt_truthy name then
    match getClient R name with
    | Some client =>
        if isConfigured client then
          let st := log (EvGenerate (Js.key_of name)) st in
          match generateText client prompt options with
          | Returned result =>
              (Returned (normalize result),
               trackUsage R (Js.key_of name) (res_usage result) st)
          | Threw e => (Threw e, st)
          end
        else (Threw (NoProviderAvailable role), st)
    | None => (Threw (NoProviderAvailable role), st)
    end
  else (Threw (NoProviderAvailable role), st).

(** [callWithFailover(role, prompt, options)].  [config.roles[role]]
    is read as the lookup of a key of the object: the properties below
    are stated for the roles that the configuration holds. *)
Definition callWithFailover (R : Router) (role prompt : string)
    (options : Options) (st : RouterState)
  : Outcome GenResult * RouterState :=
  match roles (config R) !! role with
  | None => (Threw (UnknownRole role), st)
  | Some roleConfig =>
      let pname := primaryClientName R roleConfig in
      let fname := fallbackClientName R roleConfig in
      match getClient R pname with
      | Some client =>
          if isConfigured client then
            let st := log (EvGenerate (Js.key_of pname)) st in
            match generateText client prompt options with
            | Returned result =>
                (Returned (normalize result),
                 trackUsage R (Js.key_of pname) (res_usage result) st)
            | Threw e =>
                tryFallback R role fname prompt options
                  (log (EvWarn (Js.key_of pname +:+ " failed")) st)
            end
          else tryFallback R role fname prompt options st
      | None => tryFallback R role fname prompt options st
      end
  end.

(** Whether the role names a fallback whose client is configured. *)
Definition fallbackConfigured (R : Router) (name : option string) : bool :=
  Js.opt_truthy name && configured R name.

(** The events that a call appended to the trace. *)
Definition new_events (before after : RouterState) : list Event :=
  drop (length (trace before)) (trace after).

(** ** The compliance check *)

(** The properties of a parsed AI response that the checker reads. *)
Record ParsedAnalysis := mkParsedAnalysis {
  p_violations : AiViolations;
  p_compliance_score : option Q;
  p_recommendations : list string;
  p_summary : option string
}.

(** What the checker takes from its surroundings. *)
Record Env := mkEnv {
  (** the rule file read and parsed; [None] when either step fails *)
  rulesFile : option RuleSet;
  (** [JSON.parse]; [None] when it throws a syntax error *)
  JSON_parse : string -> option ParsedAnalysis;
  (** the prompt text of [buildAIPrompt] *)
  buildAIPrompt : Content -> string -> string;
  (** the value of [generateScanId()] *)
  scanId : string;
  (** the value of [new Date().toISOString()] *)
  now : string;
  (** the milliseconds measured by [performAIAnalysis] *)
  elapsed : nat
}.

(** The checker object once it is in use: its rules, and the state of
    the router it shares with the process.  [rules] is [None] until a
    load has succeeded. *)
Record CheckerState := mkCheckerState {
  rules : option RuleSet;
  routerState : RouterState
}.

Record CheckOptions := mkCheckOptions {
  url : option string;
  pageType : option string;
  includeRecommendations : option bool;
  useAI : option bool
}.

Record AiMetadata := mkAiMetadata {
  model_used : string;
  md_confidence : Q;
  md_processing_time : nat
}.

Record ContentAnalysis := mkContentAnalysis {
  word_count : nat;
  ca_page_type : string;
  extraction_method : string
}.

Record ComplianceResult := mkComplianceResult {
  scan_id : string;
  cr_url : string;
  page_type : string;
  timestamp : string;
  compliance_score : Z;
  status : Status;
  cr_violations : list Violation;
  cr_required_elements : list RequiredElement;
  cr_passed_rules : list PassedRule;
  recommendations : list string;
  content_analysis : ContentAnalysis;
  ai_analysis : option AiMetadata
}.

Definition RulesUnavailable : exn := Error "Compliance rules not available".

(** [loadRules()]: the rules now held by the checker, or the error. *)
Definition loadRules (env : Env) : Outcome RuleSet :=
  match rulesFile env with
  | Some r => Returned r
  | None => Threw RulesUnavailable
  end.

(** The judgment built when the response is not JSON. *)
Definition unparsedAnalysis (responseText : string) : ParsedAnalysis :=
  {| p_violations := ViolationList [];
     p_compliance_score := Some 75%Q;
     p_recommendations := [Js.prefix 500 responseText];
     p_summary :=
       Some "AI analysis completed but response format needs refinement" |}.

Definition performAIAnalysis (env : Env) (R : Router) (content : Content)
    (pageType : string) (st : RouterState)
  : Outcome AiResults * RouterState :=
  let prompt := buildAIPrompt env content pageType in
  match callWithFailover R "COMPLIANCE" prompt
          (mkOptions (Some 0.1%Q) (Some 8192%N)) st with
  | (Threw e, st') =>
      (Threw (Error ("AI analysis failed: " +:+ message_of e)), st')
  | (Returned result, st') =>
      let responseText := default "" (res_text result) in
      let aiAnalysis :=
        match JSON_parse env responseText with
        | Some a => a
        | None => unparsedAnalysis responseText
        end in
      (Returned
         {| ai_violations := p_violations aiAnalysis;
            ai_compliance_score := p_compliance_score aiAnalysis;
            ai_recommendations := p_recommendations aiAnalysis;
            ai_summary := p_summary aiAnalysis;
            model := Js.opt_or_else (res_model result) "unknown";
            confidence := 0.85%Q;
            processing_time := elapsed env |},
       st')
  end.

(** [isAIConfigured()]. *)
Definition isAIConfigured (R : Router) : bool :=
  configured R (Some "claude") || configured R (Some "openai").

(** The object returned at the end of [checkCompliance].  The score is
    held as the number it is when every severity reads a number
    ([computedScore]); [scan_id] and [timestamp] are the values that
    [generateScanId()] and the clock give to this call, and no property
    below compares them between two calls. *)
Definition assemble (env : Env) (ruleSet : RuleSet) (content : Content)
    (theUrl thePageType : string) (withRecommendations : bool)
    (combined : Results) (aiResults : option AiResults) : ComplianceResult :=
  let finalScore := calculateComplianceScore (severity_weights ruleSet) combined in
  {| scan_id := scanId env;
     cr_url := theUrl;
     page_type := thePageType;
     timestamp := now env;
     compliance_score := finalScore;
     status := determineStatus (overall_score ruleSet) (inject_Z finalScore);
     cr_violations := violations combined;
     cr_required_elements := required_elements combined;
     cr_passed_rules := passed_rules combined;
     recommendations :=
       if withRecommendations
       then generateRecommendations combined thePageType else [];
     content_analysis :=
       {| word_count :=
            if Js.opt_truthy (text content)
            then length (Js.split_whitespace (Js.key_of (text content)))
            else 0%nat;
          ca_page_type := thePageType;
          extraction_method := Js.opt_or_else (method content) "unknown" |};
     ai_analysis :=
       match aiResults with
       | Some ai =>
           Some {| model_used := model ai;
                   md_confidence := Js.num_or_else (Some (confidence ai)) 0.8%Q;
                   md_processing_time := processing_time ai |}
       | None => None
       end |}.

(** The AI step of [checkCompliance], with its own [try]: the judgment
    when there is one, [None] for [null]. *)
Definition aiStep (env : Env) (R : Router) (content : Content)
    (thePageType : string) (wantAI : bool) (st : RouterState)
  : option AiResults * RouterState :=
  if wantAI && isAIConfigured R then
    match performAIAnalysis env R content thePageType st with
    | (Returned ai, st') => (Some ai, st')
    | (Threw aiError, st') =>
        (None,
         log (EvWarn "AI analysis failed, using rule-based results only:") st')
    end
  else (None, st).

Definition logWarnings (ws : list string) (st : RouterState) : RouterState :=
  fold_left (fun s w => log (EvWarn w) s) ws st.

(** [checkCompliance(content, options)].  [None] means that the rule
    evaluation did not end within [fuel] steps. *)
Definition checkCompliance (env : Env) (E : RegexEngine) (R : Router)
    (fuel : nat) (content : Content) (options : CheckOptions)
    (st : CheckerState) : option (Outcome ComplianceResult * CheckerState) :=
  match (match rules st with
         | Some r => Returned r
         | None => loadRules env
         end) with
  | Threw e => Some (Threw e, st)
  | Returned ruleSet =>
      let theUrl := default "" (url options) in
      let thePageType := default "general" (pageType options) in
      let withRecommendations := default true (includeRecommendations options) in
      let wantAI := default true (useAI options) in
      '(basicResults, ws) ← performBasicChecks E fuel ruleSet content thePageType;
      let rst := logWarnings ws (routerState st) in
      let '(aiResults, rst) := aiStep env R content thePageType wantAI rst in
      let st' := mkCheckerState (Some ruleSet) rst in
      match combineResults basicResults aiResults with
      | Threw error =>
          Some (Threw (Error ("Compliance check failed: "
                              +:+ message_of error)), st')
      | Returned combinedResults =>
          Some (Returned (assemble env ruleSet content theUrl thePageType
                            withRecommendations combinedResults aiResults),
                st')
      end
  end.

(** ** The statements of the specification that the source does not meet *)

(** P3 as the specification words it: one critical violation of weight
    [W] and no required element give the score max(0, 100 - W). *)
Definition single_critical_spec (weights : gmap string Q) (v : Violation)
    (W : Q) : Prop :=
  severity v = "critical" ->
  weights !! "critical" = Some W ->
  (inject_Z (calculateComplianceScore weights (mkResults [v] [] []))
   == Qmax 0 (100 - W))%Q.

(** P1 as the specification words it: the score is a number between 0
    and 100, whatever the violations and the required elements. *)
Definition score_bounds_spec (weights : gmap string Q) (results : Results)
  : Prop :=
  exists s, computedScore weights results = Some s /\ (0 <= s <= 100)%Z.

(** The location rule as the specification words it: the class is
    decided by the number of tokens in front of the match. *)
Definition location_spec (txt : string) (index : nat) : Prop :=
  let n := tokensBefore txt index in
  ((n < 50)%nat -> estimateLocation txt index = "beginning")
  /\ ((50 <= n)%nat -> (n < 200)%nat -> estimateLocation txt index = "middle")
  /\ ((200 <= n)%nat -> estimateLocation txt index = "end").

(** The AI path fails: the router call throws, or the response cannot
    be parsed. *)
Definition aiPathFails (env : Env) (R : Router) (content : Content)
    (thePageType : string) (st : RouterState) : Prop :=
  let call := callWithFailover R "COMPLIANCE"
                (buildAIPrompt env content thePageType)
                (mkOptions (Some 0.1%Q) (Some 8192%N)) st in
  match fst call with
  | Threw _ => True
  | Returned result => JSON_parse env (default "" (res_text result)) = None
  end.

(** The degradation rule as the specification words it: when the AI
    path fails, the check returns a result without AI metadata. *)
Definition degradation_spec (env : Env) (E : RegexEngine) (R : Router)
    (fuel : nat) (content : Content) (options : CheckOptions)
    (st : CheckerState) : Prop :=
  aiPathFails env R content (default "general" (pageType options))
    (routerState st) ->
  exists r st',
    checkCompliance env E R fuel content options st = Some (Returned r, st')
    /\ ai_analysis r = None.

(** The skipping rule as the specification words it: a critical rule
    whose pattern is malformed adds nothing to the output of the
    evaluation. *)
Definition skipped_spec (E : RegexEngine) (fuel : nat) (ruleSet : RuleSet)
    (bad : Rule) (content : Content) (thePageType : string) : Prop :=
  compile E (Js.key_of (pattern bad)) (Js.opt_or_else (flags bad) "gi") = None ->
  fst <$> performBasicChecks E fuel
            (withCritical ruleSet (bad :: critical_violations ruleSet))
            content thePageType
  = fst <$> performBasicChecks E fuel ruleSet content thePageType.

(** ** Sample data *)

Module Sample.

(** A small engine for the examples: a pattern made of letters and
    spaces is searched as it stands, without regard to case, from
    [lastIndex] on, and the unterminated group is refused.  On these
    inputs it answers as the JavaScript engine does with the flags
    [gi]; the examples use no other pattern, and none of them reaches a
    regular expression literal. *)
Definition engine : RegexEngine :=
  {| regex := string;
     compile := fun p _ =>
       if String.eqb p "(" then None else Some (Js.toLowerCase p);
     exec := fun re txt lastIndex =>
       match String.index lastIndex re (Js.toLowerCase txt) with
       | Some i =>
           Some (substring i (String.length re) txt, i,
                 (i + String.length re)%nat)
       | None => None
       end;
     search := fun _ _ _ => false |}.

Definition rule (id name cat sev : string) (pat : option string)
    (req : bool) : Rule :=
  {| r_id := id; r_name := name; r_category := cat; r_severity := sev;
     r_description := name; pattern := pat; flags := None; required := req;
     examples_compliant := None; correction := None;
     r_asqa_reference := "Standard 4.1" |}.

Definition job_rule : Rule :=
  rule "cv_001" "employment_guarantee" "forbidden_claims" "critical"
       (Some "guaranteed job") false.

(** A rule whose pattern is not a regular expression. *)
Definition bad_rule : Rule :=
  rule "cv_009" "salary_promise" "forbidden_claims" "critical"
       (Some "(") true.

Definition course_rule : Rule :=
  rule "rt_001" "unit_naming" "terminology" "moderate"
       (Some "study module") false.

Definition training_rule : Rule :=
  rule "rd_001" "recognised_training" "disclaimer" "moderate"
       (Some "nationally recognised training") true.

Definition contact_rule : Rule :=
  rule "ws_001" "contact_information" "web" "warning" None true.

Definition privacy_rule : Rule :=
  rule "ws_002" "privacy_policy" "web" "warning" None true.

Definition refund_rule : Rule :=
  rule "ws_004" "refund_policy" "web" "warning" None true.

Definition weights : gmap string Q :=
  {[ "critical" := 25%Q; "moderate" := 10%Q; "warning" := 5%Q ]}.

Definition thresholds : Thresholds :=
  {| excellent := 95%Q; good := 85%Q; acceptable := 70%Q;
     needs_improvement := 50%Q |}.

Definition ruleSet : RuleSet :=
  {| critical_violations := [job_rule];
     required_terminology := [course_rule];
     required_disclaimers := [training_rule];
     web_specific_requirements := [contact_rule; privacy_rule; refund_rule];
     severity_weights := weights;
     overall_score := thresholds |}.

Definition page : Content :=
  {| text := Some "Get a guaranteed job after our nationally recognised training";
     links := Some [mkLink "Contact us" "/contact";
                    mkLink "Privacy Policy" "/privacy"];
     method := Some "puppeteer" |}.

Definition job_violation : Violation :=
  {| v_id := "cv_001"; category := "forbidden_claims"; severity := "critical";
     description := "employment_guarantee"; text_found := "guaranteed job";
     location := "beginning"; recommendation := None;
     asqa_reference := "Standard 4.1"; source := None |}.

(** The same finding as the AI reports it, and one it words otherwise. *)
Definition ai_same : Violation :=
  {| v_id := "ai_1"; category := "forbidden_claims"; severity := "critical";
     description := "promises employment"; text_found := "guaranteed job";
     location := "first sentence"; recommendation := Some "Remove the claim";
     asqa_reference := ""; source := None |}.

Definition ai_other : Violation :=
  {| v_id := "ai_2"; category := "forbidden_claims"; severity := "critical";
     description := "promises employment"; text_found := "Guaranteed Job";
     location := "first sentence"; recommendation := Some "Remove the claim";
     asqa_reference := ""; source := None |}.

Definition answer (txt : string) : GenResult :=
  {| res_text := Some txt; res_content := None;
     res_usage := Some (mkUsage (Some 30%N) None None (Some 10%N) (Some 20%N));
     res_model := Some "model-a" |}.

(** A configured provider that answers, one without a key, and a
    configured one whose request fails. *)
Definition answering (txt : string) : Client :=
  {| isConfigured := true;
     generateText := fun _ _ => Returned (answer txt);
     calculateCost := fun _ => (1 # 100)%Q |}.

Definition keyless : Client :=
  {| isConfigured := false;
     generateText := fun _ _ => Threw (Error "API key not configured");
     calculateCost := fun _ => 0%Q |}.

Definition failing (msg : string) : Client :=
  {| isConfigured := true;
     generateText := fun _ _ => Threw (Error msg);
     calculateCost := fun _ => 0%Q |}.

(** The roles of [getDefaultConfig] that the examples use. *)
Definition routerConfig : RouterConfig :=
  {| roles :=
       {[ "COMPLIANCE" := mkRoleConfig (Some "claude") None (Some "openai") None ]};
     models := ∅ |}.

Definition router (claude openai : Client) : Router :=
  {| clients := {[ "claude" := claude; "openai" := openai ]};
     config := routerConfig |}.

Definition idle : RouterState := mkRouterState ∅ 0%Q [].

Definition noOptions : Options := mkOptions None None.

(** Surroundings in which no response parses as JSON: the sample
    providers answer in prose. *)
Definition env : Env :=
  {| rulesFile := Some ruleSet;
     JSON_parse := fun _ => None;
     buildAIPrompt := fun c pt => "Page Type: " +:+ pt;
     scanId := "scan_1";
     now := "2025-01-01T00:00:00.000Z";
     elapsed := 12%nat |}.

(** Surroundings in which the rule file cannot be read. *)
Definition env_without_rules : Env :=
  {| rulesFile := None;
     JSON_parse := fun _ => None;
     buildAIPrompt := fun c pt => "Page Type: " +:+ pt;
     scanId := "scan_1";
     now := "2025-01-01T00:00:00.000Z";
     elapsed := 12%nat |}.

Definition fresh : CheckerState := mkCheckerState None idle.

Definition defaults : CheckOptions := mkCheckOptions None None None None.

(** An AI judgment reporting both findings. *)
Definition judgment : AiResults :=
  {| ai_violations := ViolationList [ai_same; ai_other];
     ai_compliance_score := Some 60%Q;
     ai_recommendations := [];
     ai_summary := None;
     model := "model-a";
     confidence := 0.85%Q;
     processing_time := 12%nat |}.

(** A required disclaimer whose pattern is not a regular expression. *)
Definition bad_disclaimer : Rule :=
  rule "rd_009" "rpl_availability" "disclaimer" "moderate" (Some "(") true.

End Sample.


(** ** The rest of the router *)

(** [trackCost(clientName, cost)]. *)
Definition trackCost (clientName : string) (c : Q) (st : RouterState)
  : RouterState :=
  let s0 := default (mkStats 0 0 0) (usageStats st !! clientName) in
  mkRouterState
    (<[clientName := mkStats (calls s0) (tokens s0) (cost s0 + c)]>
       (usageStats st))
    (totalCost st + c) (trace st).

(** [resetStats()]. *)
Definition resetStats (st : RouterState) : RouterState :=
  mkRouterState ∅ 0%Q (trace st).

(** [getStats()]: [total_cost] and [by_model]. *)
Definition getStats (st : RouterState) : Q * gmap string Stats :=
  (totalCost st, usageStats st).

(** [calculateImageCost(size, quality)] of the OpenAI client:
    [costs[size]?.[quality] || 0.080]. *)
Definition calculateImageCost (size quality : string) : Q :=
  let byQuality (standard hd : Q) : option Q :=
    if String.eqb quality "standard" then Some standard
    else if String.eqb quality "hd" then Some hd
    else None in
  Js.num_or_else
    (if String.eqb size "1024x1024" then byQuality 0.040%Q 0.080%Q
     else if String.eqb size "1792x1024" then byQuality 0.080%Q 0.120%Q
     else if String.eqb size "1024x1792" then byQuality 0.080%Q 0.120%Q
     else None)
    0.080%Q.

(** [generateImage(prompt, options)].  [requestImage] is the outcome of
    the request that the OpenAI client makes for the prompt; [size] is
    [options.size]. *)
Definition generateImage (R : Router) (requestImage : string -> Outcome string)
    (prompt : string) (size : option string) (st : RouterState)
  : Outcome string * RouterState :=
  match clients R !! "openai" with
  | None =>
      (Threw (Error "Cannot read properties of undefined (reading 'isConfigured')"),
       st)
  | Some client =>
      if negb (isConfigured client)
      then (Threw (Error "OpenAI not configured for image generation"), st)
      else
        match requestImage prompt with
        | Threw e => (Threw e, st)
        | Returned result =>
            let c := calculateImageCost (Js.opt_or_else size "1792x1024")
                       "standard" in
            (Returned result, trackCost "openai" c st)
        end
  end.

(** The table [modelToClient] of [calculateCost(role, usage)]. *)
Definition modelToClient (modelKey : string) : option string :=
  if String.eqb modelKey "perplexity_research" then Some "perplexity"
  else if String.eqb modelKey "gpt4_turbo" then Some "openai"
  else if String.eqb modelKey "claude_sonnet" then Some "claude"
  else if String.eqb modelKey "deepseek_reasoning" then Some "deepseek"
  else None.

(** The client that [calculateCost(role, usage)] charges for a role:
    [modelToClient[primaryModel] || primaryModel]. *)
Definition costClientName (rc : RoleConfig) : option string :=
  let primaryModel := Js.opt_or (primary rc) (primary_model rc) in
  Js.opt_or (modelToClient (Js.key_of primaryModel)) primaryModel.

(** [calculateCost(role, usage)] of the router. *)
Definition calculateRoleCost (R : Router) (role : string) (usage : Usage)
  : Outcome Q :=
  match roles (config R) !! role with
  | None => Threw (UnknownRole role)
  | Some roleConfig =>
      let clientName := costClientName roleConfig in
      match getClient R clientName with
      | Some client =>
          if isConfigured client then Returned (calculateCost client usage)
          else Threw (Error ("Client " +:+ Js.key_of clientName
                             +:+ " not configured for cost calculation"))
      | None =>
          Threw (Error ("Client " +:+ Js.key_of clientName
                        +:+ " not configured for cost calculation"))
      end
  end.

(** *** Construction *)

(** An entry of [config.models] as the configuration file holds it. *)
Record ModelEntry := mkModelEntry {
  me_provider : option string;
  me_model_ref : option string;
  me_model_id : option string
}.

(** The parsed configuration file.  The entries of [models] are kept in
    the order of [Object.entries]; their keys are distinct, as those of
    an object are. *)
Record ConfigFile := mkConfigFile {
  cf_roles : gmap string RoleConfig;
  cf_models : option (list (string * ModelEntry))
}.

(** The parsed model registry: [models[provider][ref]] and
    [validation.model_status.deprecated]. *)
Record Registry := mkRegistry {
  reg_models : option (gmap string (gmap string string));
  reg_deprecated : list string
}.

(** The warnings of [resolveModelReferences]. *)
Inductive ResolveWarning :=
| Unresolved (modelKey modelRef : string)
| Deprecated (modelId : string).

(** [getDefaultConfig()]: roles only, no [models]. *)
Definition getDefaultConfig : ConfigFile :=
  {| cf_roles :=
       {[ "RESEARCH" := mkRoleConfig (Some "perplexity") None (Some "openai") None;
          "REASONING" := mkRoleConfig (Some "deepseek") None (Some "claude") None;
          "DRAFTING" := mkRoleConfig (Some "openai") None (Some "claude") None;
          "COMPLIANCE" := mkRoleConfig (Some "claude") None (Some "openai") None;
          "EDITING" := mkRoleConfig (Some "claude") None (Some "openai") None;
          "SEO_META" := mkRoleConfig (Some "openai") None (Some "claude") None;
          "IMAGERY" := mkRoleConfig (Some "openai") None None None ]};
     cf_models := None |}.

(** [s.split(':')]: the pieces between the colons, scanned with the
    piece being read. *)
Fixpoint split_colon_scan (s : string) (piece : string) : list string :=
  match s with
  | EmptyString => [piece]
  | String c rest =>
      if Ascii.eqb c ":"%char then piece :: split_colon_scan rest EmptyString
      else split_colon_scan rest (piece +:+ String c EmptyString)
  end.

(** [const [provider, ref] = s.split(':')]. *)
Definition providerAndRef (s : string) : string * option string :=
  match split_colon_scan s EmptyString with
  | [] => (EmptyString, None)
  | p :: [] => (p, None)
  | p :: r :: _ => (p, Some r)
  end.

(** The body of the loop of [resolveModelReferences] for an entry whose
    [model_ref] is set, the registry having [models]: the identifier
    found, if any. *)
Definition lookupRef (registryModels : gmap string (gmap string string))
    (modelRef : string) : option string :=
  let '(prov, ref) := providerAndRef modelRef in
  match registryModels !! prov with
  | Some refs =>
      match refs !! Js.key_of ref with
      | Some id => if Js.truthy id then Some id else None
      | None => None
      end
  | None => None
  end.

(** The loop of [resolveModelReferences] over the entries. *)
Fixpoint resolveEntries (registryModels : option (gmap string (gmap string string)))
    (entries : list (string * ModelEntry))
  : Outcome (list (string * ModelEntry) * list ResolveWarning) :=
  match entries with
  | [] => Returned ([], [])
  | (modelKey, entry) :: rest =>
      if Js.opt_truthy (me_model_ref entry) then
        match registryModels with
        | None =>
            Threw (Error ("Cannot read properties of undefined (reading '"
                          +:+ fst (providerAndRef (Js.key_of (me_model_ref entry)))
                          +:+ "')"))
        | Some rm =>
            let '(entry', ws) :=
              match lookupRef rm (Js.key_of (me_model_ref entry)) with
              | Some id =>
                  (mkModelEntry (me_provider entry) (me_model_ref entry)
                                (Some id), [])
              | None =>
                  (entry,
                   [Unresolved modelKey (Js.key_of (me_model_ref entry))])
              end in
            match resolveEntries registryModels rest with
            | Threw e => Threw e
            | Returned (rest', ws') =>
                Returned ((modelKey, entry') :: rest', (ws ++ ws')%list)
            end
        end
      else
        match resolveEntries registryModels rest with
        | Threw e => Threw e
        | Returned (rest', ws') => Returned ((modelKey, entry) :: rest', ws')
        end
  end.

(** [resolveModelReferences()]. *)
Definition resolveModelReferences (cf : ConfigFile) (reg : Registry)
  : Outcome (list (string * ModelEntry) * list ResolveWarning) :=
  match cf_models cf with
  | None => Threw (Error "Cannot convert undefined or null to object")
  | Some entries =>
      match resolveEntries (reg_models reg) entries with
      | Threw e => Threw e
      | Returned (entries', ws) =>
          Returned (entries', (ws ++ map Deprecated (reg_deprecated reg))%list)
      end
  end.

(** A constructed router: what [callWithFailover] reads, the resolved
    entries of [config.models], and the initial statistics. *)
Record Constructed := mkConstructed {
  built : Router;
  resolved : list (string * ModelEntry);
  initial : RouterState;
  warnings : list ResolveWarning
}.

(** What [callWithFailover] reads of the resolved entries. *)
Definition routingModels (entries : list (string * ModelEntry))
  : gmap string ModelConfig :=
  list_to_map
    (map (fun kv => (fst kv, mkModelConfig (me_provider (snd kv))
                                            (me_model_ref (snd kv))))
         entries).

(** The constructor of [ModelRouter].  [configFile] and [registryFile]
    are what [loadJSON] returns for the two files, [None] for [null]:
    a missing file or one that does not parse. *)
Definition newRouter (theClients : gmap string Client)
    (configFile : option ConfigFile) (registryFile : option Registry)
  : Outcome Constructed :=
  let cf := default getDefaultConfig configFile in
  let reg := default (mkRegistry None []) registryFile in
  match resolveModelReferences cf reg with
  | Threw e => Threw e
  | Returned (entries, ws) =>
      Returned
        {| built := mkRouter theClients
                      (mkRouterConfig (cf_roles cf) (routingModels entries));
           resolved := entries;
           initial := mkRouterState ∅ 0%Q [];
           warnings := ws |}
  end.

(** ** Batches of pages *)

(** What [extractContent] returns, as far as the checker and
    [detectPageType] read it: the content, [title] and
    [meta.description]. *)
Record ScrapedPage := mkScrapedPage {
  sp_content : Content;
  sp_title : option string;
  sp_description : option string
}.

(** The keywords of [detectPageType], in the order of the source. *)
Definition pageTypes : list (string * list string) :=
  [("homepage",
    ["welcome"; "home"; "about us"; "college"; "training"; "courses";
     "contact"; "location"; "why choose us"; "our mission"]);
   ("course",
    ["course"; "qualification"; "certificate"; "diploma"; "unit";
     "competency"; "training package"; "assessment"; "enrol";
     "duration"; "prerequisites"; "outcomes"]);
   ("contact",
    ["contact"; "phone"; "email"; "address"; "location"; "map";
     "opening hours"; "get in touch"; "reach us"]);
   ("about",
    ["about us"; "our story"; "history"; "team"; "staff";
     "mission"; "vision"; "values"; "accreditation"]);
   ("enrollment",
    ["enrol"; "enrollment"; "apply"; "application"; "registration";
     "admission"; "how to enrol"; "enrolment process"]);
   ("fees",
    ["fees"; "cost"; "price"; "payment"; "tuition"; "funding";
     "refund"; "payment plan"; "student fees"])].

(** The inner loop of [detectPageType]: one point for each keyword
    that the text includes. *)
Definition keywordScore (combinedText : string) (keywords : list string)
  : nat :=
  fold_left
    (fun score keyword =>
       if Js.includes combinedText keyword then (score + 1)%nat else score)
    keywords 0%nat.

(** The second loop of [detectPageType]: [maxScore] and [detectedType]
    after the entries seen. *)
Definition pickHighest (scores : list (string * nat)) (start : nat * string)
  : nat * string :=
  fold_left
    (fun best entry =>
       if (fst best <? snd entry)%nat then (snd entry, fst entry) else best)
    scores start.

(** [detectPageType(content)] of the scraper, on the lower-cased
    texts. *)
Definition detectFrom (combinedText : string) : string :=
  let scores :=
    map (fun entry => (fst entry, keywordScore combinedText (snd entry)))
        pageTypes in
  let best := pickHighest scores (0%nat, "general") in
  if (0 <? fst best)%nat then snd best else "general".

(** [detectPageType(content)]: a missing [text], [title] or
    [meta.description] makes [toLowerCase] throw. *)
Definition detectPageType (page : ScrapedPage) : Outcome string :=
  match text (sp_content page), sp_title page, sp_description page with
  | Some txt, Some title, Some meta =>
      Returned
        (detectFrom (Js.toLowerCase title +:+ " " +:+ Js.toLowerCase meta
                     +:+ " " +:+ Js.toLowerCase txt))
  | _, _, _ =>
      Threw (Error "Cannot read properties of undefined (reading 'toLowerCase')")
  end.

(** An element of the array returned by [checkMultiplePages]: a result,
    or the record [{url, error, compliance_score: 0, status: 'ERROR'}]. *)
Inductive PageResult :=
| Checked (r : ComplianceResult)
| Failed (pageUrl error : string).

(** [{...options, url, pageType}]. *)
Definition forPage (options : CheckOptions) (pageUrl thePageType : string)
  : CheckOptions :=
  mkCheckOptions (Some pageUrl) (Some thePageType)
    (includeRecommendations options) (useAI options).

(** The body of the loop of [checkMultiplePages], with its [try]:
    the element pushed and the state left. *)
Definition checkPage (env : Env) (E : RegexEngine) (R : Router)
    (extractContent : string -> Outcome ScrapedPage) (fuel : nat)
    (options : CheckOptions) (pageUrl : string) (st : CheckerState)
  : option (PageResult * CheckerState) :=
  match extractContent pageUrl with
  | Threw error => Some (Failed pageUrl (message_of error), st)
  | Returned page =>
      match detectPageType page with
      | Threw error => Some (Failed pageUrl (message_of error), st)
      | Returned thePageType =>
          match checkCompliance env E R fuel (sp_content page)
                  (forPage options pageUrl thePageType) st with
          | None => None
          | Some (Threw error, st') =>
              Some (Failed pageUrl (message_of error), st')
          | Some (Returned r, st') => Some (Checked r, st')
          end
      end
  end.

(** [checkMultiplePages(urls, options)]: the results in the order in
    which they are pushed. *)
Fixpoint checkMultiplePages (env : Env) (E : RegexEngine) (R : Router)
    (extractContent : string -> Outcome ScrapedPage) (fuel : nat)
    (urls : list string) (options : CheckOptions) (st : CheckerState)
  : option (list PageResult * CheckerState) :=
  match urls with
  | [] => Some ([], st)
  | pageUrl :: rest =>
      match checkPage env E R extractContent fuel options pageUrl st with
      | None => None
      | Some (result, st') =>
          match checkMultiplePages env E R extractContent fuel rest options
                  st' with
          | None => None
          | Some (results, st'') => Some (result :: results, st'')
          end
      end
  end.

(** [r.compliance_score || 0]. *)
Definition pageScore (r : PageResult) : Z :=
  match r with
  | Checked c => compliance_score c
  | Failed _ _ => 0%Z
  end.

(** [r.violations || []]. *)
Definition pageViolations (r : PageResult) : list Violation :=
  match r with
  | Checked c => cr_violations c
  | Failed _ _ => []
  end.

(** The address a result is about. *)
Definition pageUrlOf (r : PageResult) : string :=
  match r with
  | Checked c => cr_url c
  | Failed u _ => u
  end.

(** [category.replace(/_/g, ' ')]. *)
Fixpoint replaceUnderscores (s : string) : string :=
  match s with
  | EmptyString => EmptyString
  | String c rest =>
      String (if Ascii.eqb c "_"%char then " "%char else c)
             (replaceUnderscores rest)
  end.

(** The number of violations of a category. *)
Definition inCategory (violations : list Violation) (cat : string) : nat :=
  length (filter (fun v => category v = cat) violations).

(** The first loop of [generateSiteWideRecommendations]: one line for
    each category with more than one violation. *)
Definition categoryLines (violations : list Violation)
    (categories : list string) : list string :=
  flat_map
    (fun cat =>
       if (1 <? inCategory violations cat)%nat
       then [replaceUnderscores cat +:+ ": "
             +:+ pretty (inCategory violations cat)
             +:+ " violations found across the site"]
       else [])
    categories.

Definition urgentLine : string :=
  "URGENT: Address all critical violations immediately to avoid ASQA penalties".

(** [generateSiteWideRecommendations(violations)]. *)
Definition generateSiteWideRecommendations (violations : list Violation)
  : list string :=
  (categoryLines violations (Js.uniq (map category violations))
   ++ (if existsb (fun v => String.eqb (severity v) "critical") violations
       then [urgentLine] else []))%list.

(** A value of the breakdown object: a count, or, under a name that
    every object inherits, the text of what the object inherits there
    followed by as many digits 1 as violations were added to it. *)
Inductive Tally :=
| Count (n : nat)
| Garbled (ones : nat).

(** The reducer of [generateSummaryReport]:
    [acc[v.severity] = (acc[v.severity] || 0) + 1] on an object that
    starts as [{}].  A count is truthy and grows by one.  Under an
    inherited name the object first reads a function, which is truthy:
    [+ 1] makes a text of it, the text is stored, and every further
    [+ 1] appends to it.  Under [__proto__] it reads the prototype, and
    the assignment of a text to [__proto__] is ignored. *)
Definition countSeverity (acc : gmap string Tally) (v : Violation)
  : gmap string Tally :=
  match acc !! severity v with
  | Some (Count n) => <[severity v := Count (n + 1)]> acc
  | Some (Garbled ones) => <[severity v := Garbled (ones + 1)]> acc
  | None =>
      if String.eqb (severity v) "__proto__" then acc
      else if Js.inheritedName (severity v)
           then <[severity v := Garbled 1]> acc
           else <[severity v := Count 1]> acc
  end.

Record Summary := mkSummary {
  total_pages : nat;
  (** [None] stands for [NaN], the average of no page *)
  average_compliance_score : option Z;
  overall_status : Status;
  total_violations : nat;
  violation_breakdown : gmap string Tally;
  scan_completed : string
}.

Record SummaryReport := mkSummaryReport {
  summary : Summary;
  pages : list PageResult;
  site_recommendations : list string
}.

(** [Math.round(totalScore / results.length)]. *)
Definition averageScore (results : list PageResult) : option Z :=
  match results with
  | [] => None
  | _ :: _ =>
      Some (Js.Math_round
              (inject_Z (fold_left (fun sum r => (sum + pageScore r)%Z)
                                   results 0%Z)
               / inject_Z (Z.of_nat (length results))))
  end.

(** [determineStatus] on a number that may be [NaN], for which every
    comparison is false. *)
Definition statusOfAverage (th : Thresholds) (average : option Z) : Status :=
  match average with
  | Some a => determineStatus th (inject_Z a)
  | None => FAIL
  end.

(** [generateSummaryReport(results)]; it reads the thresholds of the
    rules that the checker holds. *)
Definition generateSummaryReport (env : Env) (st : CheckerState)
    (results : list PageResult) : Outcome SummaryReport :=
  let average := averageScore results in
  let allViolations := flat_map pageViolations results in
  let violationCounts := fold_left countSeverity allViolations ∅ in
  match rules st with
  | None =>
      Threw (Error "Cannot read properties of null (reading 'compliance_thresholds')")
  | Some ruleSet =>
      Returned
        {| summary :=
             {| total_pages := length results;
                average_compliance_score := average;
                overall_status :=
                  statusOfAverage (overall_score ruleSet) average;
                total_violations := length allViolations;
                violation_breakdown := violationCounts;
                scan_completed := now env |};
           pages := results;
           site_recommendations :=
             generateSiteWideRecommendations allViolations |}
  end.

(** ** Predicates used by the further properties *)

(** The rules of a rule set, in the order of evaluation. *)
Definition allRules (rs : RuleSet) : list Rule :=
  (critical_violations rs ++ required_terminology rs
   ++ required_disclaimers rs ++ web_specific_requirements rs)%list.

(** A violation that carries the identity of a rule. *)
Definition fromRule (rule : Rule) (v : Violation) : Prop :=
  v_id v = r_id rule /\ category v = r_category rule
  /\ severity v = r_severity rule
  /\ asqa_reference v = r_asqa_reference rule
  /\ source v = None.

(** The rule is named by a violation or by a passed-rule record. *)
Definition settled (rule : Rule) (a : Acc) : Prop :=
  (exists v, v ∈ acc_violations a /\ fromRule rule v)
  \/ (exists p, p ∈ acc_passed a /\ pr_id p = r_id rule).

(** A required rule is named by a violation for what is missing or by
    a required element. *)
Definition answered (rule : Rule) (a : Acc) : Prop :=
  required rule = true ->
  (exists v, v ∈ acc_violations a /\ fromRule rule v
             /\ location v = "entire_page")
  \/ (exists el, el ∈ acc_required a /\ re_id el = r_id rule).


(** The requests to providers among some events. *)
Definition isRequest (ev : Event) : bool :=
  match ev with
  | EvGenerate _ => true
  | EvWarn _ => false
  end.

Definition requestCount (evs : list Event) : nat :=
  length (filter (fun ev => isRequest ev = true) evs).

(** The total cost is not negative, and no client's recorded cost
    exceeds it. *)
Definition covered (st : RouterState) : Prop :=
  (0 <= totalCost st)%Q
  /\ forall name s, usageStats st !! name = Some s ->
       (cost s <= totalCost st)%Q.

(** Nothing has been charged yet, or the named client alone has been,
    and the total cost is the cost recorded for it. *)
Definition chargedOnly (name : string) (st : RouterState) : Prop :=
  (usageStats st = ∅ /\ totalCost st = 0%Q)
  \/ (exists s, usageStats st = {[ name := s ]} /\ totalCost st = cost s).

(** The calls recorded for a client. *)
Definition callsOf (st : RouterState) (name : string) : N :=
  calls (default (mkStats 0 0 0) (usageStats st !! name)).

(** No client computes a negative cost. *)
Definition costsNonnegative (R : Router) : Prop :=
  forall name client u,
    clients R !! name = Some client -> (0 <= calculateCost client u)%Q.

(** Every record in the arrays carries the identity of a rule of the
    rule set. *)
Definition traceable (rs : RuleSet) (a : Acc) : Prop :=
  (forall v, v ∈ acc_violations a ->
     exists rule, rule ∈ allRules rs /\ fromRule rule v)
  /\ (forall p, p ∈ acc_passed a ->
        exists rule, rule ∈ allRules rs /\ pr_id p = r_id rule
                     /\ pr_asqa_reference p = r_asqa_reference rule)
  /\ (forall el, el ∈ acc_required a ->
        exists rule, rule ∈ allRules rs /\ re_id el = r_id rule
                     /\ re_asqa_reference el = r_asqa_reference rule).

(** What resolution leaves in an entry: the same key, provider and
    reference, and the identifier that the registry holds for the
    reference, or else the identifier the entry had. *)
Definition resolvedFrom (reg : Registry) (before after : string * ModelEntry)
  : Prop :=
  fst after = fst before
  /\ me_provider (snd after) = me_provider (snd before)
  /\ me_model_ref (snd after) = me_model_ref (snd before)
  /\ me_model_id (snd after)
     = match (if Js.opt_truthy (me_model_ref (snd before))
              then rm ← reg_models reg;
                   lookupRef rm (Js.key_of (me_model_ref (snd before)))
              else None) with
       | Some id => Some id
       | None => me_model_id (snd before)
       end.

(** An entry of the configuration that refers to the registry. *)
Definition hasReference (entry : string * ModelEntry) : Prop :=
  Js.opt_truthy (me_model_ref (snd entry)) = true.

(** ** More sample data *)

Module Demo.

(** A required web rule that the evaluation has no case for. *)
Definition social_rule : Rule :=
  Sample.rule "ws_009" "social_media_links" "web" "warning" None true.

Definition ruleSet : RuleSet :=
  {| critical_violations := [Sample.job_rule];
     required_terminology := [Sample.course_rule];
     required_disclaimers := [Sample.training_rule];
     web_specific_requirements := [Sample.contact_rule; social_rule];
     severity_weights := Sample.weights;
     overall_score := Sample.thresholds |}.

(** A configuration file with two models, one of which refers to the
    registry. *)
Definition entries : list (string * ModelEntry) :=
  [("claude_sonnet",
    mkModelEntry (Some "claude") (Some "anthropic:sonnet") None);
   ("gpt4_turbo",
    mkModelEntry (Some "openai") None (Some "gpt-4-turbo"))].

Definition configFile : ConfigFile :=
  {| cf_roles :=
       {[ "COMPLIANCE" := mkRoleConfig (Some "claude_sonnet") None
                            (Some "gpt4_turbo") None ]};
     cf_models := Some entries |}.

Definition registry : Registry :=
  {| reg_models :=
       Some {[ "anthropic" := {[ "sonnet" := "claude-3-5-sonnet-20241022" ]} ]};
     reg_deprecated := ["gpt-4-32k"] |}.

Definition theClients : gmap string Client :=
  {[ "claude" := Sample.keyless; "openai" := Sample.answering "ok" ]}.

(** What the constructor returns for them. *)
Definition constructed : Constructed :=
  {| built := mkRouter theClients
                (mkRouterConfig (cf_roles configFile)
                   (routingModels
                      [("claude_sonnet",
                        mkModelEntry (Some "claude") (Some "anthropic:sonnet")
                          (Some "claude-3-5-sonnet-20241022"));
                       ("gpt4_turbo",
                        mkModelEntry (Some "openai") None
                          (Some "gpt-4-turbo"))]));
     resolved :=
       [("claude_sonnet",
         mkModelEntry (Some "claude") (Some "anthropic:sonnet")
           (Some "claude-3-5-sonnet-20241022"));
        ("gpt4_turbo",
         mkModelEntry (Some "openai") None (Some "gpt-4-turbo"))];
     initial := mkRouterState ∅ 0%Q [];
     warnings := [Deprecated "gpt-4-32k"] |}.

(** A scraper that reaches one of two addresses. *)
Definition scraped : ScrapedPage :=
  {| sp_content := Sample.page;
     sp_title := Some "Enrol in our diploma course";
     sp_description := Some "" |}.

Definition extractContent (pageUrl : string) : Outcome ScrapedPage :=
  if String.eqb pageUrl "https://college.example/course"
  then Returned scraped
  else Threw (Error "Both extraction methods failed.").

Definition urls : list string :=
  ["https://college.example/course"; "https://college.example/missing"].

(** A checker without AI: no provider has a key. *)
Definition offline : Router := Sample.router Sample.keyless Sample.keyless.

End Demo.

(** The number that a value of the breakdown stands for. *)
Definition counted (t : Tally) : nat :=
  match t with
  | Count n => n
  | Garbled _ => 0%nat
  end.

(** The sum of the counts of a breakdown. *)
Definition countTotal (counts : gmap string Tally) : nat :=
  map_fold (fun _ t acc => (counted t + acc)%nat) 0%nat counts.

(** Every entry of a breakdown is a count above zero under a name that
    no object inherits, or a text under an inherited name other than
    [__proto__]. *)
Definition tallied (counts : gmap string Tally) : Prop :=
  forall sev t,
    counts !! sev = Some t ->
    match t with
    | Count n => (0 < n)%nat /\ Js.inheritedName sev = false
    | Garbled ones =>
        (0 < ones)%nat /\ Js.inheritedName sev = true /\ sev <> "__proto__"
    end.

(** The score of a page lies between two bounds. *)
Definition scoreWithin (lo hi : Z) (r : PageResult) : Prop :=
  (lo <= pageScore r <= hi)%Z.


(** ** Sample data for batches *)

Module Site.

(** The sample engine, restricted to matches that are not empty and end
    within the text. *)
Definition engine : RegexEngine :=
  {| regex := regex Sample.engine;
     compile := compile Sample.engine;
     exec := fun re txt lastIndex =>
       match exec Sample.engine re txt lastIndex with
       | Some (m0, index, lastIndex') =>
           if (lastIndex <? lastIndex')%nat
              && (lastIndex' <=? String.length txt)%nat
           then Some (m0, index, lastIndex') else None
       | None => None
       end;
     search := search Sample.engine |}.

(** A checked page with one critical violation. *)
Definition checked : ComplianceResult :=
  assemble Sample.env Sample.ruleSet Sample.page
    "https://college.example/course" "course" true
    (mkResults [Sample.job_violation] [] []) None.

Definition results : list PageResult :=
  [Checked checked;
   Failed "https://college.example/missing" "Both extraction methods failed."].

(** A checker that holds its rules. *)
Definition loaded : CheckerState :=
  mkCheckerState (Some Sample.ruleSet) Sample.idle.

End Site.

(** * Properties *)

(** ** Rounding and arithmetic on scores *)

Lemma Math_round_Z (z : Z) : Js.Math_round (inject_Z z) = z.
Proof.
  unfold Js.Math_round.
  pose proof (Qfloor_le (inject_Z z + (1 # 2))) as Hlo.
  pose proof (Qlt_floor (inject_Z z + (1 # 2))) as Hhi.
  set (f := Qfloor (inject_Z z + (1 # 2))) in *.
  unfold Qle, Qlt, Qplus, inject_Z in Hlo, Hhi. simpl in Hlo, Hhi. lia.
Qed.

Lemma Math_round_mono (x y : Q) : (x <= y)%Q -> (Js.Math_round x <= Js.Math_round y)%Z.
Proof.
  intros H. unfold Js.Math_round. apply Qfloor_resp_le.
  apply Qplus_le_l. exact H.
Qed.

Lemma Math_round_comp (x y : Q) : (x == y)%Q -> Js.Math_round x = Js.Math_round y.
Proof.
  intros H. unfold Js.Math_round. apply Qfloor_comp. rewrite H. reflexivity.
Qed.

Lemma Math_round_range (x : Q) :
  (0 <= x)%Q -> (x <= 100)%Q -> (0 <= Js.Math_round x <= 100)%Z.
Proof.
  intros H0 H100. split.
  - change 0%Z with (Js.Math_round (inject_Z 0)).
    apply Math_round_mono. exact H0.
  - rewrite <- (Math_round_Z 100). apply Math_round_mono. exact H100.
Qed.

Lemma Qmax_inject_Z (a b : Z) :
  (Qmax (inject_Z a) (inject_Z b) == inject_Z (Z.max a b))%Q.
Proof.
  destruct (Z.le_gt_cases a b) as [Hab | Hab].
  - rewrite Z.max_r by exact Hab. apply Q.max_r.
    rewrite <- Zle_Qle. exact Hab.
  - rewrite Z.max_l by lia. apply Q.max_l.
    rewrite <- Zle_Qle. lia.
Qed.

(** ** Score *)

Lemma weight_of_nonneg (weights : gmap string Q) (v : Violation) :
  nonnegative weights -> (0 <= weight_of weights v)%Q.
Proof.
  intros Hw. unfold weight_of, Js.num_or_else.
  destruct (weights !! severity v) as [q |] eqn:Hq; [| discriminate].
  destruct (Qeq_bool q 0); [discriminate |]. exact (Hw _ _ Hq).
Qed.

Lemma deductions_below (weights : gmap string Q) (vs : list Violation) :
  nonnegative weights ->
  forall score, (fold_left (deduct weights) vs score <= score)%Q.
Proof.
  intros Hw. induction vs as [| v vs IH]; intros score; simpl.
  - apply Qle_refl.
  - eapply Qle_trans; [apply IH |]. unfold deduct.
    pose proof (weight_of_nonneg weights v Hw) as Hv.
    rewrite <- (Qplus_0_r score) at 2.
    unfold Qminus. apply Qplus_le_r.
    rewrite <- (Qopp_involutive 0). apply Qopp_le_compat.
    exact Hv.
Qed.

(** The ceiling is applied with the bonus only: a negative weight and
    no required element give a score above 100. *)
Lemma negative_weight_exceeds_ceiling :
  calculateComplianceScore {[ "critical" := (-5)%Q ]}
    (mkResults [Sample.job_violation] [] [])
  = 105%Z.
Proof. vm_compute. reflexivity. Qed.

(** The score as a number, under weights that are not negative. *)
Lemma calculateComplianceScore_range (weights : gmap string Q)
    (results : Results) :
  nonnegative weights ->
  (0 <= calculateComplianceScore weights results <= 100)%Z.
Proof.
  intros Hw. unfold calculateComplianceScore.
  set (s := fold_left (deduct weights) (violations results) 100%Q).
  assert (Hs : (s <= 100)%Q) by (apply deductions_below; exact Hw).
  assert (H0 : (0 <= Qmax 0 s)%Q) by apply Q.le_max_l.
  assert (H1 : (Qmax 0 s <= 100)%Q) by (apply Q.max_lub; [discriminate | exact Hs]).
  destruct (allRequiredFound (required_elements results)).
  - apply Math_round_range.
    + apply Q.min_glb; [discriminate |].
      apply Qle_trans with (y := Qmax 0 s); [exact H0 |].
      rewrite <- (Qplus_0_r (Qmax 0 s)) at 1.
      apply Qplus_le_r. discriminate.
    + apply Q.le_min_l.
  - apply Math_round_range; assumption.
Qed.

Lemma computedScore_number (weights : gmap string Q) (results : Results) :
  (forall v, v ∈ violations results -> readsNumber weights v = true) ->
  computedScore weights results
  = Some (calculateComplianceScore weights results).
Proof.
  intros Hall. unfold computedScore.
  assert (H : forallb (readsNumber weights) (violations results) = true).
  { apply forallb_forall. intros v Hv. apply Hall.
    apply list_elem_of_In. exact Hv. }
  rewrite H. reflexivity.
Qed.

(** A severity named like a property that every object inherits, and
    absent from the weights, leaves no number: the score is NaN. *)
Lemma inherited_severity_is_not_a_number (weights : gmap string Q)
    (results : Results) (v : Violation) :
  v ∈ violations results ->
  weights !! severity v = None ->
  Js.inheritedName (severity v) = true ->
  computedScore weights results = None.
Proof.
  intros Hv Hkey Hname. unfold computedScore.
  destruct (forallb (readsNumber weights) (violations results)) eqn:Hall;
    [| reflexivity].
  rewrite forallb_forall in Hall.
  specialize (Hall v (proj1 (list_elem_of_In _ _) Hv)).
  unfold readsNumber in Hall. rewrite Hkey, Hname in Hall.
  discriminate Hall.
Qed.

(** C5, amended. Whatever the violations and the required elements, the
    score computed under weights that are not negative is a number
    between 0 and 100, provided every severity reads a number or
    nothing from the weights. *)
Theorem score_bounds (weights : gmap string Q) (results : Results) :
  nonnegative weights ->
  (forall v, v ∈ violations results -> readsNumber weights v = true) ->
  exists s,
    computedScore weights results = Some s /\ (0 <= s <= 100)%Z.
Proof.
  intros Hw Hall. exists (calculateComplianceScore weights results).
  split; [apply computedScore_number; exact Hall |].
  apply calculateComplianceScore_range. exact Hw.
Qed.

Lemma sample_weights_nonnegative : nonnegative Sample.weights.
Proof.
  intros sev w H. unfold Sample.weights in H.
  apply lookup_insert_Some in H as [[_ <-] | [_ H]]; [discriminate |].
  apply lookup_insert_Some in H as [[_ <-] | [_ H]]; [discriminate |].
  apply lookup_singleton_Some in H as [_ <-]. discriminate.
Qed.

Lemma score_bounds_witness :
  exists s,
    computedScore Sample.weights
      (mkResults [Sample.job_violation; Sample.ai_other] [] []) = Some s
    /\ (0 <= s <= 100)%Z.
Proof.
  apply score_bounds.
  - exact sample_weights_nonnegative.
  - intros v Hv. simpl in Hv.
    apply elem_of_cons in Hv as [-> | Hv]; [reflexivity |].
    apply list_elem_of_singleton in Hv. subst v. reflexivity.
Defined.

(** C5 as the specification words it fails for a weight below zero:
    the ceiling of 100 is applied with the bonus only, and the source
    returns 105. *)
Lemma score_bounds_counterexample :
  ~ score_bounds_spec {[ "critical" := (-5)%Q ]}
      (mkResults [Sample.job_violation] [] []).
Proof.
  unfold score_bounds_spec. intros (s & Hs & Hle).
  vm_compute in Hs. injection Hs as <-. lia.
Qed.

(** The score of one violation and no required element. *)
Lemma one_violation_score (weights : gmap string Q) (v : Violation)
    (passed : list PassedRule) :
  calculateComplianceScore weights (mkResults [v] [] passed)
  = Js.Math_round (Qmax 0 (100 - weight_of weights v)).
Proof. reflexivity. Qed.

(** A weight of zero is falsy, so the default of 10 is deducted. *)
Lemma zero_weight_defaults_to_ten :
  calculateComplianceScore {[ "critical" := 0%Q ]}
    (mkResults [Sample.job_violation] [] [])
  = 90%Z.
Proof. vm_compute. reflexivity. Qed.

(** C4, amended. One critical violation whose weight [W] is a whole or
    a half number other than zero, and no required element: the score
    is max(0, 100 - W) rounded to the nearest integer, halves going up,
    which is max(0, 100 - W) itself when [W] is an integer. *)
Theorem single_critical_score (weights : gmap string Q) (v : Violation)
    (W : Q) (passed : list PassedRule) :
  severity v = "critical" ->
  weights !! "critical" = Some W ->
  ~ (W == 0)%Q ->
  halves W ->
  computedScore weights (mkResults [v] [] passed)
  = Some (Js.Math_round (Qmax 0 (100 - W)))
  /\ forall w : Z, (W == inject_Z w)%Q ->
       computedScore weights (mkResults [v] [] passed)
       = Some (Z.max 0 (100 - w)).
Proof.
  intros Hsev HW Hnz _.
  rewrite computedScore_number
    by (intros u Hu; apply list_elem_of_singleton in Hu; subst u;
        unfold readsNumber; rewrite Hsev, HW; reflexivity).
  assert (Hscore : calculateComplianceScore weights (mkResults [v] [] passed)
                   = Js.Math_round (Qmax 0 (100 - W))).
  { rewrite one_violation_score. unfold weight_of. rewrite Hsev, HW. simpl.
    destruct (Qeq_bool W 0) eqn:Hz; [| reflexivity].
    apply Qeq_bool_eq in Hz. contradiction. }
  split; [now rewrite Hscore |].
  intros w Hw. f_equal. rewrite Hscore.
  rewrite <- (Math_round_Z (Z.max 0 (100 - w))).
  apply Math_round_comp.
  rewrite <- Qmax_inject_Z. rewrite Hw.
  apply Q.max_compat; [reflexivity |].
  unfold Qeq, Qminus, Qplus, Qopp, inject_Z. simpl. lia.
Qed.

Lemma single_critical_score_witness :
  computedScore {[ "critical" := 50%Q ]}
    (mkResults [Sample.job_violation] [] [])
  = Some 50%Z.
Proof.
  refine (proj2 (single_critical_score {[ "critical" := 50%Q ]}
                   Sample.job_violation 50%Q [] _ _ _ _) 50%Z _).
  - reflexivity.
  - apply lookup_singleton_eq.
  - discriminate.
  - exists 100%Z. split; [reflexivity | vm_compute; discriminate].
  - reflexivity.
Defined.

(** C4 as the specification words it fails for a weight of 12.5: the
    source rounds 87.5 to 88. *)
Lemma single_critical_counterexample :
  ~ single_critical_spec {[ "critical" := 12.5%Q ]} Sample.job_violation 12.5%Q.
Proof.
  unfold single_critical_spec. intros H.
  specialize (H eq_refl (lookup_singleton_eq _ _)).
  rewrite one_violation_score in H.
  unfold weight_of in H. simpl severity in H.
  rewrite lookup_singleton_eq in H.
  vm_compute in H. discriminate H.
Qed.

(** ** Status *)

Lemma geq_true (s t : Q) : (t <= s)%Q -> geq s t = true.
Proof. intros H. unfold geq. apply Qle_bool_iff. exact H. Qed.

Lemma geq_false (s t : Q) : (s < t)%Q -> geq s t = false.
Proof.
  intros H. unfold geq. destruct (Qle_bool t s) eqn:E; [| reflexivity].
  apply Qle_bool_iff in E. exfalso. exact (Qlt_not_le _ _ H E).
Qed.

(** C7. The status is read off the four cut points from the highest
    down, each bound included; when the cut points descend, a score
    equal to one of them gets the tier that the cut point opens. *)
Theorem status_classification (th : Thresholds) (s : Q) :
  ((excellent th <= s)%Q -> determineStatus th s = PASS)
  /\ ((s < excellent th)%Q -> (good th <= s)%Q ->
      determineStatus th s = PASS_WITH_NOTES)
  /\ ((s < excellent th)%Q -> (s < good th)%Q -> (acceptable th <= s)%Q ->
      determineStatus th s = NEEDS_REVIEW)
  /\ ((s < excellent th)%Q -> (s < good th)%Q -> (s < acceptable th)%Q ->
      (needs_improvement th <= s)%Q ->
      determineStatus th s = ACTION_REQUIRED)
  /\ ((s < excellent th)%Q -> (s < good th)%Q -> (s < acceptable th)%Q ->
      (s < needs_improvement th)%Q ->
      determineStatus th s = FAIL)
  /\ (descending th ->
      ((s == excellent th)%Q -> determineStatus th s = PASS)
      /\ ((s == good th)%Q -> determineStatus th s = PASS_WITH_NOTES)
      /\ ((s == acceptable th)%Q -> determineStatus th s = NEEDS_REVIEW)
      /\ ((s == needs_improvement th)%Q ->
          determineStatus th s = ACTION_REQUIRED)).
Proof.
  unfold determineStatus.
  repeat split.
  - intros H. now rewrite (geq_true _ _ H).
  - intros H1 H2. now rewrite (geq_false _ _ H1), (geq_true _ _ H2).
  - intros H1 H2 H3.
    now rewrite (geq_false _ _ H1), (geq_false _ _ H2), (geq_true _ _ H3).
  - intros H1 H2 H3 H4.
    now rewrite (geq_false _ _ H1), (geq_false _ _ H2), (geq_false _ _ H3),
      (geq_true _ _ H4).
  - intros H1 H2 H3 H4.
    now rewrite (geq_false _ _ H1), (geq_false _ _ H2), (geq_false _ _ H3),
      (geq_false _ _ H4).
  - intros E. rewrite geq_true; [reflexivity |]. rewrite E. apply Qle_refl.
  - destruct H as (Hg & Ha & Hn). intros E.
    rewrite geq_false by (rewrite E; exact Hg).
    rewrite geq_true; [reflexivity |]. rewrite E. apply Qle_refl.
  - destruct H as (Hg & Ha & Hn). intros E.
    assert (Hae : (acceptable th < excellent th)%Q)
      by (eapply Qlt_trans; eassumption).
    rewrite geq_false by (rewrite E; exact Hae).
    rewrite geq_false by (rewrite E; exact Ha).
    rewrite geq_true; [reflexivity |]. rewrite E. apply Qle_refl.
  - destruct H as (Hg & Ha & Hn). intros E.
    assert (Hng : (needs_improvement th < good th)%Q)
      by (eapply Qlt_trans; eassumption).
    assert (Hne : (needs_improvement th < excellent th)%Q)
      by (eapply Qlt_trans; eassumption).
    rewrite geq_false by (rewrite E; exact Hne).
    rewrite geq_false by (rewrite E; exact Hng).
    rewrite geq_false by (rewrite E; exact Hn).
    rewrite geq_true; [reflexivity |]. rewrite E. apply Qle_refl.
Qed.

Lemma status_classification_witness :
  determineStatus Sample.thresholds 95 = PASS
  /\ determineStatus Sample.thresholds 85 = PASS_WITH_NOTES
  /\ determineStatus Sample.thresholds 70 = NEEDS_REVIEW
  /\ determineStatus Sample.thresholds 50 = ACTION_REQUIRED
  /\ determineStatus Sample.thresholds 49 = FAIL.
Proof.
  assert (D : descending Sample.thresholds) by (repeat split).
  destruct (status_classification Sample.thresholds 95)
    as (_ & _ & _ & _ & _ & B95).
  destruct (status_classification Sample.thresholds 85)
    as (_ & _ & _ & _ & _ & B85).
  destruct (status_classification Sample.thresholds 70)
    as (_ & _ & _ & _ & _ & B70).
  destruct (status_classification Sample.thresholds 50)
    as (_ & _ & _ & _ & _ & B50).
  destruct (status_classification Sample.thresholds 49)
    as (_ & _ & _ & _ & F49 & _).
  split; [apply (proj1 (B95 D)); reflexivity |].
  split; [apply (proj1 (proj2 (B85 D))); reflexivity |].
  split; [apply (proj1 (proj2 (proj2 (B70 D)))); reflexivity |].
  split; [apply (proj2 (proj2 (proj2 (B50 D)))); reflexivity |].
  apply F49; reflexivity.
Defined.

(** ** Location *)

(** The estimate depends on the text through [wordCount] alone, with
    the bounds 50 and 200. *)
Lemma estimateLocation_classes (txt : string) (index : nat) :
  ((wordCount txt index < 50)%nat -> estimateLocation txt index = "beginning")
  /\ ((50 <= wordCount txt index)%nat -> (wordCount txt index < 200)%nat ->
      estimateLocation txt index = "middle")
  /\ ((200 <= wordCount txt index)%nat -> estimateLocation txt index = "end").
Proof.
  unfold estimateLocation. cbv zeta.
  destruct (Nat.ltb_spec (wordCount txt index) 50);
    destruct (Nat.ltb_spec (wordCount txt index) 200);
    repeat split; intros; try reflexivity; lia.
Qed.

Lemma repeat_words_step (n : nat) :
  Js.repeat_string "w " (S n)
  = String "w" (String " " (Js.repeat_string "w " n)).
Proof. reflexivity. Qed.

Lemma prefix_words (n : nat) (rest : string) :
  Js.prefix (n * 2) (Js.repeat_string "w " n +:+ rest)
  = Js.repeat_string "w " n.
Proof.
  unfold Js.prefix. induction n as [| n IH].
  - destruct rest; reflexivity.
  - rewrite repeat_words_step.
    change (S n * 2)%nat with (S (S (n * 2))).
    change (String "w" (String " " (Js.repeat_string "w " n)) +:+ rest)
      with (String "w" (String " " (Js.repeat_string "w " n +:+ rest))).
    change (substring 0 (S (S (n * 2)))
              (String "w" (String " " (Js.repeat_string "w " n +:+ rest))))
      with (String "w" (String " "
              (substring 0 (n * 2) (Js.repeat_string "w " n +:+ rest)))).
    now rewrite IH.
Qed.

Lemma split_words (n : nat) (inSep : bool) :
  Js.split_scan (Js.repeat_string "w " n) "" inSep
  = (repeat "w" n ++ [""])%list.
Proof.
  revert inSep. induction n as [| n IH]; intros inSep.
  - reflexivity.
  - rewrite repeat_words_step.
    change (Js.split_scan
              (String "w" (String " " (Js.repeat_string "w " n))) "" inSep)
      with ("w" :: Js.split_scan (Js.repeat_string "w " n) "" true).
    now rewrite IH.
Qed.

(** In front of a match that follows [n] words the split has [n + 1]
    pieces, the last of them empty: [wordCount] is one more than the
    number of tokens. *)
Lemma wordCount_words (n : nat) :
  tokensBefore (words_then_claim n) (n * 2) = n
  /\ wordCount (words_then_claim n) (n * 2) = S n.
Proof.
  unfold tokensBefore, wordCount, wordsOf, words_then_claim,
    Js.split_whitespace.
  rewrite prefix_words, split_words. split.
  - assert (Hw : filter (fun p => Js.truthy p = true) (repeat "w" n)
                 = repeat "w" n).
    { induction n as [| n IH]; [reflexivity |]. cbn [repeat].
      rewrite filter_cons_True by reflexivity. now rewrite IH. }
    rewrite filter_app, Hw, length_app, repeat_length.
    rewrite filter_cons_False by discriminate. simpl. lia.
  - rewrite length_app, repeat_length. simpl. lia.
Qed.

(** C6. A match that follows 49 words has 49 tokens in front of it and
    is placed in the middle: the split of the text before the match
    counts the empty piece after the last space, so the classes start
    one token earlier than the specification says. *)
Theorem location_after_49_words :
  tokensBefore (words_then_claim 49) 98 = 49%nat
  /\ estimateLocation (words_then_claim 49) 98 = "middle"
  /\ ~ location_spec (words_then_claim 49) 98.
Proof.
  assert (Ht : tokensBefore (words_then_claim 49) 98 = 49%nat)
    by exact (proj1 (wordCount_words 49)).
  assert (He : estimateLocation (words_then_claim 49) 98 = "middle")
    by (vm_compute; reflexivity).
  split; [exact Ht |]. split; [exact He |].
  unfold location_spec. cbv zeta. rewrite Ht, He.
  intros (Hb & _). specialize (Hb ltac:(lia)). discriminate Hb.
Qed.

(** ** Merge *)

Lemma isDuplicate_true (acc : list Violation) (a : Violation) :
  isDuplicate acc a = true <->
  exists e, e ∈ acc /\ text_found e = text_found a /\ category e = category a.
Proof.
  unfold isDuplicate. rewrite existsb_exists. split.
  - intros (e & Hin & Hs). exists e. unfold sameFinding in Hs.
    apply andb_true_iff in Hs as [H1 H2].
    apply String.eqb_eq in H1, H2.
    split; [apply list_elem_of_In; exact Hin | auto].
  - intros (e & Hin & H1 & H2). exists e.
    split; [apply list_elem_of_In; exact Hin |].
    unfold sameFinding. rewrite H1, H2, !String.eqb_refl. reflexivity.
Qed.

Lemma mergeViolations_novel (ai acc : list Violation) :
  mergeViolations acc ai = (acc ++ map tagAI (novel acc ai))%list.
Proof.
  unfold mergeViolations. revert acc.
  induction ai as [| a ai IH]; intros acc; simpl.
  - now rewrite app_nil_r.
  - unfold mergeViolation at 2. destruct (isDuplicate acc a).
    + apply IH.
    + rewrite IH. simpl. now rewrite <- app_assoc.
Qed.

Lemma novel_sublist (ai acc : list Violation) : sublist (novel acc ai) ai.
Proof.
  revert acc. induction ai as [| a ai IH]; intros acc; simpl.
  - constructor.
  - destruct (isDuplicate acc a).
    + apply sublist_cons. apply IH.
    + apply sublist_skip. apply IH.
Qed.

Lemma novel_app (before rest acc : list Violation) :
  novel acc (before ++ rest)
  = (novel acc before
     ++ novel (acc ++ map tagAI (novel acc before)) rest)%list.
Proof.
  revert acc. induction before as [| b before IH]; intros acc; simpl.
  - now rewrite app_nil_r.
  - destruct (isDuplicate acc b); [apply IH |].
    rewrite IH. simpl. now rewrite <- app_assoc.
Qed.

Lemma mergeViolation_grows (acc : list Violation) (a e : Violation) :
  e ∈ acc -> e ∈ mergeViolation acc a.
Proof.
  intros He. unfold mergeViolation.
  destruct (isDuplicate acc a); [exact He |].
  apply elem_of_app. left. exact He.
Qed.

Lemma mergeViolations_grows (ai acc : list Violation) (e : Violation) :
  e ∈ acc -> e ∈ mergeViolations acc ai.
Proof.
  unfold mergeViolations. revert acc.
  induction ai as [| a ai IH]; intros acc He; simpl; [exact He |].
  apply IH. apply mergeViolation_grows. exact He.
Qed.

Lemma mergeViolations_covers (ai acc : list Violation) (a : Violation) :
  a ∈ ai ->
  exists e, e ∈ mergeViolations acc ai
            /\ text_found e = text_found a /\ category e = category a.
Proof.
  revert acc. induction ai as [| b ai IH]; intros acc Ha;
    [inversion Ha |].
  apply elem_of_cons in Ha as [-> | Ha]; [| exact (IH _ Ha)].
  assert (Hhere : exists e, e ∈ mergeViolation acc b
                            /\ text_found e = text_found b
                            /\ category e = category b).
  { unfold mergeViolation. destruct (isDuplicate acc b) eqn:Hd.
    - apply isDuplicate_true in Hd. exact Hd.
    - exists (tagAI b). split; [| split; reflexivity].
      apply elem_of_app. right. apply list_elem_of_here. }
  destruct Hhere as (e & He & Ht & Hc). exists e.
  split; [| split; assumption].
  change (mergeViolations acc (b :: ai))
    with (mergeViolations (mergeViolation acc b) ai).
  apply mergeViolations_grows. exact He.
Qed.

(** C8. The merged list is the rule violations, unchanged and in
    order, followed by the AI violations that were kept, in the order
    of the AI response, each marked as coming from the AI.  At every
    AI violation the list accumulated so far decides: when it holds a
    violation with the same text and category, the AI violation adds
    nothing; when it holds none, the AI violation is appended.  So
    every AI violation is matched by a violation of the merged list. *)
Theorem merge_deduplicates (basicResults : Results) (ai : AiResults)
    (reported : list Violation) :
  ai_violations ai = ViolationList reported ->
  exists kept,
    combineResults basicResults (Some ai)
    = Returned (mkResults (violations basicResults ++ map tagAI kept)
                          (required_elements basicResults)
                          (passed_rules basicResults))
    /\ sublist kept reported
    /\ (forall before a after,
          reported = (before ++ a :: after)%list ->
          exists keptBefore keptAfter,
            sublist keptBefore before /\ sublist keptAfter after
            /\ mergeViolations (violations basicResults) before
               = (violations basicResults ++ map tagAI keptBefore)%list
            /\ ((exists e,
                    e ∈ (violations basicResults
                         ++ map tagAI keptBefore)%list
                    /\ text_found e = text_found a
                    /\ category e = category a) ->
                kept = (keptBefore ++ keptAfter)%list)
            /\ ((forall e,
                    e ∈ (violations basicResults
                         ++ map tagAI keptBefore)%list ->
                    text_found e <> text_found a
                    \/ category e <> category a) ->
                kept = (keptBefore ++ a :: keptAfter)%list))
    /\ (forall a, a ∈ reported ->
          exists e,
            e ∈ (violations basicResults ++ map tagAI kept)%list
            /\ text_found e = text_found a /\ category e = category a).
Proof.
  intros Hai.
  exists (novel (violations basicResults) reported).
  split; [| split; [| split]].
  - unfold combineResults. rewrite Hai. now rewrite mergeViolations_novel.
  - apply novel_sublist.
  - intros before a after ->.
    set (acc := (violations basicResults
                 ++ map tagAI (novel (violations basicResults) before))%list).
    destruct (isDuplicate acc a) eqn:Hd.
    + exists (novel (violations basicResults) before), (novel acc after).
      split; [apply novel_sublist |]. split; [apply novel_sublist |].
      split; [apply mergeViolations_novel |]. split.
      * intros _. rewrite novel_app. simpl. fold acc. now rewrite Hd.
      * intros Hnone. exfalso.
        apply isDuplicate_true in Hd as (e & He & Ht & Hc).
        destruct (Hnone e He) as [H | H]; contradiction.
    + exists (novel (violations basicResults) before),
        (novel (acc ++ [tagAI a]) after).
      split; [apply novel_sublist |]. split; [apply novel_sublist |].
      split; [apply mergeViolations_novel |]. split.
      * intros Hdup. apply isDuplicate_true in Hdup. fold acc in Hdup.
        rewrite Hd in Hdup. discriminate Hdup.
      * intros _. rewrite novel_app. simpl. fold acc. now rewrite Hd.
  - intros a Ha. rewrite <- mergeViolations_novel.
    apply mergeViolations_covers. exact Ha.
Qed.

Lemma merge_deduplicates_witness :
  exists kept,
    combineResults (mkResults [Sample.job_violation] [] [])
      (Some Sample.judgment)
    = Returned (mkResults ([Sample.job_violation] ++ map tagAI kept) [] [])
    /\ sublist kept [Sample.ai_same; Sample.ai_other]
    /\ forall a, a ∈ [Sample.ai_same; Sample.ai_other] ->
         exists e,
           e ∈ ([Sample.job_violation] ++ map tagAI kept)%list
           /\ text_found e = text_found a /\ category e = category a.
Proof.
  destruct (merge_deduplicates (mkResults [Sample.job_violation] [] [])
              Sample.judgment [Sample.ai_same; Sample.ai_other] eq_refl)
    as (kept & Hrun & Hsub & _ & Hcov).
  exists kept. split; [exact Hrun |]. split; [exact Hsub | exact Hcov].
Defined.

(** On the sample judgment the merge keeps the second AI violation
    only: the first has the text and category of the rule violation. *)
Lemma merge_of_the_sample_judgment :
  combineResults (mkResults [Sample.job_violation] [] [])
    (Some Sample.judgment)
  = Returned (mkResults [Sample.job_violation; tagAI Sample.ai_other] [] []).
Proof. reflexivity. Qed.

(** ** Router *)

Lemma trackUsage_trace (R : Router) (name : string) (usage : option Usage)
    (st : RouterState) :
  trace (trackUsage R name usage st) = trace st.
Proof.
  unfold trackUsage. destruct usage as [u |]; [| reflexivity].
  destruct (clients R !! name); reflexivity.
Qed.

Lemma new_events_app (st st' : RouterState) (evs : list Event) :
  trace st' = (trace st ++ evs)%list -> new_events st st' = evs.
Proof. unfold new_events. intros ->. apply drop_app_length. Qed.

Lemma new_events_same (st : RouterState) : new_events st st = [].
Proof. apply new_events_app. now rewrite app_nil_r. Qed.



(** The fallback phase either finds no configured fallback and throws
    [NoProviderAvailable], or makes one request to the fallback client
    and ends with the outcome of that request. *)
Lemma tryFallback_cases (R : Router) (role : string) (fn : option string)
    (prompt : string) (options : Options) (st : RouterState) :
  (fallbackConfigured R fn = false
   /\ tryFallback R role fn prompt options st
      = (Threw (NoProviderAvailable role), st))
  \/ (exists fc,
        fallbackConfigured R fn = true
        /\ getClient R fn = Some fc
        /\ tryFallback R role fn prompt options st
           = match generateText fc prompt options with
             | Returned r =>
                 (Returned (normalize r),
                  trackUsage R (Js.key_of fn) (res_usage r)
                    (log (EvGenerate (Js.key_of fn)) st))
             | Threw e => (Threw e, log (EvGenerate (Js.key_of fn)) st)
             end).
Proof.
  unfold tryFallback, fallbackConfigured, configured.
  destruct (Js.opt_truthy fn); [| left; split; reflexivity].
  destruct (getClient R fn) as [fc |]; [| left; split; reflexivity].
  destruct (isConfigured fc) eqn:Hc; [| left; split; reflexivity].
  right. exists fc. repeat split.
Qed.


(** A name that is not a role of the configuration, and that no object
    inherits, is refused before any client is looked at. *)
Lemma callWithFailover_unknown_role (R : Router) (role prompt : string)
    (options : Options) (st : RouterState) :
  roles (config R) !! role = None ->
  Js.inheritedName role = false ->
  callWithFailover R role prompt options st = (Threw (UnknownRole role), st).
Proof. intros H _. unfold callWithFailover. now rewrite H. Qed.






(** ** Rule evaluation *)

Lemma forEach_invariant {S A : Type} (P : S -> Prop)
    (body : S -> A -> option S) (l : list A) :
  (forall s x s', P s -> body s x = Some s' -> P s') ->
  forall s s', P s -> forEach body l s = Some s' -> P s'.
Proof.
  intros Hbody. induction l as [| x l IH]; intros s s' Hs Hrun; simpl in Hrun.
  - now injection Hrun as <-.
  - destruct (body s x) as [s1 |] eqn:Hx; [| discriminate].
    exact (IH s1 s' (Hbody s x s1 Hs Hx) Hrun).
Qed.

Lemma forEach_app {S A : Type} (body : S -> A -> option S)
    (l1 l2 : list A) (s : S) :
  forEach body (l1 ++ l2) s = forEach body l1 s ≫= forEach body l2.
Proof.
  revert s. induction l1 as [| x l1 IH]; intros s; simpl; [reflexivity |].
  destruct (body s x) as [s1 |]; [apply IH | reflexivity].
Qed.

Lemma forEach_total {S A : Type} (body : S -> A -> option S) (l : list A) :
  (forall s x, is_Some (body s x)) -> forall s, is_Some (forEach body l s).
Proof.
  intros Hb. induction l as [| x l IH]; intros s; simpl; [eauto |].
  destruct (Hb s x) as [s1 ->]. apply IH.
Qed.

Section Termination.

Variable E : RegexEngine.

Hypothesis progress : progressive E.

Lemma execLoop_ends (re : regex E) (txt : string) (fuel : nat) :
  forall lastIndex matches,
    (lastIndex <= String.length txt)%nat ->
    (String.length txt - lastIndex < fuel)%nat ->
    is_Some (execLoop E fuel re txt lastIndex matches).
Proof.
  induction fuel as [| fuel IH]; intros lastIndex matches Hle Hlt; [lia |].
  simpl. destruct (exec E re txt lastIndex) as [[[m0 index] lastIndex'] |]
    eqn:Hexec; [| eauto].
  destruct (progress _ _ _ _ _ _ Hexec) as [Hup Hin].
  apply IH; lia.
Qed.

Lemma findMatches_ends (txt : string) (rule : Rule) :
  is_Some (findMatches E (S (String.length txt)) txt rule).
Proof.
  unfold findMatches.
  destruct (negb (Js.opt_truthy (pattern rule)) || negb (Js.truthy txt));
    [eauto |].
  destruct (compile E _ _) as [re |]; [| eauto].
  destruct (execLoop_ends re txt (S (String.length txt)) 0 [])
    as [ms ->]; [lia | lia | eauto].
Qed.

(** With one more step of fuel than the text has code units, the rule
    evaluation ends. *)
Lemma performBasicChecks_ends (ruleSet : RuleSet) (content : Content)
    (thePageType : string) :
  is_Some
    (performBasicChecks E
       (S (String.length (Js.opt_or_else (text content) "")))
       ruleSet content thePageType).
Proof.
  unfold performBasicChecks.
  set (txt := Js.opt_or_else (text content) "").
  set (fuel := S (String.length txt)).
  destruct (forEach_total (checkCritical E fuel txt)
              (critical_violations ruleSet)) with (s := emptyAcc)
    as [a1 ->].
  { intros s x. unfold checkCritical, fuel.
    destruct (findMatches_ends txt x) as [[ms ws] ->]. eauto. }
  simpl.
  destruct (forEach_total (checkTerminology E fuel txt)
              (required_terminology ruleSet)) with (s := a1) as [a2 ->].
  { intros s x. unfold checkTerminology, fuel.
    destruct (findMatches_ends txt x) as [[ms ws] ->]. eauto. }
  simpl.
  destruct (forEach_total (checkDisclaimer E fuel txt)
              (required_disclaimers ruleSet)) with (s := a2) as [a3 ->].
  { intros s x. unfold checkDisclaimer, fuel.
    destruct (findMatches_ends txt x) as [[ms ws] ->]. eauto. }
  simpl.
  destruct (forEach_total (checkWeb E txt content)
              (web_specific_requirements ruleSet)) with (s := a3)
    as [a4 ->].
  { intros s x. unfold checkWeb.
    destruct (webCheck E txt content x). eauto. }
  simpl. eauto.
Qed.

End Termination.

Section RuleEngineProperties.

Variable E : RegexEngine.

Lemma checkCritical_allFound (fuel : nat) (txt : string) (a a' : Acc)
    (rule : Rule) :
  allFound a -> checkCritical E fuel txt a rule = Some a' -> allFound a'.
Proof.
  unfold checkCritical, allFound. intros Ha H.
  destruct (findMatches E fuel txt rule) as [[ms ws] |]; [| discriminate].
  injection H as <-. destruct (0 <? length ms)%nat; exact Ha.
Qed.

Lemma checkTerminology_allFound (fuel : nat) (txt : string) (a a' : Acc)
    (rule : Rule) :
  allFound a -> checkTerminology E fuel txt a rule = Some a' -> allFound a'.
Proof.
  unfold checkTerminology, allFound. intros Ha H.
  destruct (findMatches E fuel txt rule) as [[ms ws] |]; [| discriminate].
  injection H as <-. destruct (0 <? length ms)%nat; exact Ha.
Qed.

Lemma checkDisclaimer_allFound (fuel : nat) (txt : string) (a a' : Acc)
    (rule : Rule) :
  allFound a -> checkDisclaimer E fuel txt a rule = Some a' -> allFound a'.
Proof.
  unfold checkDisclaimer, allFound. intros Ha H.
  destruct (findMatches E fuel txt rule) as [[ms ws] |]; [| discriminate].
  injection H as <-.
  destruct ((length ms =? 0)%nat && required rule); [exact Ha |].
  destruct (0 <? length ms)%nat; [| exact Ha].
  simpl. apply Forall_app. split; [exact Ha |].
  constructor; [reflexivity | constructor].
Qed.

Lemma checkWeb_allFound (txt : string) (content : Content) (a a' : Acc)
    (rule : Rule) :
  allFound a -> checkWeb E txt content a rule = Some a' -> allFound a'.
Proof.
  unfold checkWeb, allFound. intros Ha H.
  destruct (webCheck E txt content rule) as [fnd loc].
  injection H as <-.
  destruct (negb fnd && required rule); [exact Ha |].
  destruct fnd; [| exact Ha].
  simpl. apply Forall_app. split; [exact Ha |].
  constructor; [reflexivity | constructor].
Qed.

Lemma performBasicChecks_allFound (fuel : nat) (ruleSet : RuleSet)
    (content : Content) (thePageType : string) (basic : Results)
    (ws : list string) :
  performBasicChecks E fuel ruleSet content thePageType = Some (basic, ws) ->
  Forall (fun el => found el = true) (required_elements basic).
Proof.
  unfold performBasicChecks. intros H.
  set (txt := Js.opt_or_else (text content) "") in H.
  destruct (forEach (checkCritical E fuel txt) (critical_violations ruleSet)
              emptyAcc) as [a1 |] eqn:H1; [| discriminate].
  simpl in H.
  destruct (forEach (checkTerminology E fuel txt)
              (required_terminology ruleSet) a1) as [a2 |] eqn:H2;
    [| discriminate].
  simpl in H.
  destruct (forEach (checkDisclaimer E fuel txt)
              (required_disclaimers ruleSet) a2) as [a3 |] eqn:H3;
    [| discriminate].
  simpl in H.
  destruct (forEach (checkWeb E txt content)
              (web_specific_requirements ruleSet) a3) as [a4 |] eqn:H4;
    [| discriminate].
  simpl in H. injection H as <- <-. simpl.
  assert (F0 : allFound emptyAcc) by constructor.
  assert (F1 : allFound a1).
  { eapply (forEach_invariant allFound); [| exact F0 | exact H1].
    intros s x s'. apply checkCritical_allFound. }
  assert (F2 : allFound a2).
  { eapply (forEach_invariant allFound); [| exact F1 | exact H2].
    intros s x s'. apply checkTerminology_allFound. }
  assert (F3 : allFound a3).
  { eapply (forEach_invariant allFound); [| exact F2 | exact H3].
    intros s x s'. apply checkDisclaimer_allFound. }
  eapply (forEach_invariant allFound); [| exact F3 | exact H4].
  intros s x s'. apply checkWeb_allFound.
Qed.

Lemma allRequiredFound_found (res : list RequiredElement) :
  Forall (fun el => found el = true) res ->
  allRequiredFound res = match res with [] => false | _ :: _ => true end.
Proof.
  intros H. unfold allRequiredFound.
  assert (Hall : forallb found res = true).
  { apply forallb_forall. intros el Hin.
    rewrite Forall_forall in H. apply H. apply list_elem_of_In. exact Hin. }
  rewrite Hall. destruct res; reflexivity.
Qed.

Lemma combineResults_required (basic combined : Results)
    (ai : option AiResults) :
  combineResults basic ai = Returned combined ->
  required_elements combined = required_elements basic.
Proof.
  unfold combineResults. intros H.
  destruct ai as [ai |]; [| now injection H as <-].
  destruct (ai_violations ai); try discriminate; now injection H as <-.
Qed.

(** C10. Every required element that the rule evaluation produces has
    [found] set: a required disclaimer without a match, or a required
    web element that is not found, adds a violation and no element.
    So for the results of the evaluation, merged or not with an AI
    judgment, the test that guards the bonus holds exactly when the
    list of required elements is not empty, and the score is the base
    score plus 5, capped at 100, in that case and the base score
    otherwise. *)
Theorem required_elements_all_found (fuel : nat) (ruleSet : RuleSet)
    (content : Content) (thePageType : string) (basic : Results)
    (ws : list string) :
  performBasicChecks E fuel ruleSet content thePageType = Some (basic, ws) ->
  Forall (fun el => found el = true) (required_elements basic)
  /\ (forall txt a rule ws',
        required rule = true ->
        findMatches E fuel txt rule = Some ([], ws') ->
        checkDisclaimer E fuel txt a rule
        = Some (pushViolations
                  [missingViolation "Missing required disclaimer: " rule]
                  (warn ws' a)))
  /\ (forall txt a rule,
        required rule = true ->
        fst (webCheck E txt content rule) = false ->
        checkWeb E txt content a rule
        = Some (pushViolations
                  [missingViolation "Missing required web element: " rule] a))
  /\ forall weights ai combined,
       combineResults basic ai = Returned combined ->
       allRequiredFound (required_elements combined)
       = match required_elements basic with [] => false | _ :: _ => true end
       /\ calculateComplianceScore weights combined
          = Js.Math_round
              (match required_elements basic with
               | [] => baseScore weights (violations combined)
               | _ :: _ =>
                   Qmin 100 (baseScore weights (violations combined) + 5)
               end).
Proof.
  intros Hrun.
  pose proof (performBasicChecks_allFound _ _ _ _ _ _ Hrun) as Hall.
  split; [exact Hall |]. split; [| split].
  - intros txt a rule ws' Hreq Hm. unfold checkDisclaimer.
    now rewrite Hm, Hreq.
  - intros txt a rule Hreq Hw. unfold checkWeb.
    destruct (webCheck E txt content rule) as [fnd loc]. simpl in Hw.
    now rewrite Hw, Hreq.
  - intros weights ai combined Hc.
    pose proof (combineResults_required _ _ _ Hc) as Hreq.
    assert (Htest : allRequiredFound (required_elements combined)
                    = match required_elements basic with
                      | [] => false | _ :: _ => true end).
    { rewrite Hreq. now apply allRequiredFound_found. }
    split; [exact Htest |].
    unfold calculateComplianceScore. cbv zeta. rewrite Htest.
    unfold baseScore. destruct (required_elements basic); reflexivity.
Qed.

End RuleEngineProperties.

Lemma required_elements_all_found_witness :
  exists basic ws,
    performBasicChecks Sample.engine 100 Sample.ruleSet Sample.page "general"
    = Some (basic, ws)
    /\ length (required_elements basic) = 3%nat
    /\ Forall (fun el => found el = true) (required_elements basic)
    /\ calculateComplianceScore Sample.weights basic = 75%Z.
Proof.
  destruct (performBasicChecks Sample.engine 100 Sample.ruleSet Sample.page
              "general") as [[basic ws] |] eqn:Hrun;
    [| vm_compute in Hrun; discriminate Hrun].
  exists basic, ws. split; [reflexivity |].
  destruct (required_elements_all_found Sample.engine 100 Sample.ruleSet
              Sample.page "general" basic ws Hrun)
    as (Hall & _ & _ & Hscore).
  destruct (Hscore Sample.weights None basic eq_refl) as (_ & Hs).
  vm_compute in Hrun. injection Hrun as <- <-.
  split; [reflexivity |]. split; [exact Hall |].
  rewrite Hs. vm_compute. reflexivity.
Defined.

Section MalformedPattern.

Variable E : RegexEngine.

Lemma appendAcc_assoc (a b c : Acc) :
  appendAcc (appendAcc a b) c = appendAcc a (appendAcc b c).
Proof. unfold appendAcc. simpl. now rewrite <- !app_assoc. Qed.

Lemma appendAcc_empty_r (a : Acc) : appendAcc a emptyAcc = a.
Proof. destruct a. unfold appendAcc. simpl. now rewrite !app_nil_r. Qed.

Lemma appendAcc_empty_l (a : Acc) : appendAcc emptyAcc a = a.
Proof. now destruct a. Qed.

Lemma checkCritical_framed (fuel : nat) (txt : string) :
  framed (checkCritical E fuel txt).
Proof.
  intros a rule. unfold checkCritical.
  destruct (findMatches E fuel txt rule) as [[ms ws] |]; [| reflexivity].
  simpl. f_equal. destruct a.
  destruct (0 <? length ms)%nat; unfold appendAcc; simpl;
    now rewrite ?app_nil_r.
Qed.

Lemma checkTerminology_framed (fuel : nat) (txt : string) :
  framed (checkTerminology E fuel txt).
Proof.
  intros a rule. unfold checkTerminology.
  destruct (findMatches E fuel txt rule) as [[ms ws] |]; [| reflexivity].
  simpl. f_equal. destruct a.
  destruct (0 <? length ms)%nat; unfold appendAcc; simpl;
    now rewrite ?app_nil_r.
Qed.

Lemma checkDisclaimer_framed (fuel : nat) (txt : string) :
  framed (checkDisclaimer E fuel txt).
Proof.
  intros a rule. unfold checkDisclaimer.
  destruct (findMatches E fuel txt rule) as [[ms ws] |]; [| reflexivity].
  simpl. f_equal. destruct a.
  destruct ((length ms =? 0)%nat && required rule);
    [| destruct (0 <? length ms)%nat];
    unfold appendAcc; simpl; now rewrite ?app_nil_r.
Qed.

Lemma checkWeb_framed (txt : string) (content : Content) :
  framed (checkWeb E txt content).
Proof.
  intros a rule. unfold checkWeb.
  destruct (webCheck E txt content rule) as [fnd loc].
  simpl. f_equal. destruct a.
  destruct (negb fnd && required rule); [| destruct fnd];
    unfold appendAcc; simpl; now rewrite ?app_nil_r.
Qed.

Lemma forEach_framed {A : Type} (body : Acc -> A -> option Acc)
    (l : list A) :
  framed body ->
  forall a, forEach body l a = appendAcc a <$> forEach body l emptyAcc.
Proof.
  intros Hb. induction l as [| x l IH]; intros a; simpl.
  - now rewrite appendAcc_empty_r.
  - rewrite (Hb a x). destruct (body emptyAcc x) as [d |]; simpl;
      [| reflexivity].
    rewrite (IH (appendAcc a d)), (IH d).
    destruct (forEach body l emptyAcc) as [d' |]; simpl; [| reflexivity].
    now rewrite appendAcc_assoc.
Qed.

(** A loop over a list with one more rule in it, when that rule adds
    [db] whatever the arrays are. *)
Lemma forEach_insert {A : Type} (body : Acc -> A -> option Acc)
    (before after : list A) (bad : A) (db : Acc) :
  framed body ->
  body emptyAcc bad = Some db ->
  forEach body (before ++ bad :: after) emptyAcc
  = (d ← forEach body before emptyAcc;
     d' ← forEach body after emptyAcc;
     Some (appendAcc (appendAcc d db) d'))
  /\ forEach body (before ++ after) emptyAcc
     = (d ← forEach body before emptyAcc;
        d' ← forEach body after emptyAcc;
        Some (appendAcc d d')).
Proof.
  intros Hb Hbad. rewrite !forEach_app.
  destruct (forEach body before emptyAcc) as [d |]; simpl;
    [| split; reflexivity].
  rewrite (Hb d bad), Hbad. simpl.
  rewrite (forEach_framed body after Hb (appendAcc d db)).
  rewrite (forEach_framed body after Hb d).
  destruct (forEach body after emptyAcc) as [d' |]; split; reflexivity.
Qed.

(** The evaluation as the sum of what the four loops add. *)
Lemma performBasicChecks_sum (fuel : nat) (ruleSet : RuleSet)
    (content : Content) (thePageType : string) :
  let txt := Js.opt_or_else (text content) "" in
  performBasicChecks E fuel ruleSet content thePageType
  = (d1 ← forEach (checkCritical E fuel txt)
            (critical_violations ruleSet) emptyAcc;
     d2 ← forEach (checkTerminology E fuel txt)
            (required_terminology ruleSet) emptyAcc;
     d3 ← forEach (checkDisclaimer E fuel txt)
            (required_disclaimers ruleSet) emptyAcc;
     d4 ← forEach (checkWeb E txt content)
            (web_specific_requirements ruleSet) emptyAcc;
     Some (finish (appendAcc d1 (appendAcc d2 (appendAcc d3 d4))))).
Proof.
  intros txt. unfold performBasicChecks. fold txt.
  destruct (forEach (checkCritical E fuel txt) (critical_violations ruleSet)
              emptyAcc) as [d1 |]; simpl; [| reflexivity].
  rewrite (forEach_framed _ _ (checkTerminology_framed fuel txt) d1).
  destruct (forEach (checkTerminology E fuel txt)
              (required_terminology ruleSet) emptyAcc) as [d2 |]; simpl;
    [| reflexivity].
  rewrite (forEach_framed _ _ (checkDisclaimer_framed fuel txt)
             (appendAcc d1 d2)).
  destruct (forEach (checkDisclaimer E fuel txt)
              (required_disclaimers ruleSet) emptyAcc) as [d3 |]; simpl;
    [| reflexivity].
  rewrite (forEach_framed _ _ (checkWeb_framed txt content)
             (appendAcc (appendAcc d1 d2) d3)).
  destruct (forEach (checkWeb E txt content)
              (web_specific_requirements ruleSet) emptyAcc) as [d4 |]; simpl;
    [| reflexivity].
  unfold finish, appendAcc. simpl. now rewrite <- !app_assoc.
Qed.

Lemma extendedBy_sum (h d db d' t : Acc) (r r' : Results * list string) :
  acc_required db = [] ->
  r = finish (appendAcc h (appendAcc (appendAcc d d') t)) ->
  r' = finish (appendAcc h (appendAcc (appendAcc (appendAcc d db) d') t)) ->
  extendedBy (acc_violations db) (acc_passed db) (acc_warnings db) r r'.
Proof.
  intros Hreq -> ->. unfold extendedBy, insertedInto, finish, appendAcc.
  simpl. rewrite Hreq, app_nil_r. repeat split.
  - exists (acc_violations h ++ acc_violations d)%list,
           (acc_violations d' ++ acc_violations t)%list.
    split; now rewrite <- !app_assoc.
  - exists (acc_passed h ++ acc_passed d)%list,
           (acc_passed d' ++ acc_passed t)%list.
    split; now rewrite <- !app_assoc.
  - exists (acc_warnings h ++ acc_warnings d)%list,
           (acc_warnings d' ++ acc_warnings t)%list.
    split; now rewrite <- !app_assoc.
Qed.

Section BadRule.

Variable bad : Rule.

Hypothesis no_regex :
  compile E (Js.key_of (pattern bad)) (Js.opt_or_else (flags bad) "gi") = None.

Lemma findMatches_bad (fuel : nat) (txt : string) :
  findMatches E fuel txt bad = Some ([], badWarnings txt bad).
Proof.
  unfold findMatches, badWarnings.
  destruct (negb (Js.opt_truthy (pattern bad)) || negb (Js.truthy txt));
    [reflexivity |].
  now rewrite no_regex.
Qed.

Lemma checkCritical_bad (fuel : nat) (txt : string) :
  checkCritical E fuel txt emptyAcc bad
  = Some (mkAcc [] [] [passedCritical bad] (badWarnings txt bad)).
Proof. unfold checkCritical. now rewrite findMatches_bad. Qed.

Lemma checkTerminology_bad (fuel : nat) (txt : string) :
  checkTerminology E fuel txt emptyAcc bad
  = Some (mkAcc [] [] [passedTerminology bad] (badWarnings txt bad)).
Proof. unfold checkTerminology. now rewrite findMatches_bad. Qed.

Lemma checkDisclaimer_bad (fuel : nat) (txt : string) :
  checkDisclaimer E fuel txt emptyAcc bad
  = Some (mkAcc
            (if required bad
             then [missingViolation "Missing required disclaimer: " bad]
             else [])
            [] [] (badWarnings txt bad)).
Proof.
  unfold checkDisclaimer. rewrite findMatches_bad. simpl.
  now destruct (required bad).
Qed.

(** C9, amended. A rule whose pattern does not compile gets an empty
    list of matches, with a warning, whatever the rest of the rules;
    it is then handled as a rule that matched nothing.  With such a
    rule among the critical or the terminology rules the evaluation
    ends exactly when it ends without it, and its result is the result
    without it plus one passed-rule record for the rule; among the
    required disclaimers it adds a violation for a missing disclaimer
    when the rule is required, and nothing otherwise.  The findings of
    all the other rules are the same and in the same order. *)
Theorem malformed_pattern_counts_as_no_match (fuel : nat)
    (ruleSet : RuleSet) (content : Content) (thePageType : string)
    (before after : list Rule) :
  let txt := Js.opt_or_else (text content) "" in
  let ws := badWarnings txt bad in
  (forall fuel', findMatches E fuel' txt bad = Some ([], ws))
  /\ option_Forall2 (extendedBy [] [passedCritical bad] ws)
       (performBasicChecks E fuel (withCritical ruleSet (before ++ after))
          content thePageType)
       (performBasicChecks E fuel
          (withCritical ruleSet (before ++ bad :: after))
          content thePageType)
  /\ option_Forall2 (extendedBy [] [passedTerminology bad] ws)
       (performBasicChecks E fuel (withTerminology ruleSet (before ++ after))
          content thePageType)
       (performBasicChecks E fuel
          (withTerminology ruleSet (before ++ bad :: after))
          content thePageType)
  /\ option_Forall2
       (extendedBy
          (if required bad
           then [missingViolation "Missing required disclaimer: " bad]
           else [])
          [] ws)
       (performBasicChecks E fuel (withDisclaimers ruleSet (before ++ after))
          content thePageType)
       (performBasicChecks E fuel
          (withDisclaimers ruleSet (before ++ bad :: after))
          content thePageType).
Proof.
  intros txt ws.
  split; [intros fuel'; apply findMatches_bad |].
  rewrite !performBasicChecks_sum. cbv zeta. fold txt. simpl.
  split; [| split].
  - destruct (forEach_insert _ before after bad _
                (checkCritical_framed fuel txt) (checkCritical_bad fuel txt))
      as [-> ->].
    destruct (forEach (checkCritical E fuel txt) before emptyAcc) as [d |];
      simpl; [| constructor].
    destruct (forEach (checkCritical E fuel txt) after emptyAcc) as [d' |];
      simpl; [| constructor].
    destruct (forEach (checkTerminology E fuel txt)
                (required_terminology ruleSet) emptyAcc) as [d2 |];
      simpl; [| constructor].
    destruct (forEach (checkDisclaimer E fuel txt)
                (required_disclaimers ruleSet) emptyAcc) as [d3 |];
      simpl; [| constructor].
    destruct (forEach (checkWeb E txt content)
                (web_specific_requirements ruleSet) emptyAcc) as [d4 |];
      simpl; [| constructor].
    constructor.
    apply (extendedBy_sum emptyAcc d
             (mkAcc [] [] [passedCritical bad] ws) d'
             (appendAcc d2 (appendAcc d3 d4)));
      [reflexivity | |]; now rewrite appendAcc_empty_l.
  - destruct (forEach_insert _ before after bad _
                (checkTerminology_framed fuel txt)
                (checkTerminology_bad fuel txt)) as [-> ->].
    destruct (forEach (checkCritical E fuel txt)
                (critical_violations ruleSet) emptyAcc) as [d1 |];
      simpl; [| constructor].
    destruct (forEach (checkTerminology E fuel txt) before emptyAcc)
      as [d |]; simpl; [| constructor].
    destruct (forEach (checkTerminology E fuel txt) after emptyAcc)
      as [d' |]; simpl; [| constructor].
    destruct (forEach (checkDisclaimer E fuel txt)
                (required_disclaimers ruleSet) emptyAcc) as [d3 |];
      simpl; [| constructor].
    destruct (forEach (checkWeb E txt content)
                (web_specific_requirements ruleSet) emptyAcc) as [d4 |];
      simpl; [| constructor].
    constructor.
    now apply (extendedBy_sum d1 d
                 (mkAcc [] [] [passedTerminology bad] ws) d'
                 (appendAcc d3 d4)).
  - destruct (forEach_insert _ before after bad _
                (checkDisclaimer_framed fuel txt)
                (checkDisclaimer_bad fuel txt)) as [-> ->].
    destruct (forEach (checkCritical E fuel txt)
                (critical_violations ruleSet) emptyAcc) as [d1 |];
      simpl; [| constructor].
    destruct (forEach (checkTerminology E fuel txt)
                (required_terminology ruleSet) emptyAcc) as [d2 |];
      simpl; [| constructor].
    destruct (forEach (checkDisclaimer E fuel txt) before emptyAcc)
      as [d |]; simpl; [| constructor].
    destruct (forEach (checkDisclaimer E fuel txt) after emptyAcc)
      as [d' |]; simpl; [| constructor].
    destruct (forEach (checkWeb E txt content)
                (web_specific_requirements ruleSet) emptyAcc) as [d4 |];
      simpl; [| constructor].
    constructor.
    apply (extendedBy_sum (appendAcc d1 d2) d
             (mkAcc
                (if required bad
                 then [missingViolation "Missing required disclaimer: " bad]
                 else [])
                [] [] ws) d' d4);
      [reflexivity | |]; now rewrite (appendAcc_assoc d1 d2).
Qed.

End BadRule.

End MalformedPattern.

Lemma malformed_pattern_counts_as_no_match_witness :
  option_Forall2
    (extendedBy [] [passedCritical Sample.bad_rule]
       [invalid_pattern_warning Sample.bad_rule])
    (performBasicChecks Sample.engine 100 Sample.ruleSet Sample.page "general")
    (performBasicChecks Sample.engine 100
       (withCritical Sample.ruleSet [Sample.bad_rule; Sample.job_rule])
       Sample.page "general")
  /\ option_Forall2
       (extendedBy
          [missingViolation "Missing required disclaimer: "
             Sample.bad_disclaimer]
          [] [invalid_pattern_warning Sample.bad_disclaimer])
       (performBasicChecks Sample.engine 100 Sample.ruleSet Sample.page
          "general")
       (performBasicChecks Sample.engine 100
          (withDisclaimers Sample.ruleSet
             [Sample.training_rule; Sample.bad_disclaimer])
          Sample.page "general").
Proof.
  split.
  - exact (proj1 (proj2
             (malformed_pattern_counts_as_no_match Sample.engine
                Sample.bad_rule eq_refl 100 Sample.ruleSet Sample.page
                "general" [] [Sample.job_rule]))).
  - exact (proj2 (proj2 (proj2
             (malformed_pattern_counts_as_no_match Sample.engine
                Sample.bad_disclaimer eq_refl 100 Sample.ruleSet Sample.page
                "general" [Sample.training_rule] [])))).
Defined.

(** C9 as the specification words it fails: the rule with the
    malformed pattern is reported among the passed rules. *)
Lemma skipped_counterexample :
  ~ skipped_spec Sample.engine 100 Sample.ruleSet Sample.bad_rule
      Sample.page "general".
Proof.
  unfold skipped_spec. intros H. specialize (H eq_refl).
  vm_compute in H. discriminate H.
Qed.

(** ** The compliance check *)

Section CheckCompliance.

Variables (env : Env) (E : RegexEngine) (R : Router).

(** The rules that a check uses: those the checker holds, or else
    those it loads. *)
Lemma checkCompliance_loaded (fuel : nat) (content : Content)
    (options : CheckOptions) (st : CheckerState) (ruleSet : RuleSet)
    (basic : Results) (ws : list string) :
  rules st = Some ruleSet \/ (rules st = None /\ rulesFile env = Some ruleSet) ->
  performBasicChecks E fuel ruleSet content
    (default "general" (pageType options)) = Some (basic, ws) ->
  checkCompliance env E R fuel content options st
  = (let '(aiResults, rst) :=
       aiStep env R content (default "general" (pageType options))
         (default true (useAI options))
         (logWarnings ws (routerState st)) in
     match combineResults basic aiResults with
     | Threw error =>
         Some (Threw (Error ("Compliance check failed: "
                             +:+ message_of error)),
               mkCheckerState (Some ruleSet) rst)
     | Returned combinedResults =>
         Some (Returned
                 (assemble env ruleSet content (default "" (url options))
                    (default "general" (pageType options))
                    (default true (includeRecommendations options))
                    combinedResults aiResults),
               mkCheckerState (Some ruleSet) rst)
     end).
Proof.
  intros Hrules Hbasic. unfold checkCompliance.
  assert (Hload : match rules st with
                  | Some r => Returned r
                  | None => loadRules env
                  end = Returned ruleSet).
  { destruct Hrules as [-> | [-> Hfile]]; [reflexivity |].
    unfold loadRules. now rewrite Hfile. }
  rewrite Hload, Hbasic. reflexivity.
Qed.

(** C2, amended. When the rule file cannot be loaded the check throws
    that error.  Otherwise, once the rule evaluation has ended: if the
    AI analysis throws (a router or provider error) the check returns
    the result built from the rule findings alone, without AI
    metadata; if the provider answers with a text that is not JSON,
    the check returns a result with the violations of the rules alone
    and with the AI metadata of that answer. *)
Theorem ai_failure_degrades (fuel : nat) (content : Content)
    (options : CheckOptions) (st : CheckerState) :
  let thePageType := default "general" (pageType options) in
  (rules st = None -> rulesFile env = None ->
   checkCompliance env E R fuel content options st
   = Some (Threw RulesUnavailable, st))
  /\ forall ruleSet basic ws,
       rules st = Some ruleSet
       \/ (rules st = None /\ rulesFile env = Some ruleSet) ->
       performBasicChecks E fuel ruleSet content thePageType
       = Some (basic, ws) ->
       let rst := logWarnings ws (routerState st) in
       (forall e rst',
           performAIAnalysis env R content thePageType rst = (Threw e, rst') ->
           exists r st',
             checkCompliance env E R fuel content options st
             = Some (Returned r, st')
             /\ r = assemble env ruleSet content (default "" (url options))
                      thePageType
                      (default true (includeRecommendations options))
                      basic None
             /\ cr_violations r = violations basic
             /\ cr_required_elements r = required_elements basic
             /\ cr_passed_rules r = passed_rules basic
             /\ ai_analysis r = None)
       /\ (forall result rst',
             default true (useAI options) = true ->
             isAIConfigured R = true ->
             callWithFailover R "COMPLIANCE"
               (buildAIPrompt env content thePageType)
               (mkOptions (Some 0.1%Q) (Some 8192%N)) rst
             = (Returned result, rst') ->
             JSON_parse env (default "" (res_text result)) = None ->
             exists r st',
               checkCompliance env E R fuel content options st
               = Some (Returned r, st')
               /\ cr_violations r = violations basic
               /\ cr_required_elements r = required_elements basic
               /\ ai_analysis r
                  = Some {| model_used :=
                              Js.opt_or_else (res_model result) "unknown";
                            md_confidence := 0.85%Q;
                            md_processing_time := elapsed env |}).
Proof.
  intros thePageType. split.
  - intros Hnone Hfile. unfold checkCompliance, loadRules.
    now rewrite Hnone, Hfile.
  - intros ruleSet basic ws Hrules Hbasic rst. split.
    + intros e rst' Hai.
      rewrite (checkCompliance_loaded fuel content options st ruleSet basic
                 ws Hrules Hbasic).
      fold thePageType rst. unfold aiStep.
      destruct (default true (useAI options) && isAIConfigured R).
      * rewrite Hai. simpl. eexists _, _. repeat split.
      * simpl. eexists _, _. repeat split.
    + intros result rst' Hwant Hconf Hcall Hparse.
      rewrite (checkCompliance_loaded fuel content options st ruleSet basic
                 ws Hrules Hbasic).
      fold thePageType rst. unfold aiStep.
      rewrite Hwant, Hconf. simpl.
      unfold performAIAnalysis. rewrite Hcall, Hparse. simpl.
      eexists _, _. split; [reflexivity |]. repeat split.
Qed.

(** An AI judgment whose [violations] cannot be iterated makes the
    check throw: the loop of [combineResults] is outside the [try] of
    the AI step. *)
Lemma malformed_judgment_is_thrown (fuel : nat) (content : Content)
    (options : CheckOptions) (st : CheckerState) (ruleSet : RuleSet)
    (basic : Results) (ws : list string) (result : GenResult)
    (rst' : RouterState) (parsed : ParsedAnalysis) :
  rules st = Some ruleSet \/ (rules st = None /\ rulesFile env = Some ruleSet) ->
  performBasicChecks E fuel ruleSet content
    (default "general" (pageType options)) = Some (basic, ws) ->
  default true (useAI options) = true ->
  isAIConfigured R = true ->
  callWithFailover R "COMPLIANCE"
    (buildAIPrompt env content (default "general" (pageType options)))
    (mkOptions (Some 0.1%Q) (Some 8192%N))
    (logWarnings ws (routerState st))
  = (Returned result, rst') ->
  JSON_parse env (default "" (res_text result)) = Some parsed ->
  p_violations parsed = NotIterable ->
  checkCompliance env E R fuel content options st
  = Some (Threw (Error "Compliance check failed: aiResults.violations is not iterable"),
          mkCheckerState (Some ruleSet) rst').
Proof.
  intros Hrules Hbasic Hwant Hconf Hcall Hparse Hshape.
  rewrite (checkCompliance_loaded fuel content options st ruleSet basic ws
             Hrules Hbasic).
  unfold aiStep. rewrite Hwant, Hconf. simpl.
  unfold performAIAnalysis. rewrite Hcall, Hparse. simpl.
  unfold combineResults. simpl. now rewrite Hshape.
Qed.

(** Under an engine whose match loops end, the check ends: it returns
    a result or throws. *)
Lemma checkCompliance_ends (content : Content) (options : CheckOptions)
    (st : CheckerState) :
  progressive E ->
  is_Some
    (checkCompliance env E R
       (S (String.length (Js.opt_or_else (text content) "")))
       content options st).
Proof.
  intros Hprog. unfold checkCompliance.
  destruct (match rules st with
            | Some r => Returned r
            | None => loadRules env
            end) as [e | ruleSet]; [eauto |].
  destruct (performBasicChecks_ends E Hprog ruleSet content
              (default "general" (pageType options))) as [[basic ws] ->].
  simpl.
  destruct (aiStep env R content (default "general" (pageType options))
              (default true (useAI options))
              (logWarnings ws (routerState st))) as [aiResults rst].
  destruct (combineResults basic aiResults); eauto.
Qed.

End CheckCompliance.

Lemma ai_failure_degrades_witness :
  checkCompliance Sample.env_without_rules Sample.engine
    (Sample.router Sample.keyless Sample.keyless) 100 Sample.page
    Sample.defaults Sample.fresh
  = Some (Threw RulesUnavailable, Sample.fresh)
  /\ (exists r st',
        checkCompliance Sample.env Sample.engine
          (Sample.router (Sample.failing "overloaded") Sample.keyless)
          100 Sample.page Sample.defaults Sample.fresh
        = Some (Returned r, st')
        /\ ai_analysis r = None
        /\ compliance_score r = 75%Z)
  /\ (exists r st',
        checkCompliance Sample.env Sample.engine
          (Sample.router (Sample.answering "Nothing to report.")
                         Sample.keyless)
          100 Sample.page Sample.defaults Sample.fresh
        = Some (Returned r, st')
        /\ length (cr_violations r) = 2%nat
        /\ ai_analysis r = Some (mkAiMetadata "model-a" 0.85%Q 12)).
Proof.
  split; [| split].
  - apply (proj1 (ai_failure_degrades Sample.env_without_rules Sample.engine
                    (Sample.router Sample.keyless Sample.keyless) 100
                    Sample.page Sample.defaults Sample.fresh));
      reflexivity.
  - destruct (performBasicChecks Sample.engine 100 Sample.ruleSet Sample.page
                "general") as [[basic ws] |] eqn:Hrun;
      [| vm_compute in Hrun; discriminate Hrun].
    destruct (proj2 (ai_failure_degrades Sample.env Sample.engine
                       (Sample.router (Sample.failing "overloaded")
                                      Sample.keyless)
                       100 Sample.page Sample.defaults Sample.fresh)
                Sample.ruleSet basic ws (or_intror (conj eq_refl eq_refl))
                Hrun) as (Hthrow & _).
    vm_compute in Hrun. injection Hrun as <- <-.
    destruct (Hthrow (Error "AI analysis failed: No configured AI models available for role: COMPLIANCE")
                (mkRouterState ∅ 0%Q
                   [EvGenerate "claude"; EvWarn "claude failed"]) eq_refl)
      as (r & st' & Hcheck & -> & _ & _ & _ & Hnone).
    eexists _, st'. split; [exact Hcheck |]. split; [exact Hnone |].
    reflexivity.
  - destruct (performBasicChecks Sample.engine 100 Sample.ruleSet Sample.page
                "general") as [[basic ws] |] eqn:Hrun;
      [| vm_compute in Hrun; discriminate Hrun].
    destruct (proj2 (ai_failure_degrades Sample.env Sample.engine
                       (Sample.router (Sample.answering "Nothing to report.")
                                      Sample.keyless)
                       100 Sample.page Sample.defaults Sample.fresh)
                Sample.ruleSet basic ws (or_intror (conj eq_refl eq_refl))
                Hrun) as (_ & Hparse).
    vm_compute in Hrun. injection Hrun as <- <-.
    destruct (Hparse (normalize (Sample.answer "Nothing to report."))
                (trackUsage
                   (Sample.router (Sample.answering "Nothing to report.")
                                  Sample.keyless)
                   "claude"
                   (res_usage (Sample.answer "Nothing to report."))
                   (log (EvGenerate "claude") Sample.idle))
                eq_refl eq_refl eq_refl eq_refl)
      as (r & st' & Hcheck & Hv & _ & Hmeta).
    exists r, st'. split; [exact Hcheck |]. split; [now rewrite Hv |].
    exact Hmeta.
Defined.

(** C2 as the specification words it fails: an answer that is not JSON
    is a failure of the AI path, and the result carries AI metadata. *)
Lemma degradation_counterexample :
  ~ degradation_spec Sample.env Sample.engine
      (Sample.router (Sample.answering "Nothing to report.") Sample.keyless)
      100 Sample.page Sample.defaults Sample.fresh.
Proof.
  unfold degradation_spec. intros H.
  destruct H as (r & st' & Hcheck & Hnone); [vm_compute; reflexivity |].
  vm_compute in Hcheck. injection Hcheck as <- <-. discriminate Hnone.
Qed.

(** * Further properties of the decision engine *)

(** ** Score and merge *)

Lemma fold_deduct_mono (weights : gmap string Q) (vs : list Violation) :
  forall a b, (a <= b)%Q ->
    (fold_left (deduct weights) vs a <= fold_left (deduct weights) vs b)%Q.
Proof.
  induction vs as [| v vs IH]; intros a b Hab; simpl; [exact Hab |].
  apply IH. unfold deduct, Qminus. apply Qplus_le_l. exact Hab.
Qed.

Lemma baseScore_app (weights : gmap string Q) (vs extra : list Violation) :
  nonnegative weights ->
  (baseScore weights (vs ++ extra) <= baseScore weights vs)%Q.
Proof.
  intros Hw. unfold baseScore. rewrite fold_left_app.
  apply Q.max_le_compat_l. apply deductions_below. exact Hw.
Qed.

Lemma score_of_base (weights : gmap string Q) (results : Results) :
  calculateComplianceScore weights results
  = Js.Math_round
      (if allRequiredFound (required_elements results)
       then Qmin 100 (baseScore weights (violations results) + 5)
       else baseScore weights (violations results)).
Proof. reflexivity. Qed.

Lemma numeric_score_app (weights : gmap string Q) (vs extra : list Violation)
    (req : list RequiredElement) (passed passed' : list PassedRule) :
  nonnegative weights ->
  (calculateComplianceScore weights (mkResults (vs ++ extra) req passed')
   <= calculateComplianceScore weights (mkResults vs req passed))%Z.
Proof.
  intros Hw. rewrite !score_of_base. simpl.
  pose proof (baseScore_app weights vs extra Hw) as Hb.
  apply Math_round_mono.
  destruct (allRequiredFound req); [| exact Hb].
  apply Q.min_le_compat_l. apply Qplus_le_l. exact Hb.
Qed.

(** X1. More violations never give a higher score: under weights that
    are not negative, and with severities that read a number or nothing
    from the weights, the score of a result with further violations
    appended, and the same required elements, is a number and at most
    the score without them. *)
Theorem more_violations_never_raise_score (weights : gmap string Q)
    (vs extra : list Violation) (req : list RequiredElement)
    (passed passed' : list PassedRule) :
  nonnegative weights ->
  (forall v, v ∈ (vs ++ extra)%list -> readsNumber weights v = true) ->
  exists s s',
    computedScore weights (mkResults (vs ++ extra) req passed') = Some s
    /\ computedScore weights (mkResults vs req passed) = Some s'
    /\ (s <= s')%Z.
Proof.
  intros Hw Hall.
  exists (calculateComplianceScore weights (mkResults (vs ++ extra) req passed')),
    (calculateComplianceScore weights (mkResults vs req passed)).
  split; [apply computedScore_number; exact Hall |].
  split; [| apply numeric_score_app; exact Hw].
  apply computedScore_number. intros v Hv. apply Hall.
  apply elem_of_app. left. exact Hv.
Qed.

Lemma more_violations_never_raise_score_witness :
  exists s s',
    computedScore Sample.weights
      (mkResults ([Sample.job_violation] ++ [Sample.ai_other]) [] []) = Some s
    /\ computedScore Sample.weights (mkResults [Sample.job_violation] [] [])
       = Some s'
    /\ (s <= s')%Z.
Proof.
  apply more_violations_never_raise_score.
  - exact sample_weights_nonnegative.
  - intros v Hv. simpl in Hv.
    apply elem_of_cons in Hv as [-> | Hv]; [reflexivity |].
    apply list_elem_of_singleton in Hv. subst v. reflexivity.
Defined.

(** X2. Merging an AI judgment never removes, changes or reorders a
    finding of the rules and never touches the required elements or the
    passed rules; so, under weights that are not negative, it never
    raises the score, as long as the severities of the merged
    violations read a number or nothing from the weights.  The
    severities of the AI violations are taken over as they come. *)
Theorem ai_judgment_only_adds (weights : gmap string Q) (basic : Results)
    (ai : option AiResults) (combined : Results) :
  nonnegative weights ->
  combineResults basic ai = Returned combined ->
  (exists added,
      violations combined = (violations basic ++ added)%list
      /\ Forall (fun v => source v = Some "ai_analysis") added
      /\ forall v, v ∈ added ->
           exists a reported,
             (ai_violations <$> ai) = Some (ViolationList reported)
             /\ a ∈ reported /\ v = tagAI a)
  /\ required_elements combined = required_elements basic
  /\ passed_rules combined = passed_rules basic
  /\ ((forall v, v ∈ violations combined -> readsNumber weights v = true) ->
      exists s s',
        computedScore weights combined = Some s
        /\ computedScore weights basic = Some s'
        /\ (s <= s')%Z).
Proof.
  intros Hw Hc.
  assert (Hshape : exists added,
             combined = mkResults (violations basic ++ added)
                          (required_elements basic) (passed_rules basic)
             /\ Forall (fun v => source v = Some "ai_analysis") added
             /\ forall v, v ∈ added ->
                  exists a reported,
                    (ai_violations <$> ai) = Some (ViolationList reported)
                    /\ a ∈ reported /\ v = tagAI a).
  { unfold combineResults in Hc.
    destruct ai as [ai |].
    - destruct (ai_violations ai) as [| l |] eqn:Hl; try discriminate.
      + injection Hc as <-. exists []. rewrite app_nil_r.
        split; [now destruct basic |].
        split; [constructor | intros v Hv; inversion Hv].
      + injection Hc as <-. rewrite mergeViolations_novel.
        eexists. split; [reflexivity |]. split.
        * apply Forall_forall. intros v Hv.
          apply list_elem_of_fmap in Hv as (a & -> & _). reflexivity.
        * intros v Hv. apply list_elem_of_fmap in Hv as (a & -> & Ha).
          exists a, l. simpl. rewrite Hl. split; [reflexivity |].
          split; [| reflexivity].
          eapply elem_of_sublist; [exact Ha | apply novel_sublist].
    - injection Hc as <-. exists []. rewrite app_nil_r.
      split; [now destruct basic |].
      split; [constructor | intros v Hv; inversion Hv]. }
  destruct Hshape as (added & -> & Hsrc & Horigin). simpl.
  split; [exists added; split; [reflexivity | split; assumption] |].
  split; [reflexivity |]. split; [reflexivity |].
  intros Hall.
  exists (calculateComplianceScore weights
            (mkResults (violations basic ++ added) (required_elements basic)
               (passed_rules basic))),
    (calculateComplianceScore weights basic).
  split; [apply computedScore_number; exact Hall |].
  split.
  - apply computedScore_number. intros v Hv. apply Hall.
    apply elem_of_app. left. exact Hv.
  - destruct basic as [vs req passed]. simpl.
    apply numeric_score_app. exact Hw.
Qed.

Lemma ai_judgment_only_adds_witness :
  exists s s',
    computedScore Sample.weights
      (mkResults [Sample.job_violation; tagAI Sample.ai_other] [] [])
    = Some s
    /\ computedScore Sample.weights (mkResults [Sample.job_violation] [] [])
       = Some s'
    /\ (s <= s')%Z.
Proof.
  apply (proj2 (proj2 (proj2
           (ai_judgment_only_adds Sample.weights
              (mkResults [Sample.job_violation] [] []) (Some Sample.judgment)
              (mkResults [Sample.job_violation; tagAI Sample.ai_other] [] [])
              sample_weights_nonnegative eq_refl)))).
  intros v Hv. simpl in Hv.
  apply elem_of_cons in Hv as [-> | Hv]; [reflexivity |].
  apply list_elem_of_singleton in Hv. subst v. reflexivity.
Defined.

(** ** Recommendations *)

Lemma seen_spec (x : string) (seen : list string) :
  existsb (String.eqb x) seen = true <-> x ∈ seen.
Proof.
  rewrite existsb_exists. split.
  - intros (y & Hin & Heq). apply String.eqb_eq in Heq. subst y.
    now apply list_elem_of_In.
  - intros Hin. exists x. split; [now apply list_elem_of_In |].
    apply String.eqb_refl.
Qed.

Lemma uniq_scan_elem (l seen : list string) (x : string) :
  x ∈ Js.uniq_scan seen l <-> x ∈ l /\ x ∉ seen.
Proof.
  revert seen. induction l as [| y l IH]; intros seen; simpl.
  - split; [intros H; inversion H | intros [H _]; inversion H].
  - destruct (existsb (String.eqb y) seen) eqn:Hy.
    + apply seen_spec in Hy. rewrite IH, elem_of_cons. split.
      * intros [H1 H2]. split; [right; exact H1 | exact H2].
      * intros [[-> | H1] H2]; [contradiction | split; assumption].
    + assert (Hny : y ∉ seen).
      { intros Hin. apply seen_spec in Hin. congruence. }
      rewrite !elem_of_cons, IH, not_elem_of_cons. split.
      * intros [-> | (H1 & H2 & H3)].
        -- split; [left; reflexivity | exact Hny].
        -- split; [right; exact H1 | exact H3].
      * intros [[-> | H1] H2]; [left; reflexivity |].
        destruct (decide (x = y)) as [-> | Hne]; [left; reflexivity |].
        right. repeat split; assumption.
Qed.

Lemma uniq_scan_NoDup (l seen : list string) : NoDup (Js.uniq_scan seen l).
Proof.
  revert seen. induction l as [| y l IH]; intros seen; simpl.
  - constructor.
  - destruct (existsb (String.eqb y) seen); [apply IH |].
    constructor; [| apply IH].
    rewrite uniq_scan_elem. intros [_ H]. apply H. apply list_elem_of_here.
Qed.

Lemma uniq_scan_sublist (l seen : list string) :
  sublist (Js.uniq_scan seen l) l.
Proof.
  revert seen. induction l as [| y l IH]; intros seen; simpl.
  - constructor.
  - destruct (existsb (String.eqb y) seen).
    + apply sublist_cons, IH.
    + apply sublist_skip, IH.
Qed.

Lemma uniq_elem (l : list string) (x : string) : x ∈ Js.uniq l <-> x ∈ l.
Proof.
  unfold Js.uniq. rewrite uniq_scan_elem. split.
  - intros [H _]. exact H.
  - intros H. split; [exact H | apply not_elem_of_nil].
Qed.

(** X3. The recommendations of a result hold no text twice; they hold
    the recommendation of every violation that has one, and the call
    for immediate action whenever a violation is critical. *)
Theorem recommendations_are_distinct (results : Results) (thePageType : string) :
  NoDup (generateRecommendations results thePageType)
  /\ (forall v r,
        v ∈ violations results -> recommendation v = Some r ->
        Js.truthy r = true ->
        r ∈ generateRecommendations results thePageType)
  /\ ((exists v, v ∈ violations results /\ severity v = "critical") ->
      "Immediate action required: Address all critical violations before ASQA audit"
      ∈ generateRecommendations results thePageType).
Proof.
  unfold generateRecommendations. cbv zeta. split; [| split].
  - apply uniq_scan_NoDup.
  - intros v r Hv Hr Ht. apply uniq_elem.
    apply elem_of_app. left.
    apply list_elem_of_In, in_flat_map. exists v.
    split; [now apply list_elem_of_In |].
    rewrite Hr. simpl. rewrite Ht. now left.
  - intros (v & Hv & Hsev). apply uniq_elem.
    apply elem_of_app. right. apply elem_of_app. right.
    assert (Hex : existsb (fun v => String.eqb (severity v) "critical")
                    (violations results) = true).
    { apply existsb_exists. exists v.
      split; [now apply list_elem_of_In |]. rewrite Hsev.
      apply String.eqb_refl. }
    rewrite Hex. apply list_elem_of_here.
Qed.

(** ** Location *)

Lemma split_scan_nonempty (s piece : string) (inSep : bool) :
  (1 <= length (Js.split_scan s piece inSep))%nat.
Proof.
  revert piece inSep. induction s as [| c s IH]; intros piece inSep; simpl.
  - lia.
  - destruct (Js.isSpace c); [destruct inSep |]; simpl;
      try apply IH; lia.
Qed.

Lemma split_scan_prefix (s : string) :
  forall i j piece piece' inSep, (i <= j)%nat ->
    (length (Js.split_scan (substring 0 i s) piece inSep)
     <= length (Js.split_scan (substring 0 j s) piece' inSep))%nat.
Proof.
  induction s as [| c s IH]; intros i j piece piece' inSep Hij.
  - destruct i, j; simpl; lia.
  - destruct i as [| i].
    + simpl. apply split_scan_nonempty.
    + destruct j as [| j]; [lia |].
      change (substring 0 (S i) (String c s))
        with (String c (substring 0 i s)).
      change (substring 0 (S j) (String c s))
        with (String c (substring 0 j s)).
      simpl. destruct (Js.isSpace c); [destruct inSep |]; simpl.
      * apply IH; lia.
      * apply le_n_S, IH; lia.
      * apply IH; lia.
Qed.

(** X4. The location classes follow the text: the word count in front
    of a later position is never smaller, so no match placed at the
    beginning comes after one placed in the middle or at the end, and
    nothing after a match placed at the end is placed earlier. *)
Theorem location_follows_the_text (txt : string) (i j : nat) :
  (i <= j)%nat ->
  (1 <= wordCount txt i)%nat
  /\ (wordCount txt i <= wordCount txt j)%nat
  /\ (estimateLocation txt j = "beginning" ->
      estimateLocation txt i = "beginning")
  /\ (estimateLocation txt i = "end" -> estimateLocation txt j = "end").
Proof.
  intros Hij.
  assert (Hmono : (wordCount txt i <= wordCount txt j)%nat).
  { unfold wordCount, Js.split_whitespace, Js.prefix.
    now apply split_scan_prefix. }
  split; [apply split_scan_nonempty |]. split; [exact Hmono |].
  unfold estimateLocation. cbv zeta.
  destruct (Nat.ltb_spec (wordCount txt i) 50);
    destruct (Nat.ltb_spec (wordCount txt j) 50);
    destruct (Nat.ltb_spec (wordCount txt i) 200);
    destruct (Nat.ltb_spec (wordCount txt j) 200);
    split; intros; try reflexivity; try discriminate; lia.
Qed.

Lemma location_follows_the_text_witness :
  (wordCount (words_then_claim 60) 20 <= wordCount (words_then_claim 60) 120)%nat
  /\ (estimateLocation (words_then_claim 60) 120 = "beginning" ->
      estimateLocation (words_then_claim 60) 20 = "beginning").
Proof.
  destruct (location_follows_the_text (words_then_claim 60) 20 120)
    as (_ & Hm & Hb & _); [lia |].
  split; [exact Hm | exact Hb].
Defined.

(** ** Rule evaluation: what the output accounts for *)

Lemma forEach_invariant_in {S A : Type} (P : S -> Prop)
    (body : S -> A -> option S) (l : list A) :
  (forall s x s', x ∈ l -> P s -> body s x = Some s' -> P s') ->
  forall s s', P s -> forEach body l s = Some s' -> P s'.
Proof.
  induction l as [| x l IH]; intros Hbody s s' Hs Hrun; simpl in Hrun.
  - now injection Hrun as <-.
  - destruct (body s x) as [s1 |] eqn:Hx; [| discriminate].
    apply (IH (fun s0 y s0' Hy => Hbody s0 y s0' (list_elem_of_further _ _ _ Hy))
              s1 s').
    + exact (Hbody s x s1 (list_elem_of_here _ _) Hs Hx).
    + exact Hrun.
Qed.

Lemma forEach_covers {A : Type} (body : Acc -> A -> option Acc)
    (Q : A -> Acc -> Prop) (l : list A) :
  framed body ->
  (forall x a b, Q x a -> Q x (appendAcc a b)) ->
  (forall a x a', body a x = Some a' -> Q x a') ->
  forall a a', forEach body l a = Some a' -> forall x, x ∈ l -> Q x a'.
Proof.
  intros Hframed Hmono Hbody.
  induction l as [| y l IH]; intros a a' Hrun x Hx; simpl in Hrun.
  - inversion Hx.
  - destruct (body a y) as [a1 |] eqn:Hy; [| discriminate].
    apply elem_of_cons in Hx as [-> | Hx].
    + rewrite (forEach_framed body l Hframed a1) in Hrun.
      destruct (forEach body l emptyAcc) as [d |]; [| discriminate].
      injection Hrun as <-. apply Hmono. exact (Hbody a y a1 Hy).
    + exact (IH a1 a' Hrun x Hx).
Qed.

Lemma forEach_grows {A : Type} (body : Acc -> A -> option Acc) (l : list A)
    (a a' : Acc) :
  framed body -> forEach body l a = Some a' -> exists d, a' = appendAcc a d.
Proof.
  intros Hframed Hrun. rewrite (forEach_framed body l Hframed a) in Hrun.
  destruct (forEach body l emptyAcc) as [d |]; [| discriminate].
  injection Hrun as <-. now exists d.
Qed.

Lemma settled_mono (rule : Rule) (a b : Acc) :
  settled rule a -> settled rule (appendAcc a b).
Proof.
  intros [(v & Hv & Hr) | (p & Hp & Hr)]; [left | right].
  - exists v. split; [apply elem_of_app; now left | exact Hr].
  - exists p. split; [apply elem_of_app; now left | exact Hr].
Qed.

Lemma answered_mono (rule : Rule) (a b : Acc) :
  answered rule a -> answered rule (appendAcc a b).
Proof.
  intros H Hreq. destruct (H Hreq) as [(v & Hv & Hr) | (el & He & Hr)];
    [left | right].
  - exists v. split; [apply elem_of_app; now left | exact Hr].
  - exists el. split; [apply elem_of_app; now left | exact Hr].
Qed.

Lemma missingViolation_fromRule (what : string) (rule : Rule) :
  fromRule rule (missingViolation what rule).
Proof. repeat split. Qed.

Lemma matchViolation_fromRule (rule : Rule) (rec : option string) (m : Match) :
  fromRule rule (matchViolation rule rec m).
Proof. repeat split. Qed.

Section Coverage.

Variable E : RegexEngine.

Lemma checkCritical_settles (fuel : nat) (txt : string) (a a' : Acc)
    (rule : Rule) :
  checkCritical E fuel txt a rule = Some a' -> settled rule a'.
Proof.
  unfold checkCritical. intros H.
  destruct (findMatches E fuel txt rule) as [[ms ws] |]; [| discriminate].
  injection H as <-. destruct ms as [| m ms]; simpl.
  - right. exists (passedCritical rule).
    split; [apply elem_of_app; right; apply list_elem_of_here | reflexivity].
  - left. eexists. split.
    + apply elem_of_app. right. apply list_elem_of_here.
    + apply matchViolation_fromRule.
Qed.

Lemma checkTerminology_settles (fuel : nat) (txt : string) (a a' : Acc)
    (rule : Rule) :
  checkTerminology E fuel txt a rule = Some a' -> settled rule a'.
Proof.
  unfold checkTerminology. intros H.
  destruct (findMatches E fuel txt rule) as [[ms ws] |]; [| discriminate].
  injection H as <-. destruct ms as [| m ms]; simpl.
  - right. exists (passedTerminology rule).
    split; [apply elem_of_app; right; apply list_elem_of_here | reflexivity].
  - left. eexists. split.
    + apply elem_of_app. right. apply list_elem_of_here.
    + apply matchViolation_fromRule.
Qed.

Lemma checkDisclaimer_answers (fuel : nat) (txt : string) (a a' : Acc)
    (rule : Rule) :
  checkDisclaimer E fuel txt a rule = Some a' -> answered rule a'.
Proof.
  unfold checkDisclaimer. intros H Hreq.
  destruct (findMatches E fuel txt rule) as [[ms ws] |]; [| discriminate].
  injection H as <-. rewrite Hreq. destruct ms as [| m ms]; simpl.
  - left. eexists. split; [| split].
    + apply elem_of_app. right. apply list_elem_of_here.
    + apply missingViolation_fromRule.
    + reflexivity.
  - right. exists (disclaimerElement rule).
    split; [apply elem_of_app; right; apply list_elem_of_here | reflexivity].
Qed.

Lemma checkWeb_answers (txt : string) (content : Content) (a a' : Acc)
    (rule : Rule) :
  checkWeb E txt content a rule = Some a' -> answered rule a'.
Proof.
  unfold checkWeb. intros H Hreq.
  destruct (webCheck E txt content rule) as [fnd loc].
  injection H as <-. rewrite Hreq. destruct fnd; simpl.
  - right. exists (webElement rule loc).
    split; [apply elem_of_app; right; apply list_elem_of_here | reflexivity].
  - left. eexists. split; [| split].
    + apply elem_of_app. right. apply list_elem_of_here.
    + apply missingViolation_fromRule.
    + reflexivity.
Qed.

(** The four loops of an evaluation that ended, one after the other. *)
Lemma performBasicChecks_steps (fuel : nat) (ruleSet : RuleSet)
    (content : Content) (thePageType : string) (basic : Results)
    (ws : list string) :
  performBasicChecks E fuel ruleSet content thePageType = Some (basic, ws) ->
  let txt := Js.opt_or_else (text content) "" in
  exists a1 a2 a3 a4,
    forEach (checkCritical E fuel txt) (critical_violations ruleSet) emptyAcc
    = Some a1
    /\ forEach (checkTerminology E fuel txt) (required_terminology ruleSet) a1
       = Some a2
    /\ forEach (checkDisclaimer E fuel txt) (required_disclaimers ruleSet) a2
       = Some a3
    /\ forEach (checkWeb E txt content) (web_specific_requirements ruleSet) a3
       = Some a4
    /\ finish a4 = (basic, ws).
Proof.
  intros H. cbv zeta. unfold performBasicChecks in H.
  set (txt := Js.opt_or_else (text content) "") in *.
  destruct (forEach (checkCritical E fuel txt) (critical_violations ruleSet)
              emptyAcc) as [a1 |] eqn:H1; [| discriminate].
  simpl in H.
  destruct (forEach (checkTerminology E fuel txt)
              (required_terminology ruleSet) a1) as [a2 |] eqn:H2;
    [| discriminate].
  simpl in H.
  destruct (forEach (checkDisclaimer E fuel txt)
              (required_disclaimers ruleSet) a2) as [a3 |] eqn:H3;
    [| discriminate].
  simpl in H.
  destruct (forEach (checkWeb E txt content)
              (web_specific_requirements ruleSet) a3) as [a4 |] eqn:H4;
    [| discriminate].
  simpl in H. injection H as <- <-.
  exists a1, a2, a3, a4. repeat split; assumption.
Qed.

(** X5. Every rule is accounted for by an evaluation that ended: each
    critical and each terminology rule is named by a violation or by a
    passed-rule record, and each required disclaimer or web rule by a
    violation for the whole page or by a required element. *)
Theorem every_rule_is_accounted_for (fuel : nat) (ruleSet : RuleSet)
    (content : Content) (thePageType : string) (basic : Results)
    (ws : list string) :
  performBasicChecks E fuel ruleSet content thePageType = Some (basic, ws) ->
  (forall rule,
      rule ∈ (critical_violations ruleSet ++ required_terminology ruleSet)%list ->
      (exists v, v ∈ violations basic /\ fromRule rule v)
      \/ (exists p, p ∈ passed_rules basic /\ pr_id p = r_id rule))
  /\ (forall rule,
        rule ∈ (required_disclaimers ruleSet
                ++ web_specific_requirements ruleSet)%list ->
        required rule = true ->
        (exists v, v ∈ violations basic /\ fromRule rule v
                   /\ location v = "entire_page")
        \/ (exists el, el ∈ required_elements basic /\ re_id el = r_id rule)).
Proof.
  intros Hrun.
  destruct (performBasicChecks_steps _ _ _ _ _ _ Hrun)
    as (a1 & a2 & a3 & a4 & H1 & H2 & H3 & H4 & Hfin).
  set (txt := Js.opt_or_else (text content) "") in *.
  destruct (forEach_grows _ _ _ _ (checkTerminology_framed E fuel txt) H2)
    as (d2 & E2).
  destruct (forEach_grows _ _ _ _ (checkDisclaimer_framed E fuel txt) H3)
    as (d3 & E3).
  destruct (forEach_grows _ _ _ _ (checkWeb_framed E txt content) H4)
    as (d4 & E4).
  unfold finish in Hfin. injection Hfin as <- <-. simpl.
  split.
  - intros rule Hin.
    change (settled rule a4).
    apply elem_of_app in Hin as [Hin | Hin].
    + rewrite E4, E3, E2. do 3 apply settled_mono.
      eapply (forEach_covers _ settled); [| | | exact H1 | exact Hin].
      * apply checkCritical_framed.
      * apply settled_mono.
      * intros a x a'. apply checkCritical_settles.
    + rewrite E4, E3. do 2 apply settled_mono.
      eapply (forEach_covers _ settled); [| | | exact H2 | exact Hin].
      * apply checkTerminology_framed.
      * apply settled_mono.
      * intros a x a'. apply checkTerminology_settles.
  - intros rule Hin.
    change (answered rule a4).
    apply elem_of_app in Hin as [Hin | Hin].
    + rewrite E4. apply answered_mono.
      eapply (forEach_covers _ answered); [| | | exact H3 | exact Hin].
      * apply checkDisclaimer_framed.
      * apply answered_mono.
      * intros a x a'. apply checkDisclaimer_answers.
    + eapply (forEach_covers _ answered); [| | | exact H4 | exact Hin].
      * apply checkWeb_framed.
      * apply answered_mono.
      * intros a x a'. apply checkWeb_answers.
Qed.

End Coverage.

Section Provenance.

Variable E : RegexEngine.

Variable ruleSet : RuleSet.

Lemma traceable_push_violations (a : Acc) (rule : Rule) (vs : list Violation) :
  rule ∈ allRules ruleSet ->
  Forall (fromRule rule) vs ->
  traceable ruleSet a -> traceable ruleSet (pushViolations vs a).
Proof.
  intros Hin Hvs (Hv & Hp & He). repeat split; simpl; try assumption.
  intros v Hin'. apply elem_of_app in Hin' as [Hin' | Hin'];
    [now apply Hv |].
  exists rule. split; [exact Hin |].
  rewrite Forall_forall in Hvs. now apply Hvs.
Qed.

Lemma traceable_push_passed (a : Acc) (rule : Rule) (p : PassedRule) :
  rule ∈ allRules ruleSet ->
  pr_id p = r_id rule -> pr_asqa_reference p = r_asqa_reference rule ->
  traceable ruleSet a -> traceable ruleSet (pushPassed p a).
Proof.
  intros Hin Hid Href (Hv & Hp & He). repeat split; simpl; try assumption.
  intros q Hq. apply elem_of_app in Hq as [Hq | Hq]; [now apply Hp |].
  apply list_elem_of_singleton in Hq as ->. now exists rule.
Qed.

Lemma traceable_push_required (a : Acc) (rule : Rule) (el : RequiredElement) :
  rule ∈ allRules ruleSet ->
  re_id el = r_id rule -> re_asqa_reference el = r_asqa_reference rule ->
  traceable ruleSet a -> traceable ruleSet (pushRequired el a).
Proof.
  intros Hin Hid Href (Hv & Hp & He). repeat split; simpl; try assumption.
  intros q Hq. apply elem_of_app in Hq as [Hq | Hq]; [now apply He |].
  apply list_elem_of_singleton in Hq as ->. now exists rule.
Qed.

Lemma traceable_warn (a : Acc) (ws : list string) :
  traceable ruleSet a -> traceable ruleSet (warn ws a).
Proof. intros H. exact H. Qed.

Lemma matches_fromRule (rule : Rule) (rec : option string) (ms : list Match) :
  Forall (fromRule rule) (map (matchViolation rule rec) ms).
Proof.
  apply Forall_forall. intros v Hv.
  apply list_elem_of_fmap in Hv as (m & -> & _).
  apply matchViolation_fromRule.
Qed.

Lemma checkCritical_traceable (fuel : nat) (txt : string) (a a' : Acc)
    (rule : Rule) :
  rule ∈ allRules ruleSet -> traceable ruleSet a ->
  checkCritical E fuel txt a rule = Some a' -> traceable ruleSet a'.
Proof.
  unfold checkCritical. intros Hin Ha H.
  destruct (findMatches E fuel txt rule) as [[ms ws] |]; [| discriminate].
  injection H as <-. destruct (0 <? length ms)%nat.
  - apply traceable_push_violations with (rule := rule);
      [exact Hin | apply matches_fromRule | exact Ha].
  - now apply traceable_push_passed with (rule := rule).
Qed.

Lemma checkTerminology_traceable (fuel : nat) (txt : string) (a a' : Acc)
    (rule : Rule) :
  rule ∈ allRules ruleSet -> traceable ruleSet a ->
  checkTerminology E fuel txt a rule = Some a' -> traceable ruleSet a'.
Proof.
  unfold checkTerminology. intros Hin Ha H.
  destruct (findMatches E fuel txt rule) as [[ms ws] |]; [| discriminate].
  injection H as <-. destruct (0 <? length ms)%nat.
  - apply traceable_push_violations with (rule := rule);
      [exact Hin | apply matches_fromRule | exact Ha].
  - now apply traceable_push_passed with (rule := rule).
Qed.

Lemma checkDisclaimer_traceable (fuel : nat) (txt : string) (a a' : Acc)
    (rule : Rule) :
  rule ∈ allRules ruleSet -> traceable ruleSet a ->
  checkDisclaimer E fuel txt a rule = Some a' -> traceable ruleSet a'.
Proof.
  unfold checkDisclaimer. intros Hin Ha H.
  destruct (findMatches E fuel txt rule) as [[ms ws] |]; [| discriminate].
  injection H as <-.
  destruct ((length ms =? 0)%nat && required rule).
  - apply traceable_push_violations with (rule := rule);
      [exact Hin | | exact Ha].
    constructor; [apply missingViolation_fromRule | constructor].
  - destruct (0 <? length ms)%nat; [| exact Ha].
    now apply traceable_push_required with (rule := rule).
Qed.

Lemma checkWeb_traceable (txt : string) (content : Content) (a a' : Acc)
    (rule : Rule) :
  rule ∈ allRules ruleSet -> traceable ruleSet a ->
  checkWeb E txt content a rule = Some a' -> traceable ruleSet a'.
Proof.
  unfold checkWeb. intros Hin Ha H.
  destruct (webCheck E txt content rule) as [fnd loc].
  injection H as <-.
  destruct (negb fnd && required rule).
  - apply traceable_push_violations with (rule := rule);
      [exact Hin | | exact Ha].
    constructor; [apply missingViolation_fromRule | constructor].
  - destruct fnd; [| exact Ha].
    apply traceable_push_passed with (rule := rule); try reflexivity;
      [exact Hin |].
    now apply traceable_push_required with (rule := rule).
Qed.

(** X6. Nothing in the output of the rule evaluation is made up: every
    violation carries the identifier, category, severity and reference
    of a rule of the rule set and no source mark, and every passed-rule
    record and required element carries the identifier and reference of
    a rule of the rule set. *)
Theorem every_finding_stems_from_a_rule (fuel : nat) (content : Content)
    (thePageType : string) (basic : Results) (ws : list string) :
  performBasicChecks E fuel ruleSet content thePageType = Some (basic, ws) ->
  (forall v, v ∈ violations basic ->
     exists rule, rule ∈ allRules ruleSet /\ fromRule rule v)
  /\ (forall p, p ∈ passed_rules basic ->
        exists rule, rule ∈ allRules ruleSet /\ pr_id p = r_id rule
                     /\ pr_asqa_reference p = r_asqa_reference rule)
  /\ (forall el, el ∈ required_elements basic ->
        exists rule, rule ∈ allRules ruleSet /\ re_id el = r_id rule
                     /\ re_asqa_reference el = r_asqa_reference rule).
Proof.
  intros Hrun.
  destruct (performBasicChecks_steps E _ _ _ _ _ _ Hrun)
    as (a1 & a2 & a3 & a4 & H1 & H2 & H3 & H4 & Hfin).
  set (txt := Js.opt_or_else (text content) "") in *.
  unfold finish in Hfin. injection Hfin as <- <-. simpl.
  change (traceable ruleSet a4).
  assert (T0 : traceable ruleSet emptyAcc).
  { repeat split; intros x Hx; inversion Hx. }
  assert (T1 : traceable ruleSet a1).
  { eapply (forEach_invariant_in (traceable ruleSet)); [| exact T0 | exact H1].
    intros s x s' Hx. apply checkCritical_traceable.
    unfold allRules. apply elem_of_app. now left. }
  assert (T2 : traceable ruleSet a2).
  { eapply (forEach_invariant_in (traceable ruleSet)); [| exact T1 | exact H2].
    intros s x s' Hx. apply checkTerminology_traceable.
    unfold allRules. apply elem_of_app. right. apply elem_of_app. now left. }
  assert (T3 : traceable ruleSet a3).
  { eapply (forEach_invariant_in (traceable ruleSet)); [| exact T2 | exact H3].
    intros s x s' Hx. apply checkDisclaimer_traceable.
    unfold allRules. apply elem_of_app. right. apply elem_of_app. right.
    apply elem_of_app. now left. }
  eapply (forEach_invariant_in (traceable ruleSet)); [| exact T3 | exact H4].
  intros s x s' Hx. apply checkWeb_traceable.
  unfold allRules. apply elem_of_app. right. apply elem_of_app. right.
  apply elem_of_app. now right.
Qed.



End Provenance.

(** * Further properties of the router *)

Lemma log_trace (ev : Event) (st : RouterState) :
  trace (log ev st) = (trace st ++ [ev])%list.
Proof. reflexivity. Qed.

Lemma tryFallback_trace (R : Router) (role : string) (fn : option string)
    (prompt : string) (options : Options) (st : RouterState) :
  exists evs,
    trace (snd (tryFallback R role fn prompt options st))
    = (trace st ++ evs)%list
    /\ (evs = [] \/ evs = [EvGenerate (Js.key_of fn)]).
Proof.
  destruct (tryFallback_cases R role fn prompt options st)
    as [[_ ->] | (fc & _ & _ & ->)].
  - exists []. simpl. rewrite app_nil_r. split; [reflexivity | now left].
  - exists [EvGenerate (Js.key_of fn)]. split; [| now right].
    destruct (generateText fc prompt options); simpl;
      [reflexivity | now rewrite trackUsage_trace].
Qed.

(** X8. A call makes at most one request per tier and never repeats
    one: the events it adds are nothing, one request, or the request to
    the primary, the warning for its failure and then at most one
    request to the fallback.  What was in the trace stays there. *)
Theorem at_most_one_request_per_tier (R : Router) (role prompt : string)
    (options : Options) (st : RouterState) :
  let run := callWithFailover R role prompt options st in
  let evs := new_events st (snd run) in
  trace (snd run) = (trace st ++ evs)%list
  /\ (requestCount evs <= 2)%nat
  /\ (roles (config R) !! role = None -> evs = [])
  /\ forall rc,
       roles (config R) !! role = Some rc ->
       let p := Js.key_of (primaryClientName R rc) in
       let f := Js.key_of (fallbackClientName R rc) in
       evs = []
       \/ evs = [EvGenerate p]
       \/ evs = [EvGenerate f]
       \/ evs = [EvGenerate p; EvWarn (p +:+ " failed")]
       \/ evs = [EvGenerate p; EvWarn (p +:+ " failed"); EvGenerate f].
Proof.
  intros run evs.
  assert (Hshape :
    exists l, trace (snd run) = (trace st ++ l)%list
      /\ (roles (config R) !! role = None -> l = [])
      /\ forall rc,
           roles (config R) !! role = Some rc ->
           let p := Js.key_of (primaryClientName R rc) in
           let f := Js.key_of (fallbackClientName R rc) in
           l = [] \/ l = [EvGenerate p] \/ l = [EvGenerate f]
           \/ l = [EvGenerate p; EvWarn (p +:+ " failed")]
           \/ l = [EvGenerate p; EvWarn (p +:+ " failed"); EvGenerate f]).
  { unfold run, callWithFailover.
    destruct (roles (config R) !! role) as [rc |] eqn:Hrole.
    - set (pn := primaryClientName R rc). set (fn := fallbackClientName R rc).
      assert (Hskip :
        exists l, trace (snd (tryFallback R role fn prompt options st))
                  = (trace st ++ l)%list
          /\ (l = [] \/ l = [EvGenerate (Js.key_of fn)])).
      { apply tryFallback_trace. }
      destruct (getClient R pn) as [pc |].
      + destruct (isConfigured pc).
        * destruct (generateText pc prompt options) as [e | r].
          -- destruct (tryFallback_trace R role fn prompt options
                         (log (EvWarn (Js.key_of pn +:+ " failed"))
                            (log (EvGenerate (Js.key_of pn)) st)))
               as (l & Hl & Hcase).
             exists ([EvGenerate (Js.key_of pn);
                      EvWarn (Js.key_of pn +:+ " failed")] ++ l)%list.
             split; [| split].
             ++ rewrite Hl. simpl. now rewrite <- !app_assoc.
             ++ discriminate.
             ++ intros rc' [= <-]. fold pn fn. cbv zeta.
                destruct Hcase as [-> | ->]; simpl; tauto.
          -- exists [EvGenerate (Js.key_of pn)]. split; [| split].
             ++ simpl. now rewrite trackUsage_trace.
             ++ discriminate.
             ++ intros rc' [= <-]. fold pn. cbv zeta. tauto.
        * destruct Hskip as (l & Hl & Hcase). exists l. split; [exact Hl |].
          split; [discriminate |].
          intros rc' [= <-]. fold pn fn. cbv zeta.
          destruct Hcase as [-> | ->]; tauto.
      + destruct Hskip as (l & Hl & Hcase). exists l. split; [exact Hl |].
        split; [discriminate |].
        intros rc' [= <-]. fold pn fn. cbv zeta.
        destruct Hcase as [-> | ->]; tauto.
    - exists []. simpl. rewrite app_nil_r. split; [reflexivity |].
      split; [reflexivity | discriminate]. }
  destruct Hshape as (l & Htrace & Hnone & Hsome).
  assert (Hevs : evs = l) by (apply new_events_app; exact Htrace).
  rewrite Hevs. split; [exact Htrace |]. split; [| split].
  - destruct (roles (config R) !! role) as [rc |] eqn:Hrole.
    + destruct (Hsome rc eq_refl) as [-> | [-> | [-> | [-> | ->]]]];
        vm_compute; lia.
    + rewrite (Hnone eq_refl). vm_compute. lia.
  - exact Hnone.
  - exact Hsome.
Qed.

(** ** Usage statistics *)

Lemma trackUsage_calls (R : Router) (name : string) (usage : option Usage)
    (st : RouterState) :
  callsOf (trackUsage R name usage st) name = (callsOf st name + 1)%N.
Proof.
  unfold callsOf, trackUsage.
  destruct usage as [u |]; [destruct (clients R !! name) |]; simpl;
    now rewrite lookup_insert_eq.
Qed.

Lemma trackUsage_others (R : Router) (name other : string)
    (usage : option Usage) (st : RouterState) :
  other <> name ->
  usageStats (trackUsage R name usage st) !! other = usageStats st !! other.
Proof.
  intros Hne. unfold trackUsage.
  destruct usage as [u |]; [destruct (clients R !! name) |]; simpl;
    now rewrite lookup_insert_ne.
Qed.

(** The outcomes of a call: it throws and leaves the statistics as
    they were, or it returns the answer of one client and tracks the
    usage of that answer, the request being the last event. *)
Lemma callWithFailover_outcomes (R : Router) (role prompt : string)
    (options : Options) (st : RouterState) :
  let run := callWithFailover R role prompt options st in
  (exists e, fst run = Threw e
             /\ usageStats (snd run) = usageStats st
             /\ totalCost (snd run) = totalCost st)
  \/ (exists name r st1 before,
        run = (Returned (normalize r),
               trackUsage R name (res_usage r) st1)
        /\ usageStats st1 = usageStats st
        /\ totalCost st1 = totalCost st
        /\ trace st1 = (trace st ++ before ++ [EvGenerate name])%list).
Proof.
  assert (Hfb : forall fn st0 before,
             usageStats st0 = usageStats st -> totalCost st0 = totalCost st ->
             trace st0 = (trace st ++ before)%list ->
             let run := tryFallback R role fn prompt options st0 in
             (exists e, fst run = Threw e
                        /\ usageStats (snd run) = usageStats st
                        /\ totalCost (snd run) = totalCost st)
             \/ (exists name r st1 before',
                   run = (Returned (normalize r),
                          trackUsage R name (res_usage r) st1)
                   /\ usageStats st1 = usageStats st
                   /\ totalCost st1 = totalCost st
                   /\ trace st1
                      = (trace st ++ before' ++ [EvGenerate name])%list)).
  { intros fn st0 before Hu Hc Ht. cbv zeta.
    destruct (tryFallback_cases R role fn prompt options st0)
      as [[_ ->] | (fc & _ & _ & ->)].
    - left. eexists. repeat split; assumption.
    - destruct (generateText fc prompt options) as [e | r].
      + left. exists e. repeat split; assumption.
      + right. exists (Js.key_of fn), r,
          (log (EvGenerate (Js.key_of fn)) st0), before.
        repeat split; try assumption.
        rewrite log_trace, Ht. now rewrite <- app_assoc. }
  cbv zeta. unfold callWithFailover.
  destruct (roles (config R) !! role) as [rc |].
  - destruct (getClient R (primaryClientName R rc)) as [pc |].
    + destruct (isConfigured pc).
      * destruct (generateText pc prompt options) as [e | r].
        -- apply (Hfb _ _ [EvGenerate (Js.key_of (primaryClientName R rc));
                           EvWarn (Js.key_of (primaryClientName R rc)
                                   +:+ " failed")]);
             try reflexivity.
           rewrite !log_trace. now rewrite <- app_assoc.
        -- right. exists (Js.key_of (primaryClientName R rc)), r,
             (log (EvGenerate (Js.key_of (primaryClientName R rc))) st), [].
           repeat split.
      * apply (Hfb _ _ []); try reflexivity. now rewrite app_nil_r.
    + apply (Hfb _ _ []); try reflexivity. now rewrite app_nil_r.
  - left. eexists. repeat split.
Qed.

(** X9. Usage is recorded for answered calls only.  A call that throws
    leaves the statistics and the total cost as they were; a call that
    returns adds exactly one call to the client whose request came
    last, and leaves the statistics of every other client alone. *)
Theorem usage_is_recorded_for_answers_only (R : Router) (role prompt : string)
    (options : Options) (st : RouterState) :
  let run := callWithFailover R role prompt options st in
  (forall e, fst run = Threw e ->
     usageStats (snd run) = usageStats st
     /\ totalCost (snd run) = totalCost st)
  /\ (forall result, fst run = Returned result ->
        exists name,
          last (new_events st (snd run)) = Some (EvGenerate name)
          /\ callsOf (snd run) name = (callsOf st name + 1)%N
          /\ forall other, other <> name ->
               usageStats (snd run) !! other = usageStats st !! other).
Proof.
  cbv zeta.
  destruct (callWithFailover_outcomes R role prompt options st)
    as [(e & He & Hu & Hc) | (name & r & st1 & before & Hrun & Hu & Hc & Ht)].
  - split; [intros _ _; split; assumption |].
    intros result Hres. congruence.
  - rewrite Hrun. simpl. split; [discriminate |].
    intros result _. exists name. split; [| split].
    + rewrite (new_events_app st _ (before ++ [EvGenerate name])).
      * apply last_snoc.
      * now rewrite trackUsage_trace.
    + rewrite trackUsage_calls. unfold callsOf. now rewrite Hu.
    + intros other Hne. rewrite trackUsage_others by exact Hne.
      now rewrite Hu.
Qed.

Lemma Qle_plus_nonneg (a b c : Q) :
  (a <= b)%Q -> (0 <= c)%Q -> (a <= b + c)%Q.
Proof.
  intros Hab Hc. rewrite <- (Qplus_0_r a). apply Qplus_le_compat; assumption.
Qed.

Lemma trackCost_covered (name : string) (c : Q) (st : RouterState) :
  (0 <= c)%Q -> covered st -> covered (trackCost name c st).
Proof.
  intros Hc [Htot Hall]. unfold covered, trackCost. simpl. split.
  - apply Qle_plus_nonneg; assumption.
  - intros other s Hs. apply lookup_insert_Some in Hs as [[_ <-] | [_ Hs]].
    + simpl. apply Qplus_le_compat; [| apply Qle_refl].
      destruct (usageStats st !! name) as [s0 |] eqn:H0; simpl;
        [exact (Hall _ _ H0) | exact Htot].
    + apply Qle_plus_nonneg; [exact (Hall _ _ Hs) | exact Hc].
Qed.

Lemma trackUsage_covered (R : Router) (name : string) (usage : option Usage)
    (st : RouterState) :
  costsNonnegative R -> covered st -> covered (trackUsage R name usage st).
Proof.
  intros Hcost [Htot Hall].
  assert (H0 : (cost (default (mkStats 0 0 0) (usageStats st !! name))
                <= totalCost st)%Q).
  { destruct (usageStats st !! name) as [s0 |] eqn:E; simpl;
      [exact (Hall _ _ E) | exact Htot]. }
  unfold covered, trackUsage.
  destruct usage as [u |]; [destruct (clients R !! name) as [client |] eqn:Hcl |];
    simpl; split; try exact Htot.
  - apply Qle_plus_nonneg; [exact Htot | exact (Hcost _ _ u Hcl)].
  - intros other s Hs. apply lookup_insert_Some in Hs as [[_ <-] | [_ Hs]].
    + simpl. apply Qplus_le_compat; [exact H0 | apply Qle_refl].
    + apply Qle_plus_nonneg; [exact (Hall _ _ Hs) | exact (Hcost _ _ u Hcl)].
  - intros other s Hs. apply lookup_insert_Some in Hs as [[_ <-] | [_ Hs]];
      [exact H0 | exact (Hall _ _ Hs)].
  - intros other s Hs. apply lookup_insert_Some in Hs as [[_ <-] | [_ Hs]];
      [exact H0 | exact (Hall _ _ Hs)].
Qed.

Lemma trackCost_chargedOnly (name : string) (c : Q) (st : RouterState) :
  chargedOnly name st -> chargedOnly name (trackCost name c st).
Proof.
  intros [[Hu Ht] | (s & Hu & Ht)]; right; unfold trackCost; simpl;
    rewrite Hu, Ht.
  - rewrite lookup_empty, insert_empty. simpl. eexists.
    split; reflexivity.
  - rewrite lookup_singleton_eq, insert_singleton_eq. simpl. eexists.
    split; reflexivity.
Qed.

Lemma trackUsage_chargedOnly (R : Router) (name : string)
    (usage : option Usage) (st : RouterState) :
  chargedOnly name st -> chargedOnly name (trackUsage R name usage st).
Proof.
  intros [[Hu Ht] | (s & Hu & Ht)]; right; unfold trackUsage;
    destruct usage as [u |]; [destruct (clients R !! name) | | destruct (clients R !! name) |];
    simpl; rewrite Hu, Ht;
    rewrite ?lookup_empty, ?insert_empty, ?lookup_singleton_eq,
      ?insert_singleton_eq; simpl; eexists; split; reflexivity.
Qed.

(** X10. The total cost of a router covers every client: when no client
    computes a negative cost, the total is not negative and the cost
    recorded for a client never exceeds it; this holds after
    [resetStats], and [trackUsage], [trackCost] with a cost that is not
    negative, [callWithFailover] and [generateImage] keep it.  As long
    as one client alone is charged, the total cost is the cost recorded
    for that client: both are the result of the same additions.  The
    client names are names that no object inherits. *)
Theorem total_cost_covers_every_client (R : Router) (st : RouterState) :
  costsNonnegative R ->
  covered (resetStats st)
  /\ (covered st ->
      (forall name usage,
         Js.inheritedName name = false ->
         covered (trackUsage R name usage st))
      /\ (forall name c,
            Js.inheritedName name = false -> (0 <= c)%Q ->
            covered (trackCost name c st))
      /\ (forall role prompt options,
            covered (snd (callWithFailover R role prompt options st)))
      /\ (forall requestImage prompt size,
            covered (snd (generateImage R requestImage prompt size st))))
  /\ (forall name,
        Js.inheritedName name = false ->
        chargedOnly name (resetStats st)
        /\ (chargedOnly name st ->
            (forall usage, chargedOnly name (trackUsage R name usage st))
            /\ (forall c, chargedOnly name (trackCost name c st)))).
Proof.
  intros Hcost. split; [| split].
  - split; [simpl; discriminate |].
    intros name s Hs. simpl in Hs. rewrite lookup_empty in Hs.
    discriminate Hs.
  - intros Hb. split; [| split; [| split]].
    + intros name usage _. now apply trackUsage_covered.
    + intros name c _ Hc. now apply trackCost_covered.
    + intros role prompt options.
      destruct (callWithFailover_outcomes R role prompt options st)
        as [(e & _ & Hu & Hc) | (name & r & st1 & before & -> & Hu & Hc & _)].
      * unfold covered. now rewrite Hu, Hc.
      * simpl. apply trackUsage_covered; [exact Hcost |].
        unfold covered. now rewrite Hu, Hc.
    + intros requestImage prompt size. unfold generateImage.
      destruct (clients R !! "openai") as [client |]; [| exact Hb].
      destruct (isConfigured client); simpl; [| exact Hb].
      destruct (requestImage prompt); simpl; [exact Hb |].
      apply trackCost_covered; [| exact Hb].
      unfold calculateImageCost, Js.num_or_else.
      repeat match goal with
             | |- context [if ?b then _ else _] => destruct b
             end; discriminate.
  - intros name _. split; [left; split; reflexivity |].
    intros Hs. split.
    + intros usage. now apply trackUsage_chargedOnly.
    + intros c. now apply trackCost_chargedOnly.
Qed.

Lemma sample_costs_nonnegative (a b : Client) :
  (forall u, (0 <= calculateCost a u)%Q) ->
  (forall u, (0 <= calculateCost b u)%Q) ->
  costsNonnegative (Sample.router a b).
Proof.
  intros Ha Hb name client u Hcl. simpl in Hcl.
  apply lookup_insert_Some in Hcl as [[_ <-] | [_ Hcl]]; [apply Ha |].
  apply lookup_singleton_Some in Hcl as [_ <-]. apply Hb.
Qed.

Lemma total_cost_covers_every_client_witness :
  covered
    (snd (callWithFailover
            (Sample.router (Sample.failing "overloaded") (Sample.answering "ok"))
            "COMPLIANCE" "prompt" Sample.noOptions Sample.idle)).
Proof.
  apply (total_cost_covers_every_client
           (Sample.router (Sample.failing "overloaded") (Sample.answering "ok"))
           Sample.idle).
  - apply sample_costs_nonnegative; intros u; vm_compute; discriminate.
  - split; [vm_compute; discriminate |].
    intros name s Hs. simpl in Hs. rewrite lookup_empty in Hs.
    discriminate Hs.
Defined.

(** X11. The statistics only grow: when no client computes a negative
    cost, a call never lowers the total cost, and it never lowers the
    number of calls recorded for a client. *)
Theorem statistics_only_grow (R : Router) (role prompt : string)
    (options : Options) (st : RouterState) :
  costsNonnegative R ->
  let st' := snd (callWithFailover R role prompt options st) in
  (totalCost st <= totalCost st')%Q
  /\ forall name, (callsOf st name <= callsOf st' name)%N.
Proof.
  intros Hcost. cbv zeta.
  destruct (callWithFailover_outcomes R role prompt options st)
    as [(e & _ & Hu & Hc) | (name & r & st1 & before & -> & Hu & Hc & _)].
  - split; [rewrite Hc; apply Qle_refl |].
    intros name. unfold callsOf. rewrite Hu. lia.
  - simpl. split.
    + unfold trackUsage.
      destruct (res_usage r) as [u |];
        [destruct (clients R !! name) as [client |] eqn:Hcl |]; simpl;
        rewrite Hc; try apply Qle_refl.
      rewrite <- (Qplus_0_r (totalCost st)) at 1.
      apply Qplus_le_r. exact (Hcost name client u Hcl).
    + intros other. destruct (decide (other = name)) as [-> | Hne].
      * rewrite trackUsage_calls. unfold callsOf. rewrite Hu. lia.
      * unfold callsOf. rewrite trackUsage_others by exact Hne.
        rewrite Hu. lia.
Qed.

Lemma statistics_only_grow_witness :
  (totalCost Sample.idle
   <= totalCost
        (snd (callWithFailover
                (Sample.router Sample.keyless (Sample.answering "ok"))
                "COMPLIANCE" "prompt" Sample.noOptions Sample.idle)))%Q.
Proof.
  apply (statistics_only_grow
           (Sample.router Sample.keyless (Sample.answering "ok"))
           "COMPLIANCE" "prompt" Sample.noOptions Sample.idle).
  intros name client u H. unfold Sample.router in H. simpl in H.
  apply lookup_insert_Some in H as [[_ <-] | [_ H]]; [discriminate |].
  apply lookup_singleton_Some in H as [_ <-]. discriminate.
Defined.

(** ** Cost of a role *)

(** X12. The cost computed for a role agrees with the cost that a call
    records, when the primary model key of the role is the name of its
    client in both readings, that is when neither [config.models] nor
    the table of [calculateCost] renames it: what [calculateCost]
    returns for a usage is what [trackUsage] adds to the total cost for
    an answer of the primary with that usage.  For a name that is not a
    role it throws, as [callWithFailover] does. *)
Theorem role_cost_matches_tracking (R : Router) (role : string)
    (rc : RoleConfig) (u : Usage) (c : Q) (st : RouterState) :
  roles (config R) !! role = Some rc ->
  let key := Js.opt_or (primary rc) (primary_model rc) in
  models (config R) !! Js.key_of key = None ->
  modelToClient (Js.key_of key) = None ->
  calculateRoleCost R role u = Returned c ->
  configured R (primaryClientName R rc) = true
  /\ totalCost (trackUsage R (Js.key_of (primaryClientName R rc)) (Some u) st)
     = (totalCost st + c)%Q.
Proof.
  intros Hrole key Hmodels Htable Hcost.
  assert (Hname : costClientName rc = primaryClientName R rc).
  { unfold costClientName, primaryClientName, clientNameOf. fold key.
    now rewrite Hmodels, Htable. }
  unfold calculateRoleCost in Hcost. rewrite Hrole, Hname in Hcost.
  unfold configured, trackUsage.
  unfold getClient in *.
  destruct (clients R !! Js.key_of (primaryClientName R rc)) as [client |];
    [| discriminate].
  destruct (isConfigured client); [| discriminate].
  injection Hcost as <-. split; reflexivity.
Qed.

Lemma role_cost_matches_tracking_witness :
  totalCost
    (trackUsage (Sample.router (Sample.answering "ok") Sample.keyless)
       "claude" (Some (mkUsage (Some 30%N) None None None None)) Sample.idle)
  = (totalCost Sample.idle + (1 # 100))%Q.
Proof.
  exact (proj2 (role_cost_matches_tracking
                  (Sample.router (Sample.answering "ok") Sample.keyless)
                  "COMPLIANCE"
                  (mkRoleConfig (Some "claude") None (Some "openai") None)
                  (mkUsage (Some 30%N) None None None None) (1 # 100)%Q
                  Sample.idle eq_refl eq_refl eq_refl eq_refl)).
Defined.

(** ** Construction of the router *)

Lemma resolveEntries_spec (reg : Registry) (entries : list (string * ModelEntry)) :
  match resolveEntries (reg_models reg) entries with
  | Threw _ => reg_models reg = None /\ Exists hasReference entries
  | Returned (entries', ws) =>
      Forall2 (resolvedFrom reg) entries entries'
      /\ (Exists hasReference entries -> reg_models reg <> None)
  end.
Proof.
  induction entries as [| [k e] entries IH]; simpl.
  - split; [constructor | intros H; inversion H].
  - destruct (Js.opt_truthy (me_model_ref e)) eqn:Href.
    + destruct (reg_models reg) as [rm |] eqn:Hrm.
      * destruct (resolveEntries (Some rm) entries) as [err | [rest' ws']].
        -- destruct IH as [IH _]. discriminate.
        -- destruct IH as [IH _].
           destruct (lookupRef rm (Js.key_of (me_model_ref e))) as [id |]
             eqn:Hid.
           ++ split; [| discriminate]. constructor; [| exact IH].
              unfold resolvedFrom. cbn [fst snd me_provider me_model_ref
                                        me_model_id].
              rewrite Href, Hrm. cbn [mbind option_bind]. rewrite Hid.
              repeat split.
           ++ split; [| discriminate]. constructor; [| exact IH].
              unfold resolvedFrom. cbn [fst snd me_provider me_model_ref
                                        me_model_id].
              rewrite Href, Hrm. cbn [mbind option_bind]. rewrite Hid.
              repeat split.
      * split; [reflexivity |]. apply Exists_cons_hd. exact Href.
    + destruct (resolveEntries (reg_models reg) entries)
        as [err | [rest' ws']].
      * destruct IH as [Hn Hex]. split; [exact Hn |].
        now apply Exists_cons_tl.
      * destruct IH as [IH Hex]. split.
        -- constructor; [| exact IH].
           unfold resolvedFrom. cbn [fst snd me_provider me_model_ref
                                     me_model_id].
           rewrite Href. repeat split.
        -- intros H. inversion H as [? ? Hh | ? ? Ht]; subst.
           ++ unfold hasReference in Hh. simpl in Hh. congruence.
           ++ now apply Hex.
Qed.

Lemma routingModels_resolved (reg : Registry)
    (entries entries' : list (string * ModelEntry)) :
  Forall2 (resolvedFrom reg) entries entries' ->
  routingModels entries' = routingModels entries.
Proof.
  unfold routingModels. intros H. f_equal.
  induction H as [| x y l l' Hxy _ IH]; simpl; [reflexivity |].
  destruct Hxy as (Hk & Hp & Hr & _). now rewrite Hk, Hp, Hr, IH.
Qed.

(** X13. A router can only be constructed from a configuration file
    that has [models]: without the file the default configuration is
    taken, which has none, and the constructor throws.  If an entry of
    [models] refers to the registry, the registry file must be there
    and have [models] as well. *)
Theorem construction_needs_the_files (theClients : gmap string Client)
    (configFile : option ConfigFile) (registryFile : option Registry)
    (c : Constructed) :
  newRouter theClients configFile registryFile = Returned c ->
  exists cf entries,
    configFile = Some cf /\ cf_models cf = Some entries
    /\ (Exists hasReference entries ->
        exists reg rm, registryFile = Some reg /\ reg_models reg = Some rm).
Proof.
  unfold newRouter, resolveModelReferences. intros H.
  destruct configFile as [cf |]; simpl in H; [| discriminate].
  destruct (cf_models cf) as [entries |] eqn:Hm; [| discriminate].
  exists cf, entries. split; [reflexivity |]. split; [exact Hm |].
  intros Hex.
  pose proof (resolveEntries_spec (default (mkRegistry None []) registryFile)
                entries) as Hspec.
  destruct (resolveEntries
              (reg_models (default (mkRegistry None []) registryFile)) entries)
    as [err | [entries' ws]]; [simpl in H; discriminate |].
  destruct Hspec as [_ Hreg]. specialize (Hreg Hex).
  destruct registryFile as [reg |]; simpl in Hreg; [| congruence].
  destruct (reg_models reg) as [rm |] eqn:Hrm; [| congruence].
  now exists reg, rm.
Qed.

(** X14. Resolving the model references changes no route: a
    constructed router has the clients it was given, the roles of the
    file and empty statistics, and its entries are those of the file
    with the same keys, providers and references, so that
    [callWithFailover] reads from them what it would read from the
    file.  Each entry holds the identifier that the registry has for
    its reference, or else the one it had. *)
Theorem resolution_keeps_the_routes (theClients : gmap string Client)
    (cf : ConfigFile) (entries : list (string * ModelEntry))
    (registryFile : option Registry) (c : Constructed) :
  cf_models cf = Some entries ->
  newRouter theClients (Some cf) registryFile = Returned c ->
  clients (built c) = theClients
  /\ roles (config (built c)) = cf_roles cf
  /\ models (config (built c)) = routingModels entries
  /\ Forall2 (resolvedFrom (default (mkRegistry None []) registryFile))
       entries (resolved c)
  /\ initial c = mkRouterState ∅ 0%Q []
  /\ forall rc,
       primaryClientName (built c) rc
       = clientNameOf (mkRouter theClients
                         (mkRouterConfig (cf_roles cf) (routingModels entries)))
           (Js.opt_or (primary rc) (primary_model rc)).
Proof.
  unfold newRouter, resolveModelReferences. intros Hm H. simpl in H.
  rewrite Hm in H.
  pose proof (resolveEntries_spec (default (mkRegistry None []) registryFile)
                entries) as Hspec.
  destruct (resolveEntries
              (reg_models (default (mkRegistry None []) registryFile)) entries)
    as [err | [entries' ws]]; [simpl in H; discriminate |].
  destruct Hspec as [Hres _]. simpl in H. injection H as <-. simpl.
  pose proof (routingModels_resolved _ _ _ Hres) as Hroute.
  repeat split; try assumption.
  intros rc. unfold primaryClientName, clientNameOf. simpl.
  now rewrite Hroute.
Qed.

Lemma construction_needs_the_files_witness :
  exists cf entries,
    Some Demo.configFile = Some cf /\ cf_models cf = Some entries
    /\ (Exists hasReference entries ->
        exists reg rm, Some Demo.registry = Some reg
                       /\ reg_models reg = Some rm).
Proof.
  apply (construction_needs_the_files Demo.theClients (Some Demo.configFile)
           (Some Demo.registry) Demo.constructed).
  vm_compute. reflexivity.
Defined.

Lemma resolution_keeps_the_routes_witness :
  models (config (built Demo.constructed)) = routingModels Demo.entries
  /\ primaryClientName (built Demo.constructed)
       (mkRoleConfig (Some "claude_sonnet") None (Some "gpt4_turbo") None)
     = Some "claude".
Proof.
  destruct (resolution_keeps_the_routes Demo.theClients Demo.configFile
              Demo.entries (Some Demo.registry) Demo.constructed eq_refl)
    as (_ & _ & Hm & _ & _ & Hp).
  - vm_compute. reflexivity.
  - split; [exact Hm |]. rewrite Hp. vm_compute. reflexivity.
Defined.

Lemma every_rule_is_accounted_for_witness :
  exists basic ws,
    performBasicChecks Sample.engine 100 Demo.ruleSet Sample.page "general"
    = Some (basic, ws)
    /\ ((exists v, v ∈ violations basic /\ fromRule Sample.job_rule v)
        \/ (exists p, p ∈ passed_rules basic
                      /\ pr_id p = r_id Sample.job_rule)).
Proof.
  destruct (performBasicChecks Sample.engine 100 Demo.ruleSet Sample.page
              "general") as [[basic ws] |] eqn:Hrun;
    [| vm_compute in Hrun; discriminate Hrun].
  exists basic, ws. split; [reflexivity |].
  apply (proj1 (every_rule_is_accounted_for Sample.engine 100 Demo.ruleSet
                  Sample.page "general" basic ws Hrun)).
  apply list_elem_of_here.
Defined.

Lemma every_finding_stems_from_a_rule_witness :
  exists basic ws,
    performBasicChecks Sample.engine 100 Demo.ruleSet Sample.page "general"
    = Some (basic, ws)
    /\ forall v, v ∈ violations basic ->
         exists rule, rule ∈ allRules Demo.ruleSet /\ fromRule rule v.
Proof.
  destruct (performBasicChecks Sample.engine 100 Demo.ruleSet Sample.page
              "general") as [[basic ws] |] eqn:Hrun;
    [| vm_compute in Hrun; discriminate Hrun].
  exists basic, ws. split; [reflexivity |].
  exact (proj1 (every_finding_stems_from_a_rule Sample.engine Demo.ruleSet 100
                  Sample.page "general" basic ws Hrun)).
Defined.


(** ** A check without AI *)

Lemma logWarnings_trace (ws : list string) (st : RouterState) :
  trace (logWarnings ws st) = (trace st ++ map EvWarn ws)%list
  /\ usageStats (logWarnings ws st) = usageStats st
  /\ totalCost (logWarnings ws st) = totalCost st.
Proof.
  unfold logWarnings. revert st.
  induction ws as [| w ws IH]; intros st; simpl.
  - rewrite app_nil_r. auto.
  - destruct (IH (log (EvWarn w) st)) as (Ht & Hu & Hc).
    rewrite Ht, Hu, Hc, log_trace. unfold log. simpl.
    rewrite <- app_assoc. auto.
Qed.

Lemma requestCount_warnings (ws : list string) :
  requestCount (map EvWarn ws) = 0%nat.
Proof.
  unfold requestCount. induction ws as [| w ws IH]; [reflexivity |].
  simpl. rewrite filter_cons_False; [exact IH | simpl; discriminate].
Qed.

(** X15.  A check for which AI is switched off ([useAI] false), or for
    which neither the claude nor the openai client has a key, sends no
    request to any provider, leaves the usage statistics and the total
    cost as they were, and every result it returns has [ai_analysis]
    null. *)
Theorem no_request_without_ai (env : Env) (E : RegexEngine) (R : Router)
    (fuel : nat) (content : Content) (options : CheckOptions)
    (st st' : CheckerState) (out : Outcome ComplianceResult) :
  default true (useAI options) = false \/ isAIConfigured R = false ->
  checkCompliance env E R fuel content options st = Some (out, st') ->
  requestCount (new_events (routerState st) (routerState st')) = 0%nat
  /\ usageStats (routerState st') = usageStats (routerState st)
  /\ totalCost (routerState st') = totalCost (routerState st)
  /\ forall r, out = Returned r -> ai_analysis r = None.
Proof.
  intros Hoff Hrun. unfold checkCompliance in Hrun.
  destruct (match rules st with
            | Some r => Returned r
            | None => loadRules env
            end) as [e | ruleSet].
  { injection Hrun as <- <-. rewrite new_events_same.
    repeat split. intros r Hr. discriminate Hr. }
  destruct (performBasicChecks E fuel ruleSet content
              (default "general" (pageType options)))
    as [[basic ws] |]; [| discriminate Hrun].
  simpl in Hrun. unfold aiStep in Hrun.
  assert (Hcond : default true (useAI options) && isAIConfigured R = false).
  { destruct Hoff as [-> | ->]; [reflexivity | apply andb_false_r]. }
  rewrite Hcond in Hrun.
  destruct (logWarnings_trace ws (routerState st)) as (Ht & Hu & Hc).
  assert (Hev : new_events (routerState st)
                  (logWarnings ws (routerState st)) = map EvWarn ws).
  { apply new_events_app. exact Ht. }
  destruct (combineResults basic None) as [e | combined];
    injection Hrun as <- <-; simpl; rewrite Hev, requestCount_warnings;
    repeat split; try assumption.
  - intros r Hr. discriminate Hr.
  - intros r Hr. injection Hr as <-. reflexivity.
Qed.

Lemma no_request_without_ai_witness :
  exists out st',
    checkCompliance Sample.env Sample.engine Demo.offline 100 Sample.page
      Sample.defaults Sample.fresh = Some (out, st')
    /\ requestCount (new_events (routerState Sample.fresh) (routerState st'))
       = 0%nat.
Proof.
  destruct (checkCompliance Sample.env Sample.engine Demo.offline 100
              Sample.page Sample.defaults Sample.fresh)
    as [[out st'] |] eqn:Hrun; [| vm_compute in Hrun; discriminate Hrun].
  exists out, st'. split; [reflexivity |].
  apply (no_request_without_ai Sample.env Sample.engine Demo.offline 100
           Sample.page Sample.defaults Sample.fresh st' out).
  - right. vm_compute. reflexivity.
  - exact Hrun.
Defined.

(** ** Batches of pages *)

Section Batch.

Variable env : Env.
Variable E : RegexEngine.
Variable R : Router.
Variable extractContent : string -> Outcome ScrapedPage.

Lemma findMatches_within (fuel : nat) (txt : string) (rule : Rule) :
  progressive E -> (String.length txt < fuel)%nat ->
  is_Some (findMatches E fuel txt rule).
Proof.
  intros Hprog Hlt. unfold findMatches.
  destruct (negb (Js.opt_truthy (pattern rule)) || negb (Js.truthy txt));
    [eauto |].
  destruct (compile E _ _) as [re |]; [| eauto].
  destruct (execLoop_ends E Hprog re txt fuel 0 []) as [ms ->];
    [lia | lia | eauto].
Qed.

Lemma performBasicChecks_within (fuel : nat) (ruleSet : RuleSet)
    (content : Content) (thePageType : string) :
  progressive E ->
  (String.length (Js.opt_or_else (text content) "") < fuel)%nat ->
  is_Some (performBasicChecks E fuel ruleSet content thePageType).
Proof.
  intros Hprog Hlt. unfold performBasicChecks.
  set (txt := Js.opt_or_else (text content) "") in *.
  destruct (forEach_total (checkCritical E fuel txt)
              (critical_violations ruleSet)) with (s := emptyAcc)
    as [a1 ->].
  { intros s x. unfold checkCritical.
    destruct (findMatches_within fuel txt x Hprog Hlt) as [[ms ws] ->].
    eauto. }
  simpl.
  destruct (forEach_total (checkTerminology E fuel txt)
              (required_terminology ruleSet)) with (s := a1) as [a2 ->].
  { intros s x. unfold checkTerminology.
    destruct (findMatches_within fuel txt x Hprog Hlt) as [[ms ws] ->].
    eauto. }
  simpl.
  destruct (forEach_total (checkDisclaimer E fuel txt)
              (required_disclaimers ruleSet)) with (s := a2) as [a3 ->].
  { intros s x. unfold checkDisclaimer.
    destruct (findMatches_within fuel txt x Hprog Hlt) as [[ms ws] ->].
    eauto. }
  simpl.
  destruct (forEach_total (checkWeb E txt content)
              (web_specific_requirements ruleSet)) with (s := a3)
    as [a4 ->].
  { intros s x. unfold checkWeb.
    destruct (webCheck E txt content x). eauto. }
  simpl. eauto.
Qed.

Lemma checkCompliance_within (fuel : nat) (content : Content)
    (options : CheckOptions) (st : CheckerState) :
  progressive E ->
  (String.length (Js.opt_or_else (text content) "") < fuel)%nat ->
  is_Some (checkCompliance env E R fuel content options st).
Proof.
  intros Hprog Hlt. unfold checkCompliance.
  destruct (match rules st with
            | Some r => Returned r
            | None => loadRules env
            end) as [e | ruleSet]; [eauto |].
  destruct (performBasicChecks_within fuel ruleSet content
              (default "general" (pageType options)) Hprog Hlt)
    as [[basic ws] ->].
  simpl.
  destruct (aiStep env R content (default "general" (pageType options))
              (default true (useAI options))
              (logWarnings ws (routerState st))) as [aiResults rst].
  destruct (combineResults basic aiResults); eauto.
Qed.

Lemma checkCompliance_address (fuel : nat) (content : Content)
    (options : CheckOptions) (st st' : CheckerState)
    (r : ComplianceResult) :
  checkCompliance env E R fuel content options st = Some (Returned r, st') ->
  cr_url r = default "" (url options)
  /\ page_type r = default "general" (pageType options).
Proof.
  unfold checkCompliance.
  destruct (match rules st with
            | Some r => Returned r
            | None => loadRules env
            end) as [e | ruleSet]; [discriminate |].
  destruct (performBasicChecks E fuel ruleSet content _)
    as [[basic ws] |]; [| discriminate].
  simpl.
  destruct (aiStep env R content _ _ _) as [aiResults rst].
  destruct (combineResults basic aiResults); [discriminate |].
  intros H. injection H as <- <-. split; reflexivity.
Qed.

Lemma checkPage_address (fuel : nat) (options : CheckOptions)
    (pageUrl : string) (st st' : CheckerState) (res : PageResult) :
  checkPage env E R extractContent fuel options pageUrl st = Some (res, st') ->
  pageUrlOf res = pageUrl.
Proof.
  unfold checkPage.
  destruct (extractContent pageUrl) as [e | page].
  { intros H. injection H as <- <-. reflexivity. }
  destruct (detectPageType page) as [e | pt].
  { intros H. injection H as <- <-. reflexivity. }
  destruct (checkCompliance env E R fuel (sp_content page)
              (forPage options pageUrl pt) st) as [[[e | r] s] |] eqn:Hc;
    [| | discriminate].
  - intros H. injection H as <- <-. reflexivity.
  - intros H. injection H as <- <-. simpl.
    destruct (checkCompliance_address _ _ _ _ _ _ Hc) as [-> _].
    reflexivity.
Qed.

Lemma checkPage_within (fuel : nat) (options : CheckOptions)
    (pageUrl : string) (st : CheckerState) :
  progressive E ->
  (forall page, extractContent pageUrl = Returned page ->
     (String.length (Js.opt_or_else (text (sp_content page)) "") < fuel)%nat) ->
  is_Some (checkPage env E R extractContent fuel options pageUrl st).
Proof.
  intros Hprog Hlt. unfold checkPage.
  destruct (extractContent pageUrl) as [e | page]; [eauto |].
  destruct (detectPageType page) as [e | pt]; [eauto |].
  destruct (checkCompliance_within fuel (sp_content page)
              (forPage options pageUrl pt) st Hprog (Hlt page eq_refl))
    as [[[e | r] s] ->]; eauto.
Qed.

Lemma checkPage_unreachable (fuel : nat) (options : CheckOptions)
    (pageUrl : string) (st : CheckerState) (e : exn) :
  extractContent pageUrl = Threw e ->
  checkPage env E R extractContent fuel options pageUrl st
  = Some (Failed pageUrl (message_of e), st).
Proof. unfold checkPage. intros ->. reflexivity. Qed.

(** X16.  With an engine whose matches advance, and more fuel than the
    characters of any extracted page, [checkMultiplePages] always
    returns: it gives one result per address, in the order of the
    addresses and about that address, and an address whose extraction
    throws gets the error record at its position, with the message
    thrown, so one page that fails never ends the batch. *)
Theorem batch_gives_one_result_per_page (fuel : nat) (urls : list string)
    (options : CheckOptions) (st : CheckerState) :
  progressive E ->
  (forall pageUrl page,
     pageUrl ∈ urls -> extractContent pageUrl = Returned page ->
     (String.length (Js.opt_or_else (text (sp_content page)) "") < fuel)%nat) ->
  exists results st',
    checkMultiplePages env E R extractContent fuel urls options st
    = Some (results, st')
    /\ map pageUrlOf results = urls
    /\ forall i pageUrl e,
         urls !! i = Some pageUrl -> extractContent pageUrl = Threw e ->
         results !! i = Some (Failed pageUrl (message_of e)).
Proof.
  intros Hprog. revert st.
  induction urls as [| pageUrl rest IH]; intros st Hlt.
  { exists [], st. repeat split. intros i u e Hi. discriminate Hi. }
  simpl.
  destruct (checkPage_within fuel options pageUrl st Hprog) as [[res s1] Hp].
  { intros page. apply Hlt. apply list_elem_of_here. }
  rewrite Hp.
  destruct (IH s1) as (results & st' & -> & Hurls & Hfail).
  { intros u page Hu. apply Hlt. apply list_elem_of_further. exact Hu. }
  exists (res :: results), st'. split; [reflexivity |]. split.
  - simpl. rewrite Hurls, (checkPage_address _ _ _ _ _ _ Hp). reflexivity.
  - intros [| i] u e Hi He; simpl in *.
    + injection Hi as ->.
      rewrite (checkPage_unreachable fuel options u st e He) in Hp.
      injection Hp as <- _. reflexivity.
    + eapply Hfail; eassumption.
Qed.

End Batch.

Lemma site_engine_progressive : progressive Site.engine.
Proof.
  intros re txt lastIndex m0 index lastIndex'. simpl.
  destruct (String.index lastIndex re (Js.toLowerCase txt)) as [i |];
    [| discriminate].
  destruct ((lastIndex <? i + String.length re)%nat
            && (i + String.length re <=? String.length txt)%nat) eqn:Hc;
    [| discriminate].
  intros H. injection H as <- <- <-.
  apply andb_true_iff in Hc. destruct Hc as [H1 H2].
  apply Nat.ltb_lt in H1. apply Nat.leb_le in H2. split; assumption.
Qed.

Lemma batch_gives_one_result_per_page_witness :
  exists results st',
    checkMultiplePages Sample.env Site.engine Demo.offline
      Demo.extractContent 1000 Demo.urls Sample.defaults Sample.fresh
    = Some (results, st')
    /\ map pageUrlOf results = Demo.urls
    /\ forall i pageUrl e,
         Demo.urls !! i = Some pageUrl ->
         Demo.extractContent pageUrl = Threw e ->
         results !! i = Some (Failed pageUrl (message_of e)).
Proof.
  apply (batch_gives_one_result_per_page Sample.env Site.engine Demo.offline
           Demo.extractContent 1000 Demo.urls Sample.defaults Sample.fresh).
  - exact site_engine_progressive.
  - intros pageUrl page _. unfold Demo.extractContent.
    destruct (String.eqb pageUrl "https://college.example/course");
      [| discriminate].
    intros H. injection H as <-. vm_compute. lia.
Defined.


(** ** The type of a page *)

Lemma pickHighest_spec (scores : list (string * nat)) :
  forall m0 d0,
    let best := pickHighest scores (m0, d0) in
    (forall e, e ∈ scores -> (snd e <= fst best)%nat)
    /\ ((best = (m0, d0) /\ forall e, e ∈ scores -> (snd e <= m0)%nat)
        \/ (exists before after,
              scores = (before ++ (snd best, fst best) :: after)%list
              /\ (m0 < fst best)%nat
              /\ forall e, e ∈ before -> (snd e < fst best)%nat)).
Proof.
  unfold pickHighest.
  induction scores as [| [n s] rest IH]; intros m0 d0; simpl.
  { split; [intros e He; inversion He |].
    left. split; [reflexivity | intros e He; inversion He]. }
  destruct (m0 <? s)%nat eqn:Hlt.
  - apply Nat.ltb_lt in Hlt.
    destruct (IH s n) as (Hall & Hcase). cbv zeta in *.
    set (best := fold_left _ rest (s, n)) in *.
    assert (Hs : (s <= fst best)%nat).
    { destruct Hcase as [[-> _] | (_ & _ & _ & Hm & _)]; simpl; lia. }
    split.
    + intros e He. apply elem_of_cons in He as [-> | He];
        [exact Hs | exact (Hall e He)].
    + right. destruct Hcase as [[Hb Hle] | (before & after & Hsc & Hm & Hbef)].
      * exists [], rest. rewrite Hb. simpl.
        split; [reflexivity |]. split; [exact Hlt |].
        intros e He. inversion He.
      * exists ((n, s) :: before), after. rewrite Hsc at 1.
        split; [reflexivity |]. split; [lia |].
        intros e He. apply elem_of_cons in He as [-> | He];
          [simpl; lia | exact (Hbef e He)].
  - apply Nat.ltb_ge in Hlt.
    destruct (IH m0 d0) as (Hall & Hcase). cbv zeta in *.
    set (best := fold_left _ rest (m0, d0)) in *.
    split.
    + intros e He. apply elem_of_cons in He as [-> | He];
        [| exact (Hall e He)].
      simpl. destruct Hcase as [[-> _] | (_ & _ & _ & Hm & _)]; simpl; lia.
    + destruct Hcase as [[Hb Hle] | (before & after & Hsc & Hm & Hbef)].
      * left. split; [exact Hb |].
        intros e He. apply elem_of_cons in He as [-> | He];
          [exact Hlt | exact (Hle e He)].
      * right. exists ((n, s) :: before), after. rewrite Hsc at 1.
        split; [reflexivity |]. split; [exact Hm |].
        intros e He. apply elem_of_cons in He as [-> | He];
          [simpl; lia | exact (Hbef e He)].
Qed.

(** X18.  [detectPageType] either finds no keyword of any type in the
    text and answers "general", or answers the type whose keyword list
    has the most keywords in the text: at least one, at least as many
    as every other type, and strictly more than every type listed
    before it, so that among equals the type listed first wins. *)
Theorem detected_type_has_the_most_keywords (combinedText : string) :
  (detectFrom combinedText = "general"
   /\ forall entry, entry ∈ pageTypes ->
        keywordScore combinedText (snd entry) = 0%nat)
  \/ (exists before keywords after,
        pageTypes
        = (before ++ (detectFrom combinedText, keywords) :: after)%list
        /\ (0 < keywordScore combinedText keywords)%nat
        /\ (forall entry, entry ∈ before ->
              (keywordScore combinedText (snd entry)
               < keywordScore combinedText keywords)%nat)
        /\ (forall entry, entry ∈ after ->
              (keywordScore combinedText (snd entry)
               <= keywordScore combinedText keywords)%nat)).
Proof.
  unfold detectFrom.
  set (score := fun entry : string * list string =>
                  (fst entry, keywordScore combinedText (snd entry))).
  destruct (pickHighest_spec (map score pageTypes) 0%nat "general")
    as (Hall & Hcase).
  cbv zeta in *.
  set (best := pickHighest (map score pageTypes) (0%nat, "general")) in *.
  assert (Hin : forall entry, entry ∈ pageTypes ->
                  (keywordScore combinedText (snd entry) <= fst best)%nat).
  { intros entry He. apply (Hall (score entry)).
    apply list_elem_of_In, in_map, list_elem_of_In, He. }
  destruct Hcase as [[Hb Hle] | (before & after & Hsc & Hm & Hbef)].
  - left. rewrite Hb. simpl. split; [reflexivity |].
    intros entry He. specialize (Hin entry He). rewrite Hb in Hin.
    simpl in Hin. lia.
  - right. apply Nat.ltb_lt in Hm as Hpos. rewrite Hpos.
    apply map_eq_app in Hsc as (l1 & l2' & Hpt & Hl1 & Hl2).
    destruct l2' as [| [d kws] l2]; [discriminate Hl2 |].
    simpl in Hl2. injection Hl2 as Hd Hk Hl2.
    exists l1, kws, l2. rewrite Hk.
    split; [rewrite Hpt, <- Hd; reflexivity |].
    split; [exact Hm |]. split.
    + intros entry He. apply (Hbef (score entry)). rewrite <- Hl1.
      apply list_elem_of_In, in_map, list_elem_of_In, He.
    + intros entry He. apply Hin. rewrite Hpt.
      apply elem_of_app. right. apply list_elem_of_further. exact He.
Qed.

(** ** The summary of a batch *)

Lemma countSeverity_tallied (acc : gmap string Tally) (v : Violation) :
  tallied acc -> tallied (countSeverity acc v).
Proof.
  intros Hacc. unfold countSeverity.
  destruct (acc !! severity v) as [[n | ones] |] eqn:Hk.
  - destruct (Hacc _ _ Hk) as [_ Hname]. intros sev t Hs.
    apply lookup_insert_Some in Hs as [[<- <-] | [_ Hs]];
      [split; [lia | exact Hname] | exact (Hacc _ _ Hs)].
  - destruct (Hacc _ _ Hk) as (_ & Hname & Hp). intros sev t Hs.
    apply lookup_insert_Some in Hs as [[<- <-] | [_ Hs]];
      [split; [lia | split; assumption] | exact (Hacc _ _ Hs)].
  - destruct (String.eqb (severity v) "__proto__") eqn:Hp; [exact Hacc |].
    apply String.eqb_neq in Hp.
    destruct (Js.inheritedName (severity v)) eqn:Hname; intros sev t Hs;
      apply lookup_insert_Some in Hs as [[<- <-] | [_ Hs]];
      try exact (Hacc _ _ Hs).
    + split; [lia | split; assumption].
    + split; [lia | exact Hname].
Qed.

Lemma fold_countSeverity_tallied (vs : list Violation) :
  forall acc, tallied acc -> tallied (fold_left countSeverity vs acc).
Proof.
  induction vs as [| v vs IH]; intros acc Hacc; simpl; [exact Hacc |].
  apply IH. apply countSeverity_tallied. exact Hacc.
Qed.

Lemma countSeverity_plain (acc : gmap string Tally) (v : Violation) :
  tallied acc ->
  Js.inheritedName (severity v) = false ->
  countSeverity acc v
  = <[severity v := Count (counted (default (Count 0) (acc !! severity v)) + 1)]>
      acc.
Proof.
  intros Hacc Hname. unfold countSeverity.
  destruct (acc !! severity v) as [[n | ones] |] eqn:Hk; simpl.
  - reflexivity.
  - destruct (Hacc _ _ Hk) as (_ & Hinh & _). congruence.
  - rewrite Hname.
    destruct (String.eqb (severity v) "__proto__") eqn:Hp; [| reflexivity].
    apply String.eqb_eq in Hp. rewrite Hp in Hname. discriminate Hname.
Qed.

Lemma countSeverity_counts (vs : list Violation) :
  Forall (fun v => Js.inheritedName (severity v) = false) vs ->
  forall acc sev,
    tallied acc ->
    counted (default (Count 0) (fold_left countSeverity vs acc !! sev))
    = (counted (default (Count 0) (acc !! sev))
       + length (filter (fun v => severity v = sev) vs))%nat.
Proof.
  induction 1 as [| v vs Hv _ IH]; intros acc sev Hacc; simpl.
  { rewrite Nat.add_0_r. reflexivity. }
  rewrite IH by (apply countSeverity_tallied; exact Hacc).
  rewrite (countSeverity_plain acc v Hacc Hv).
  destruct (decide (severity v = sev)) as [Heq | Hne].
  - rewrite filter_cons_True by exact Heq. rewrite Heq, lookup_insert_eq.
    simpl. lia.
  - rewrite filter_cons_False by exact Hne.
    rewrite lookup_insert_ne by exact Hne. reflexivity.
Qed.

Lemma countTotal_fresh (m : gmap string Tally) (k : string) (t : Tally) :
  m !! k = None -> countTotal (<[k := t]> m) = (counted t + countTotal m)%nat.
Proof.
  intros Hk. unfold countTotal.
  apply (map_fold_insert_L (fun _ t acc => (counted t + acc)%nat));
    [| exact Hk].
  intros. lia.
Qed.

Lemma countTotal_insert (m : gmap string Tally) (k : string) (t : Tally) :
  (countTotal (<[k := t]> m) + counted (default (Count 0) (m !! k)))%nat
  = (countTotal m + counted t)%nat.
Proof.
  destruct (m !! k) as [old |] eqn:Hk; simpl.
  - rewrite <- (insert_delete_eq m k t).
    rewrite countTotal_fresh by apply lookup_delete_eq.
    rewrite <- (insert_delete_id m k old Hk) at 2.
    rewrite countTotal_fresh by apply lookup_delete_eq. lia.
  - rewrite countTotal_fresh by exact Hk. lia.
Qed.

Lemma countTotal_fold (vs : list Violation) :
  Forall (fun v => Js.inheritedName (severity v) = false) vs ->
  forall acc,
    tallied acc ->
    countTotal (fold_left countSeverity vs acc)
    = (countTotal acc + length vs)%nat.
Proof.
  induction 1 as [| v vs Hv _ IH]; intros acc Hacc; simpl; [lia |].
  rewrite IH by (apply countSeverity_tallied; exact Hacc).
  rewrite (countSeverity_plain acc v Hacc Hv).
  pose proof (countTotal_insert acc (severity v)
                (Count (counted (default (Count 0) (acc !! severity v)) + 1)))
    as Hins.
  simpl in Hins. lia.
Qed.

Lemma tallied_empty : tallied ∅.
Proof. intros sev t Hs. rewrite lookup_empty in Hs. discriminate Hs. Qed.

(** X19.  In a summary report the breakdown holds a count only under a
    severity that is no name every object inherits, and never a zero.
    When no violation has such a name for its severity, the breakdown
    lists exactly the severities that occur among the violations of all
    pages, each with the number of violations of that severity, and
    the counts add up to [total_violations].  Pages that failed
    contribute no violation. *)
Theorem summary_breakdown_counts_each_violation_once (env : Env)
    (st : CheckerState) (results : list PageResult) (rep : SummaryReport) :
  generateSummaryReport env st results = Returned rep ->
  let allViolations := flat_map pageViolations results in
  tallied (violation_breakdown (summary rep))
  /\ total_violations (summary rep) = length allViolations
  /\ (Forall (fun v => Js.inheritedName (severity v) = false) allViolations ->
      (forall sev t,
         violation_breakdown (summary rep) !! sev = Some t
         <-> exists n,
               t = Count n /\ (0 < n)%nat
               /\ n = length (filter (fun v => severity v = sev)
                                allViolations))
      /\ countTotal (violation_breakdown (summary rep))
         = total_violations (summary rep)).
Proof.
  unfold generateSummaryReport.
  destruct (rules st) as [ruleSet |]; [| discriminate].
  intros H. injection H as <-. cbv zeta. simpl.
  set (allViolations := flat_map pageViolations results).
  pose proof (fold_countSeverity_tallied allViolations ∅ tallied_empty)
    as Htal.
  split; [exact Htal |]. split; [reflexivity |].
  intros Hplain. split.
  - intros sev t.
    pose proof (countSeverity_counts allViolations Hplain ∅ sev tallied_empty)
      as Hcount.
    rewrite lookup_empty in Hcount. simpl in Hcount.
    split.
    + intros Ht. rewrite Ht in Hcount. simpl in Hcount.
      specialize (Htal _ _ Ht). destruct t as [n | ones].
      * exists n. simpl in Hcount. destruct Htal as [Hpos _].
        split; [reflexivity | split; [exact Hpos | exact Hcount]].
      * exfalso. destruct Htal as (_ & Hinh & _).
        assert (Hnone : forall vs acc,
                   acc !! sev = None ->
                   filter (fun v => severity v = sev) vs = [] ->
                   fold_left countSeverity vs acc !! sev = None).
        { induction vs as [| v vs IH]; intros acc Hacc Hf; simpl;
            [exact Hacc |].
          destruct (decide (severity v = sev)) as [Heq | Hne].
          - rewrite filter_cons_True in Hf by exact Heq. discriminate Hf.
          - rewrite filter_cons_False in Hf by exact Hne.
            apply IH; [| exact Hf]. unfold countSeverity.
            destruct (acc !! severity v) as [[n | k] |];
              rewrite ?lookup_insert_ne by exact Hne; try exact Hacc.
            destruct (String.eqb (severity v) "__proto__"); [exact Hacc |].
            destruct (Js.inheritedName (severity v));
              rewrite lookup_insert_ne by exact Hne; exact Hacc. }
        destruct (filter (fun v => severity v = sev) allViolations)
          as [| v rest] eqn:Hf.
        -- rewrite (Hnone allViolations ∅ (lookup_empty _) Hf) in Ht.
           discriminate Ht.
        -- assert (Hv : v ∈ filter (fun v => severity v = sev) allViolations)
             by (rewrite Hf; apply list_elem_of_here).
           apply list_elem_of_filter in Hv as [Hsev Hin].
           rewrite Forall_forall in Hplain. specialize (Hplain v Hin).
           rewrite Hsev in Hplain. congruence.
    + intros (n & -> & Hpos & ->).
      destruct (fold_left countSeverity allViolations ∅ !! sev) as [t |]
        eqn:Ht; simpl in Hcount.
      * specialize (Htal _ _ Ht). destruct t as [m | ones]; simpl in Hcount.
        -- rewrite Hcount. reflexivity.
        -- lia.
      * lia.
  - rewrite (countTotal_fold allViolations Hplain ∅ tallied_empty).
    unfold countTotal. rewrite map_fold_empty. reflexivity.
Qed.

Lemma summary_breakdown_counts_each_violation_once_witness :
  exists rep,
    generateSummaryReport Sample.env Site.loaded Site.results = Returned rep
    /\ tallied (violation_breakdown (summary rep))
    /\ countTotal (violation_breakdown (summary rep))
       = total_violations (summary rep).
Proof.
  destruct (generateSummaryReport Sample.env Site.loaded Site.results)
    as [e | rep] eqn:Hrun; [vm_compute in Hrun; discriminate Hrun |].
  destruct (summary_breakdown_counts_each_violation_once
              Sample.env Site.loaded Site.results rep Hrun)
    as (Htal & _ & Hplain).
  exists rep. split; [reflexivity |]. split; [exact Htal |].
  apply Hplain. repeat constructor.
Defined.

Lemma totalScore_within (lo hi : Z) (results : list PageResult) :
  Forall (scoreWithin lo hi) results ->
  forall sum,
    (sum + lo * Z.of_nat (length results)
     <= fold_left (fun sum r => (sum + pageScore r)%Z) results sum
     <= sum + hi * Z.of_nat (length results))%Z.
Proof.
  induction 1 as [| r rest Hr _ IH]; intros sum; simpl length;
    [simpl; lia |].
  simpl fold_left. specialize (IH (sum + pageScore r)%Z).
  unfold scoreWithin in Hr. lia.
Qed.

(** X20.  The average score of a summary lies between the lowest and the
    highest score of its pages, where a page that failed counts with
    score 0; in particular it lies between 0 and 100 when the page
    scores do.  A summary of no page has no average (NaN), and its
    status is FAIL. *)
Theorem summary_average_lies_between_the_page_scores (env : Env)
    (st : CheckerState) (results : list PageResult) (rep : SummaryReport)
    (lo hi : Z) :
  generateSummaryReport env st results = Returned rep ->
  Forall (scoreWithin lo hi) results ->
  match results with
  | [] => average_compliance_score (summary rep) = None
          /\ overall_status (summary rep) = FAIL
  | _ :: _ =>
      exists a, average_compliance_score (summary rep) = Some a
                /\ (lo <= a <= hi)%Z
  end.
Proof.
  unfold generateSummaryReport.
  destruct (rules st) as [ruleSet |]; [| discriminate].
  intros H Hall. injection H as <-. simpl.
  destruct results as [| r rest]; [split; reflexivity |].
  eexists. split; [reflexivity |].
  pose proof (totalScore_within lo hi (r :: rest) Hall 0) as Hsum.
  set (n := Z.of_nat (length (r :: rest))) in *.
  set (total := fold_left (fun sum r => (sum + pageScore r)%Z)
                  (r :: rest) 0%Z) in *.
  assert (Hn : (0 < n)%Z) by (unfold n; simpl length; lia).
  assert (Hq : (0 < inject_Z n)%Q) by (unfold Qlt; simpl; lia).
  rewrite <- (Math_round_Z lo), <- (Math_round_Z hi).
  split; apply Math_round_mono.
  - apply Qle_shift_div_l; [exact Hq |].
    rewrite <- inject_Z_mult, <- Zle_Qle. lia.
  - apply Qle_shift_div_r; [exact Hq |].
    rewrite <- inject_Z_mult, <- Zle_Qle. lia.
Qed.

Lemma summary_average_lies_between_the_page_scores_witness :
  exists rep a,
    generateSummaryReport Sample.env Site.loaded Site.results = Returned rep
    /\ average_compliance_score (summary rep) = Some a
    /\ (0 <= a <= 100)%Z.
Proof.
  destruct (generateSummaryReport Sample.env Site.loaded Site.results)
    as [e | rep] eqn:Hrun; [vm_compute in Hrun; discriminate Hrun |].
  destruct (summary_average_lies_between_the_page_scores Sample.env
              Site.loaded Site.results rep 0 100 Hrun) as (a & Ha & Hr).
  - repeat constructor; unfold scoreWithin; vm_compute; discriminate.
  - exists rep, a. split; [reflexivity |]. split; assumption.
Defined.

Section BatchSummary.

Variable env : Env.
Variable E : RegexEngine.
Variable R : Router.
Variable extractContent : string -> Outcome ScrapedPage.





End BatchSummary.


(** ** Recommendations for a site *)

Lemma categoryLines_nil (vs : list Violation) (cats : list string) :
  categoryLines vs cats = []
  <-> forall c, c ∈ cats -> (inCategory vs c <= 1)%nat.
Proof.
  unfold categoryLines. induction cats as [| c cats IH]; simpl.
  { split; [intros _ c Hc; inversion Hc | reflexivity]. }
  destruct (1 <? inCategory vs c)%nat eqn:Hlt.
  - apply Nat.ltb_lt in Hlt. split; [discriminate |].
    intros H. specialize (H c (list_elem_of_here _ _)). lia.
  - apply Nat.ltb_ge in Hlt. simpl. rewrite IH. split.
    + intros H c' Hc'. apply elem_of_cons in Hc' as [-> | Hc'];
        [exact Hlt | exact (H c' Hc')].
    + intros H c' Hc'. apply H. apply list_elem_of_further. exact Hc'.
Qed.

Lemma no_critical (vs : list Violation) :
  existsb (fun v => String.eqb (severity v) "critical") vs = false
  <-> forall v, v ∈ vs -> severity v <> "critical".
Proof.
  induction vs as [| v vs IH]; simpl.
  { split; [intros _ v Hv; inversion Hv | reflexivity]. }
  rewrite orb_false_iff, IH, String.eqb_neq. split.
  - intros [Hv Hvs] w Hw. apply elem_of_cons in Hw as [-> | Hw];
      [exact Hv | exact (Hvs w Hw)].
  - intros H. split; [apply H, list_elem_of_here |].
    intros w Hw. apply H, list_elem_of_further, Hw.
Qed.

(** X22.  A site gets no site-wide recommendation exactly when no two of
    its violations share a category and none of them is critical. *)
Theorem site_recommendations_empty_iff (vs : list Violation) :
  generateSiteWideRecommendations vs = []
  <-> forall v, v ∈ vs ->
        (inCategory vs (category v) <= 1)%nat /\ severity v <> "critical".
Proof.
  unfold generateSiteWideRecommendations. split.
  - intros H. apply app_eq_nil in H as [Hlines Hurgent].
    intros v Hv. split.
    + apply (proj1 (categoryLines_nil vs _) Hlines).
      apply uniq_elem. apply list_elem_of_In, in_map, list_elem_of_In, Hv.
    + apply (proj1 (no_critical vs)); [| exact Hv].
      destruct (existsb _ vs); [discriminate Hurgent | reflexivity].
  - intros H.
    assert (Hlines : categoryLines vs (Js.uniq (map category vs)) = []).
    { apply categoryLines_nil. intros c Hc.
      apply (proj1 (uniq_elem _ _)) in Hc.
      apply list_elem_of_In, in_map_iff in Hc as (v & <- & Hv).
      apply list_elem_of_In in Hv. exact (proj1 (H v Hv)). }
    assert (Hnone : existsb (fun v => String.eqb (severity v) "critical") vs
                    = false).
    { apply no_critical. intros v Hv. exact (proj2 (H v Hv)). }
    rewrite Hlines, Hnone. reflexivity.
Qed.

(** ** Images *)

(** X23.  [generateImage] changes the statistics only when the image
    was generated: a missing key or a failed request leaves the state
    as it was.  A generated image adds its price to the total cost,
    and the price is that of standard quality for the size asked
    (0.04 for 1024x1024, 0.08 otherwise), also when the options ask
    for another quality; it is not counted as a call and writes
    nothing to the log. *)
Theorem image_is_charged_at_the_standard_price (R : Router)
    (requestImage : string -> Outcome string) (prompt : string)
    (size : option string) (st : RouterState) :
  let run := generateImage R requestImage prompt size st in
  match fst run with
  | Threw _ => snd run = st
  | Returned _ =>
      exists c : Q,
        (c = 0.040%Q \/ c = 0.080%Q)
        /\ (c = 0.040%Q <-> size = Some "1024x1024")
        /\ totalCost (snd run) = (totalCost st + c)%Q
        /\ (forall name, callsOf (snd run) name = callsOf st name)
        /\ trace (snd run) = trace st
  end.
Proof.
  cbv zeta. unfold generateImage.
  destruct (clients R !! "openai") as [client |]; [| reflexivity].
  destruct (isConfigured client); simpl; [| reflexivity].
  destruct (requestImage prompt) as [e | result]; simpl; [reflexivity |].
  exists (calculateImageCost (Js.opt_or_else size "1792x1024") "standard").
  assert (Hcalls : forall c name,
             callsOf (trackCost "openai" c st) name = callsOf st name).
  { intros c name. unfold callsOf, trackCost. simpl.
    destruct (decide (name = "openai")) as [-> | Hne].
    - rewrite lookup_insert_eq. reflexivity.
    - rewrite lookup_insert_ne by (intros Heq; apply Hne; now rewrite Heq).
      reflexivity. }
  assert (Hprice :
            (size = Some "1024x1024"
             /\ calculateImageCost (Js.opt_or_else size "1792x1024")
                  "standard" = 0.040%Q)
            \/ (size <> Some "1024x1024"
                /\ calculateImageCost (Js.opt_or_else size "1792x1024")
                     "standard" = 0.080%Q)).
  { destruct size as [[| a s'] |];
      [right; split; [discriminate | reflexivity] |
       | right; split; [discriminate | reflexivity]].
    change (Js.opt_or_else (Some (String a s')) "1792x1024")
      with (String a s').
    set (s := String a s'). unfold calculateImageCost.
    destruct (String.eqb s "1024x1024") eqn:H1.
    - apply String.eqb_eq in H1. left. split; [now rewrite H1 | reflexivity].
    - apply String.eqb_neq in H1. right.
      split; [intros Heq; apply H1; unfold s; congruence |].
      destruct (String.eqb s "1792x1024");
        [reflexivity | destruct (String.eqb s "1024x1792"); reflexivity]. }
  split; [destruct Hprice as [[_ ->] | [_ ->]]; auto |].
  split; [| split; [reflexivity | split; [apply Hcalls | reflexivity]]].
  destruct Hprice as [[Hs ->] | [Hs ->]]; split; intros H;
    try assumption; try reflexivity; try discriminate H.
  contradiction.
Qed.
